(* ===== verification/_CoqProject ===== *)
-Q . S2P
Prelude.v
Bits.v
Machine.v
Instr.v
Interrupt.v
Device.v
Step.v
Control.v
Disasm.v
Loader.v
Cmd.v
Isa.v
Asm.v
