(* ===== verification/Prelude.v ===== *)
(** * A verification development for the lc3-win LC-3 simulator

    The program ([src/lc3_simulator]) is a console LC-3 simulator in
    C++: one class [Simulator] ([sim.h], [sim.cpp]) holds the machine
    (eight registers, PC, PSR, the MAR/MDR/IR latches, 64K words of
    memory with memory-mapped keyboard and display registers, the saved
    stack pointers, a status code, a breakpoint array and set, an
    instruction counter), and [main.cpp] reads commands and hands them
    to [Simulator::cmd].  The commands load binary images ([load_bin]),
    run the machine ([run], [run(int)], which call [step_over]), set
    and clear breakpoints and reset the machine ([initialize]).
    [step_over] polls the keyboard and the display ([device_keyboard],
    [device_monitor]), latches the PC, checks for a keyboard interrupt
    ([check_interrupt], [process_interrupt]) and otherwise fetches and
    executes one instruction ([process_instr], which calls the
    instruction members of [sim.h]).  The display side ([instr_to_asm],
    [isNOP], [str_imm], ...) disassembles memory for the terminal view.
    The command [asm] runs [Simulator::assembler], which reads a source
    file, classifies its lines through the member table [asm_map],
    assigns addresses, builds a symbol table, encodes each line and
    writes the origin and the words as [word_to_bin] lines: the format
    [load_bin] reads.

    ** Files (each opens with its own summary)
    - [Prelude] (this file): words as [Z] with the 16-bit truncation
      [wrap16] written out, the notations [+w] and [-w] of [lc3_scope],
      the hint databases [lc3] and [lc3_simpl], the tactic [zlia] and
      the generic lemmas on words and sets.
    - [Bits]: [slice], [sign_extend], [bit], [check_number],
      [word_to_bin] and [bin_to_word] (which throws: [None]).
    - [Machine]: the record [sim] of the engine fields of [Simulator],
      one setter per field, memory as a [gmap] read with default 0, the
      [int]-indexed access to [mem] ([mem_index], [mem_store], [None]
      out of bounds), the invariant [wf] (every register and memory
      cell a word, the counter an [int]) and its boolean twin [wfb].
    - [Instr]: [setcc], one definition per instruction member and
      [process_instr] (the [switch] on the opcode).
    - [Interrupt]: [check_interrupt] and [process_interrupt], split into
      the four blocks of its body ([interrupt_enter], [push_MDR],
      [push_PC], [interrupt_vector]) with a closed form for each.
    - [Device]: [device_keyboard] (the key [_getch] returned is an
      argument: [None] when [_kbhit] is false) and [device_monitor]
      (the printed byte is appended to the field [console]).
    - [Step]: [step_over] as the composition of [step_begin],
      [check_interrupt], [fetch_execute] and [check_breakpoint]; the
      equivalence [sim_equiv] (equal up to the status) with its
      [Proper] instances.
    - [Control]: the interface [Stepper] (what one step promises to the
      loops: [wf], the counter, the breakpoints, ESC), the loops [run]
      and [run_count] proved in a section against that interface, the
      instance for [step_over]; [set_bk], [cancel_bk], [cancel_all_bk],
      [clear_count].
    - [Disasm]: [str_imm], [str_reg], [str_fulhex] (the [sprintf]
      formats [%hd] and [%4hx] written out), [isNOP], [instr_to_asm].
    - [Loader]: [fgets] as 17-character chunks, [load_bin] on the file
      contents ([None] as the file: [fopen] failed), [initialize] with
      the [asm_map] table.
    - [Cmd]: [to_word] with [sscanf]'s [%hx]/[%hd] written out,
      [set_value], [cmd] (every command of the dispatcher, in a section
      over the files and the assembler), [cin.getline] and the loop of
      [main.cpp].
    - [Isa]: the opcode semantics of spec 4.1 over an abstract machine
      (total functions for registers and memory), the relation
      [refines] between a [sim] and that machine, and the refinement
      theorem for [process_instr].
    - [Asm]: the assembler end to end: [trim_space], [to_reg], [split],
      [split_first], [f.getline(buf, 256)] with its [eofbit] and
      [failbit], the reading loop ([read_source]), the classification
      pass through [asm_map] ([classify], where [asm_map[s]] inserts
      missing names), the address pass ([assign_go]), the symbol table
      ([resolve]), every case of the encoding [switch] ([encode_line],
      with the locals [pcoffset] and [imm] as [option] state, [None]
      until assigned), [assemble] (the new [asm_map], [errnum] and
      [bin]) and [assembler], the [asm] command on the simulator state,
      which discharges the assembler hypothesis of [Cmd].

    ** Theorems
    - Instruction semantics: the condition codes of [setcc]; [wf] is
      preserved by every instruction; [RTI] in both modes; every
      instruction refines the specification's opcode semantics
      ([Isa.process_instr_refines]).
    - Interrupts: the frame [process_interrupt] pushes, and an [RTI]
      after it returns to the pre-empted instruction; a key press with
      interrupts enabled is taken within the same [step_over].
    - Execution control: a run ends when ESC is read (liveness), more
      fuel does not change a run that ended (termination of the model),
      [wf] and the breakpoints are invariants of a run, [run(i)] counts
      at most [i] instructions; the breakpoint commands keep the array
      and the set consistent and are idempotent.
    - Loader: an image printed by [word_to_bin] loads back (round
      trip); a rejected image changes nothing; the range check;
      [initialize] resets the machine.
    - Commands: every state the loop of [main] reaches is well formed;
      [n] and [stepover] are [run(1)]; [str_fulhex] output reads back
      with [to_word]; what [set_value] writes.
    - Assembler: for every source, what it writes is the [.ORIG]
      operand followed by the encoder's words, and loads back through
      [load_bin] (the composition assembler, loader); an [ADD]/[AND] it
      encodes runs as written under [process_instr] (round trip through
      the decoder); [asm_map] keeps its entries, grows only by names
      mapped to 0, and keeps the mnemonic of every line read; the
      branch offset the encoder computes for a label; the reading loop
      terminates within the fuel given (a lemma used by the others).
    - Divergences from the LC-3 and from the spec, proved as theorems
      of the code: ESC does not keep the current instruction from
      executing; opcode [1100] always returns through R7; [JSRR R7];
      [LDI]/[STR] index [mem] out of bounds; [check_number] accepts
      twice the signed range; [isNOP] labels executed [ADD]s; the [JSR]
      disassembly prints two mnemonics; [fgets] writes 18 bytes into
      [char buf[17]]; [initialize] keeps [breakpoints_set];
      [set_value] stores an uninitialised value after ["Cannot
      recognize"]; a command line of 50 characters hangs [main].
      In the assembler: every file that ends with a newline is
      undefined ([trim_space] reads [s[-1]]); [LDI]/[STI] are encoded
      as base register plus offset6, which the simulator decodes as a
      PC offset; [JSR]/[JSRR] get an address but no word; an overflowing
      [ADD]/[AND] immediate is dropped without an error; an unknown
      mnemonic stays in [asm_map] as code 0 and swallows every later
      line that starts with it; a duplicate label in any source writes
      an origin-only file with no error counted for it; a branch to a
      label on a line of its own is one word short; no [.STRINGZ]
      operand gets a terminator.

    ** Bounds and fuel
    [run()] loops until the status leaves [Normal]; the model takes a
    fuel [nat] and returns [Finished] when it runs out, and
    [run_more_fuel] shows the fuel is only a bound: a run that ended
    within it ends the same with more.  The keys the terminal delivers
    are a stream [nat -> option Z], one poll per step.  [fgets_chunks]
    takes the text length as fuel, enough since each chunk consumes at
    least one character.  [hex_go] prints exactly four digits, the
    width of [%4hx] on a word.  [HistoryCount] is an [int]: the step
    that would increment [INT_MAX] is undefined ([None]).  Memory
    indices are [int] sums: outside [0, 0xFFFF] they are [None].  The
    loop of [main] takes a fuel of its own (one unit per line read) and
    a fuel for each [run] command; [words] takes the line length, the
    most words a line can hold.  [assemble] reads with the fuel
    [S (length text)]: each round of the reading loop ends the file or
    extracts a character ([read_source_enough_fuel]); the other passes
    recurse on lists.

    ** Not modelled
    - In the assembler: the diagnostic text ([message],
      [add_overflow_err], [line_c]), the output file name and a failing
      [ofstream] (the written words are returned instead); the [asm]
      command changes only [asm_map] of the state, and the file it
      writes is not fed back to the [files] of later commands.
    - In the command layer: the [message] text, the cursor loop of the
      select mode (display fields only: it is modelled as ending on
      ESC), and [system("cls")]; [sscanf] follows the C standard where
      glibc differs (an out-of-range value is undefined, not wrapped).
    - The terminal view ([show_mem], [show_status], [show_message],
      [cursor_xy], [text_color]) and the display-only fields
      ([vstart], [vtrackPC], [vselect], [vjump], [stdOutputHandle],
      [message]): they write to the Windows console only.
    - File handles: [fclose] and the leaked handle on the error paths of
      [load_bin]; [save_mem] is commented out in the source. *)

From Stdlib Require Export ZArith Lia.
From stdpp Require Export base gmap list strings.

Open Scope Z_scope.

Declare Scope lc3_scope.
Delimit Scope lc3_scope with lc3.

(** ** 16-bit words

    The simulator's [word] is [unsigned short]; every assignment to a
    [word] variable truncates modulo 2^16.  Words are modelled as [Z] and
    that truncation is written out as [wrap16]. *)

Definition word := Z.

Definition word_modulus : Z := 65536.

Definition wrap16 (z : Z) : Z := z mod word_modulus.

Definition is_word (z : Z) : Prop := 0 <= z < word_modulus.

Definition is_wordb (z : Z) : bool := (0 <=? z) && (z <? word_modulus).

Notation "x +w y" := (wrap16 (x + y)) (at level 50, left associativity) : lc3_scope.
Notation "x -w y" := (wrap16 (x - y)) (at level 50, left associativity) : lc3_scope.

Open Scope lc3_scope.

Create HintDb lc3 discriminated.
Create Rewrite HintDb lc3_simpl.

(** ** Tactics *)

(** [zlia] closes linear goals over [Z] with [mod] and [div] by
    constants. *)
Ltac zlia := unfold wrap16, is_word, word_modulus in *; Z.div_mod_to_equations; lia.

(** ** Generic lemmas on words *)

Lemma wrap16_is_word z : is_word (wrap16 z).
Proof. zlia. Qed.

Lemma wrap16_id z : is_word z -> wrap16 z = z.
Proof. intros H. unfold wrap16, is_word, word_modulus in *. apply Z.mod_small. lia. Qed.

Lemma wrap16_wrap16 z : wrap16 (wrap16 z) = wrap16 z.
Proof. apply wrap16_id, wrap16_is_word. Qed.

Lemma wrap16_add_wrap_l a b : wrap16 (wrap16 a + b) = wrap16 (a + b).
Proof. unfold wrap16. now rewrite Zplus_mod_idemp_l. Qed.

Lemma wrap16_add_wrap_r a b : wrap16 (a + wrap16 b) = wrap16 (a + b).
Proof. unfold wrap16. now rewrite Zplus_mod_idemp_r. Qed.

Lemma wrap16_sub_wrap_l a b : wrap16 (wrap16 a - b) = wrap16 (a - b).
Proof. unfold wrap16. now rewrite Zminus_mod_idemp_l. Qed.

Lemma wrap16_sub_wrap_r a b : wrap16 (a - wrap16 b) = wrap16 (a - b).
Proof. unfold wrap16. now rewrite Zminus_mod_idemp_r. Qed.

Lemma is_wordb_spec z : is_wordb z = true <-> is_word z.
Proof. unfold is_wordb, is_word. rewrite andb_true_iff, Z.leb_le, Z.ltb_lt. tauto. Qed.

Lemma is_word_const z : is_wordb z = true -> is_word z.
Proof. apply is_wordb_spec. Qed.

#[export] Hint Resolve wrap16_is_word : lc3.
#[export] Hint Rewrite wrap16_wrap16 wrap16_add_wrap_l wrap16_add_wrap_r
  wrap16_sub_wrap_l wrap16_sub_wrap_r : lc3_simpl.

(** ** Deciding a property of all words by computation

    [forall_block f k lo] checks [f] on the [2^k] integers from [lo];
    its specification turns one [vm_compute] into a statement about
    every word, in the style of boolean verifiers with a reflection
    lemma. *)

Fixpoint forall_block (f : Z -> bool) (k : nat) (lo : Z) : bool :=
  match k with
  | O => f lo
  | S k' => forall_block f k' lo && forall_block f k' (lo + 2 ^ Z.of_nat k')
  end.

Lemma forall_block_spec f k lo :
  forall_block f k lo = true -> forall x, lo <= x < lo + 2 ^ Z.of_nat k -> f x = true.
Proof.
  revert lo; induction k as [|k IH]; intros lo Hb x Hx; simpl in Hb.
  - simpl in Hx. now replace x with lo by lia.
  - apply andb_true_iff in Hb as [H1 H2].
    rewrite Nat2Z.inj_succ, Z.pow_succ_r in Hx by lia.
    destruct (Z.lt_ge_cases x (lo + 2 ^ Z.of_nat k)).
    + apply (IH lo H1); lia.
    + apply (IH _ H2); lia.
Qed.

Definition forall_word (f : Z -> bool) : bool := forall_block f 16 0.

Lemma forall_word_spec f : forall_word f = true -> forall x, is_word x -> f x = true.
Proof. intros H x Hx. apply (forall_block_spec f 16 0 H). unfold is_word, word_modulus in Hx.
  change (2 ^ Z.of_nat 16) with 65536. lia. Qed.

(** ** Options *)

Lemma option_bind_Some {A B} (o : option A) (f : A -> option B) b :
  o ≫= f = Some b <-> exists a, o = Some a /\ f a = Some b.
Proof. destruct o as [a|]; simpl; split; [eauto | intros (a0 & [= <-] & Hf); exact Hf | discriminate | intros (a0 & Hn & _); discriminate]. Qed.

(** [forall_upto f n] checks [f] on [0 .. n-1]: the small parameter
    ranges (bit positions, field widths) are enumerated this way. *)
Fixpoint forall_upto (f : Z -> bool) (n : nat) : bool :=
  match n with
  | O => true
  | S n' => forall_upto f n' && f (Z.of_nat n')
  end.

Lemma forall_upto_spec f n :
  forall_upto f n = true -> forall x, 0 <= x < Z.of_nat n -> f x = true.
Proof.
  induction n as [|n IH]; simpl; intros Hb x Hx; [lia|].
  apply andb_true_iff in Hb as [H1 H2].
  destruct (Z.eq_dec x (Z.of_nat n)) as [->|Hne]; [done|].
  apply IH; [done | lia].
Qed.

Lemma land_is_word a b : is_word a -> 0 <= b -> is_word (Z.land a b).
Proof.
  unfold is_word, word_modulus. intros Ha Hb.
  assert (Z.land a b = Z.land (Z.land a b) (Z.ones 16)) as ->.
  { rewrite <- Z.land_assoc, (Z.land_comm b), Z.land_assoc, Z.land_ones by lia.
    rewrite Z.mod_small; [done | simpl; lia]. }
  rewrite Z.land_ones by lia.
  pose proof (Z.mod_pos_bound (Z.land a b) (2 ^ 16) ltac:(simpl; lia)). simpl in *. lia.
Qed.

#[export] Hint Resolve land_is_word : lc3.

Lemma wrap16_sub2_add1 x : (x -w 2) +w 1 = x -w 1.
Proof. rewrite wrap16_add_wrap_l. f_equal. lia. Qed.

Lemma wrap16_sub2_add2 x : (x -w 2) +w 2 = wrap16 x.
Proof. rewrite wrap16_add_wrap_l. f_equal. lia. Qed.

(** ** Finite sets of addresses *)

Lemma union_singleton_idem (X : gset Z) l : {[l]} ∪ ({[l]} ∪ X) = {[l]} ∪ X.
Proof. apply leibniz_equiv. set_solver. Qed.

Lemma difference_singleton_idem (X : gset Z) l : X ∖ {[l]} ∖ {[l]} = X ∖ {[l]}.
Proof. apply leibniz_equiv. set_solver. Qed.

Lemma difference_singleton_notin (X : gset Z) l : l ∉ X -> X ∖ {[l]} = X.
Proof. intros. apply leibniz_equiv. set_solver. Qed.
