(* ===== verification/Bits.v ===== *)
(** * Bit-field utilities ([src/lc3_simulator/sim.h] lines 71-81, 97;
    [src/lc3_simulator/sim.cpp] lines 249-272, 1368-1373)

    [bit], [slice], [sign_extend] and [check_number] as the C++ code
    computes them on [word]s, the text conversions [word_to_bin] and
    [bin_to_word] of the binary image format, and their specifications:
    [slice] is a shift-and-mask, [sign_extend] yields the two's
    complement value of a field, [check_number] accepts the values whose
    magnitude is below [2^n] (twice the signed [n]-bit range), and the
    two conversions are inverse on words. *)

From S2P Require Import Prelude.
From Stdlib Require Import Ascii String.

Open Scope Z_scope.
Open Scope lc3_scope.

(** ** The code *)

(** [bool bit(word x, int i){return (x&(1<<i)) != 0;}] *)
Definition bit (x i : Z) : bool := negb (Z.land x (Z.shiftl 1 i) =? 0).

(** [word slice(word x, short a, short b){return ((x%(1<<b))>>a);}] *)
Definition slice (x a b : Z) : Z := wrap16 (Z.shiftr (x mod Z.shiftl 1 b) a).

(** [word sign_extend(word x, int n)
      {return bit(x, n-1)?(((0xffff>>n)<<n) + x):x;}] *)
Definition sign_extend (x n : Z) : Z :=
  wrap16 (if bit x (n - 1) then Z.shiftl (Z.shiftr 65535 n) n + x else x).

(** [check_number(word x, int n)]: negate a word with bit 15 set
    ([x = (~x)+1], truncated to a word), then compare with [1<<n]. *)
Definition check_number (x n : Z) : bool :=
  let x' := if bit x 15 then wrap16 (Z.lnot x + 1) else x in
  x' <? Z.shiftl 1 n.

(** [word_to_bin]: position [i] of the 16-character result is ['1'] when
    [x&(1<<(15-i))] is positive. *)
Fixpoint word_to_bin_loop (x : Z) (i : nat) (k : nat) : string :=
  match k with
  | O => EmptyString
  | S k' =>
      String (if 0 <? Z.land x (Z.shiftl 1 (15 - Z.of_nat i)) then "1"%char else "0"%char)
             (word_to_bin_loop x (S i) k')
  end.

Definition word_to_bin (x : Z) : string := word_to_bin_loop x 0 16.

(** The C buffer read by [bin_to_word]: past the end of the string the
    next byte is the terminating NUL. *)
Definition char_at (s : string) (i : nat) : ascii :=
  match String.get i s with Some c => c | None => "000"%char end.

(** [bin_to_word(char str[])]: [throw 99] (here [None]) on the first
    character that is neither ['0'] nor ['1']. *)
Fixpoint bin_to_word_loop (s : string) (i : nat) (k : nat) (ret : Z) : option Z :=
  match k with
  | O => Some ret
  | S k' =>
      if Ascii.eqb (char_at s i) "1" then
        bin_to_word_loop s (S i) k' (wrap16 (ret + Z.shiftl 1 (15 - Z.of_nat i)))
      else if Ascii.eqb (char_at s i) "0" then bin_to_word_loop s (S i) k' ret
      else None
  end.

Definition bin_to_word (s : string) : option Z := bin_to_word_loop s 0 16 0.

(** ** Reference meanings *)

(** The two's complement value of an [n]-bit field. *)
Definition sext_field (n x : Z) : Z := if x <? 2 ^ (n - 1) then x else x - 2 ^ n.

(** The signed value of a 16-bit word ([short]). *)
Definition to_signed16 (x : Z) : Z := if x <? 32768 then x else x - 65536.

(** ** Lemmas on [bit] *)

Lemma land_pow2_eq0 x i : 0 <= i -> Z.land x (2 ^ i) = 0 <-> Z.testbit x i = false.
Proof.
  intros Hi. split.
  - intros H. rewrite <- (Z.testbit_0_l i), <- H, Z.land_spec, Z.pow2_bits_true by lia.
    now rewrite andb_true_r.
  - intros H. apply Z.bits_inj'. intros m Hm.
    rewrite Z.land_spec, Z.pow2_bits_eqb, Z.testbit_0_l by lia.
    destruct (Z.eqb_spec i m) as [->|]; [now rewrite H | now rewrite andb_false_r].
Qed.

Lemma bit_testbit x i : 0 <= i -> bit x i = Z.testbit x i.
Proof.
  intros Hi. unfold bit. rewrite Z.shiftl_1_l.
  destruct (Z.testbit x i) eqn:E.
  - destruct (Z.eqb_spec (Z.land x (2 ^ i)) 0) as [Heq|]; [|done].
    apply land_pow2_eq0 in Heq; [congruence | lia].
  - apply land_pow2_eq0 in E; [now rewrite E | lia].
Qed.

(** The top bit of an [k+1]-bit value tells whether it reaches [2^k]. *)
Lemma testbit_top x k : 0 <= k -> 0 <= x < 2 ^ (k + 1) -> Z.testbit x k = (2 ^ k <=? x).
Proof.
  intros Hk Hx. rewrite Z.pow_add_r, Z.pow_1_r in Hx by lia.
  assert (0 < 2 ^ k) by (apply Z.pow_pos_nonneg; lia).
  rewrite Z.testbit_eqb by lia.
  destruct (Z.leb_spec (2 ^ k) x).
  - assert (x / 2 ^ k = 1) as -> by (symmetry; apply Z.div_unique with (x - 2 ^ k); lia). done.
  - rewrite Z.div_small by lia. done.
Qed.

Lemma bit_top x k : 0 <= k -> 0 <= x < 2 ^ (k + 1) -> bit x k = (2 ^ k <=? x).
Proof. intros. rewrite bit_testbit by lia. now apply testbit_top. Qed.

Lemma bit15_word x : is_word x -> bit x 15 = (32768 <=? x).
Proof. intros Hx. apply bit_top; unfold is_word, word_modulus in Hx; simpl; lia. Qed.

(** ** Lemmas on [slice] *)

Lemma slice_eq x a b : 0 <= a -> 0 <= b <= 16 -> 0 <= x -> slice x a b = (x mod 2 ^ b) / 2 ^ a.
Proof.
  intros Ha Hb Hx. unfold slice. rewrite Z.shiftl_1_l, Z.shiftr_div_pow2 by lia.
  apply wrap16_id.
  assert (0 < 2 ^ a) by (apply Z.pow_pos_nonneg; lia).
  assert (0 < 2 ^ b <= 2 ^ 16) by (split; [apply Z.pow_pos_nonneg | apply Z.pow_le_mono_r]; lia).
  assert (0 <= x mod 2 ^ b < 2 ^ b) by (apply Z.mod_pos_bound; lia).
  assert (0 <= x mod 2 ^ b / 2 ^ a <= x mod 2 ^ b)
    by (split; [apply Z.div_pos | apply Z.div_le_upper_bound; nia]; lia).
  unfold is_word, word_modulus. simpl in *. lia.
Qed.

Lemma slice_range x a b :
  0 <= a <= b -> b <= 16 -> 0 <= x -> 0 <= slice x a b < 2 ^ (b - a).
Proof.
  intros Hab Hb Hx. rewrite slice_eq by lia.
  assert (0 < 2 ^ a) by (apply Z.pow_pos_nonneg; lia).
  assert (0 <= x mod 2 ^ b < 2 ^ b) by (apply Z.mod_pos_bound, Z.pow_pos_nonneg; lia).
  replace (2 ^ b) with (2 ^ (b - a) * 2 ^ a) in * by (rewrite <- Z.pow_add_r; f_equal; lia).
  split; [apply Z.div_pos; lia | apply Z.div_lt_upper_bound; lia].
Qed.

Lemma slice_low x n : 0 <= n <= 16 -> 0 <= x -> slice x 0 n = x mod 2 ^ n.
Proof. intros. rewrite slice_eq by lia. apply Z.div_1_r. Qed.

Lemma slice_is_word x a b : 0 <= a <= b -> b <= 16 -> 0 <= x -> is_word (slice x a b).
Proof.
  intros. pose proof (slice_range x a b) as R.
  assert (2 ^ (b - a) <= 2 ^ 16) by (apply Z.pow_le_mono_r; lia).
  unfold is_word, word_modulus. simpl in *. lia.
Qed.

(** ** Lemmas on [sign_extend] *)

Lemma sign_extend_mask n : 0 <= n <= 16 -> Z.shiftl (Z.shiftr 65535 n) n = 65536 - 2 ^ n.
Proof.
  intros Hn. apply Z.eqb_eq.
  apply (forall_upto_spec (fun n => Z.shiftl (Z.shiftr 65535 n) n =? 65536 - 2 ^ n) 17);
    [vm_compute; reflexivity | lia].
Qed.

(** [sign_extend] yields (the word of) the two's complement value of an
    [n]-bit field. *)
Lemma sign_extend_spec x n :
  1 <= n <= 16 -> 0 <= x < 2 ^ n -> sign_extend x n = wrap16 (sext_field n x).
Proof.
  intros Hn Hx. unfold sign_extend, sext_field.
  rewrite bit_top by (replace (n - 1 + 1) with n by lia; lia).
  rewrite sign_extend_mask by lia.
  destruct (Z.leb_spec (2 ^ (n - 1)) x), (Z.ltb_spec x (2 ^ (n - 1))); zlia.
Qed.

Lemma sext_field_range n x :
  1 <= n -> 0 <= x < 2 ^ n -> - 2 ^ (n - 1) <= sext_field n x < 2 ^ (n - 1).
Proof.
  intros Hn Hx. unfold sext_field.
  replace (2 ^ n) with (2 * 2 ^ (n - 1)) in * by (rewrite <- Z.pow_succ_r by lia; f_equal; lia).
  destruct (Z.ltb_spec x (2 ^ (n - 1))); lia.
Qed.

Lemma to_signed16_wrap16 v : -32768 <= v < 32768 -> to_signed16 (wrap16 v) = v.
Proof.
  intros Hv. unfold to_signed16.
  destruct (Z.ltb_spec (wrap16 v) 32768); zlia.
Qed.

(** The signed value of a sign-extended [n]-bit field is the field's
    two's complement value. *)
Lemma to_signed16_sign_extend x n :
  1 <= n <= 16 -> 0 <= x < 2 ^ n -> to_signed16 (sign_extend x n) = sext_field n x.
Proof.
  intros Hn Hx. rewrite sign_extend_spec by lia. apply to_signed16_wrap16.
  pose proof (sext_field_range n x ltac:(lia) Hx).
  assert (2 ^ (n - 1) <= 2 ^ 15) by (apply Z.pow_le_mono_r; lia).
  simpl in *. lia.
Qed.

Lemma sign_extend_is_word x n : is_word (sign_extend x n).
Proof. apply wrap16_is_word. Qed.

#[export] Hint Resolve sign_extend_is_word : lc3.

(** ** Lemmas on [check_number] *)

(** [check_number x n] accepts exactly the words whose signed value has
    magnitude below [2^n]. *)
Lemma check_number_spec x n :
  is_word x -> 0 <= n <= 15 ->
  check_number x n = (- 2 ^ n <? to_signed16 x) && (to_signed16 x <? 2 ^ n).
Proof.
  intros Hx Hn. unfold check_number, to_signed16. rewrite bit15_word, Z.shiftl_1_l by done.
  assert (0 < 2 ^ n <= 2 ^ 15) by (split; [apply Z.pow_pos_nonneg | apply Z.pow_le_mono_r]; lia).
  simpl in *. unfold is_word, word_modulus in Hx.
  destruct (Z.leb_spec 32768 x).
  - rewrite Z.succ_lnot.
    replace (wrap16 (- x)) with (65536 - x) by zlia.
    destruct (Z.ltb_spec x 32768); [lia|].
    destruct (Z.ltb_spec (65536 - x) (2 ^ n)), (Z.ltb_spec (- 2 ^ n) (x - 65536)),
      (Z.ltb_spec (x - 65536) (2 ^ n)); simpl; lia.
  - destruct (Z.ltb_spec x 32768); [|lia].
    destruct (Z.ltb_spec x (2 ^ n)), (Z.ltb_spec (- 2 ^ n) x); simpl; lia.
Qed.

(** ** The binary text format *)

Lemma word_to_bin_loop_length x i k : String.length (word_to_bin_loop x i k) = k.
Proof. revert i; induction k as [|k IH]; intros i; simpl; [done | now rewrite IH]. Qed.

Lemma word_to_bin_length x : String.length (word_to_bin x) = 16%nat.
Proof. apply word_to_bin_loop_length. Qed.

(** The image text of a word parses back to the word; checked on all
    65536 words by computation. *)
Lemma bin_to_word_word_to_bin_all :
  forall_word (fun x => bool_decide (bin_to_word (word_to_bin x) = Some x)) = true.
Proof. vm_compute. reflexivity. Qed.

Lemma word_to_bin_parses x : is_word x -> bin_to_word (word_to_bin x) = Some x.
Proof.
  intros Hx. apply (proj1 (bool_decide_eq_true _)).
  exact (forall_word_spec _ bin_to_word_word_to_bin_all x Hx).
Qed.

(** ** Properties *)

(** (spec 8, first bullet) sign-extending an [n]-bit field and
    masking the result back to [n] bits gives the field again. *)
Theorem sign_extend_slice_roundtrip w a b :
  is_word w -> 0 <= a < b -> b <= 16 ->
  slice (sign_extend (slice w a b) (b - a)) 0 (b - a) = slice w a b.
Proof.
  intros Hw Hab Hb. unfold is_word, word_modulus in Hw.
  pose proof (slice_range w a b ltac:(lia) Hb ltac:(lia)) as Hr.
  pose proof (sign_extend_is_word (slice w a b) (b - a)) as Hs.
  unfold is_word in Hs. rewrite slice_low by lia.
  rewrite sign_extend_spec by lia. unfold wrap16, word_modulus.
  rewrite Z.mod_mod_divide.
  2: { exists (2 ^ (16 - (b - a))). change 65536 with (2 ^ 16).
        rewrite <- Z.pow_add_r by lia. f_equal; lia. }
  unfold sext_field. destruct (Z.ltb_spec (slice w a b) (2 ^ (b - a - 1))).
  - apply Z.mod_small. lia.
  - replace (slice w a b - 2 ^ (b - a)) with (slice w a b + (-1) * 2 ^ (b - a)) by lia.
    rewrite Z.mod_add by lia. apply Z.mod_small. lia.
Qed.

Lemma sign_extend_slice_roundtrip_witness :
  slice (sign_extend (slice 0x1FFF 0 9) (9 - 0)) 0 (9 - 0) = slice 0x1FFF 0 9.
Proof. apply sign_extend_slice_roundtrip; unfold is_word, word_modulus; lia. Defined.


(** every word survives the binary text format of images:
    [bin_to_word (word_to_bin x) = Some x]. *)
Theorem bin_to_word_word_to_bin x : is_word x -> bin_to_word (word_to_bin x) = Some x.
Proof. apply word_to_bin_parses. Qed.

Lemma bin_to_word_word_to_bin_witness : bin_to_word (word_to_bin 0x3021) = Some 0x3021.
Proof. apply bin_to_word_word_to_bin. unfold is_word, word_modulus; lia. Defined.


(** C35: [check_number v n] accepts every value from [2^(n-1)]
    to [2^n - 1], outside the signed [n]-bit range; the [n]-bit field of
    such a value sign-extends to [v - 2^n], not to [v]. *)
Theorem check_number_accepts_out_of_range v n :
  1 <= n <= 15 -> 2 ^ (n - 1) <= v < 2 ^ n ->
  check_number v n = true /\ sign_extend (slice v 0 n) n = v + 65536 - 2 ^ n.
Proof.
  intros Hn Hv.
  assert (2 ^ n <= 2 ^ 15) by (apply Z.pow_le_mono_r; lia).
  assert (0 < 2 ^ (n - 1)) by (apply Z.pow_pos_nonneg; lia).
  split.
  - rewrite check_number_spec by (unfold is_word, word_modulus; simpl in *; lia).
    unfold to_signed16. simpl in *.
    destruct (Z.ltb_spec v 32768); [|lia].
    apply andb_true_iff; split; apply Z.ltb_lt; lia.
  - rewrite slice_low, Z.mod_small by lia.
    rewrite sign_extend_spec by lia. unfold sext_field.
    destruct (Z.ltb_spec v (2 ^ (n - 1))); [lia|]. simpl in *. zlia.
Qed.

Lemma check_number_accepts_out_of_range_witness :
  check_number 20 5 = true /\ sign_extend (slice 20 0 5) 5 = 20 + 65536 - 2 ^ 5.
Proof. apply check_number_accepts_out_of_range; simpl; lia. Defined.

