(* ===== verification/Machine.v ===== *)
(** * Machine state ([class Simulator], [src/lc3_simulator/sim.h] lines 17-51)

    The fields of [Simulator] that the engine reads and writes, as one
    record [sim]:
    - [gen_reg] is [word gen_reg[8]], a finite map from the indices 0-7
      to words, missing entries reading as 0 (the array is zeroed by
      [initialize]);
    - [PC], [MAR], [MDR], [IR], [PSR], [Saved_USP], [Saved_SSP] are words;
    - [mem] is [word mem[0x10000]], a finite map from addresses to words
      whose missing entries read as 0 (the array is zeroed by
      [initialize]);
    - [breakpoints] is the [bool breakpoints[0x10000]] array, as the set
      of addresses whose cell is [true], and [breakpoints_set] the
      [std::set<word>] kept beside it;
    - [HistoryCount] is the [int] counter of executed instructions;
    - [asm_map] is the [std::map<std::string, word>] of mnemonics that
      the assembler consults;
    - [console] is the sequence of characters [device_monitor] has
      printed.
    The fields used only by the terminal display ([vstart], [vtrackPC],
    [vselect], [vjump], [stdOutputHandle], [message]) are not modelled.

    The well-formedness invariant [wf] says that every register and
    every memory cell holds a 16-bit word and that only R0-R7 are
    written. *)

From S2P Require Import Prelude Bits.

Open Scope Z_scope.
Open Scope lc3_scope.

(** [enum status_code] *)
Inductive status_code :=
  | Breakpoint
  | Normal
  | Priviledge_Exception
  | User_Interrupt
  | Exit
  | Select.

#[export] Instance status_code_eq_dec : EqDecision status_code.
Proof. solve_decision. Defined.

(** Device register addresses ([DSR_], [DDR_], [KBSR_], [KBDR_]). *)
Definition DSR_ : Z := 0xfe04.
Definition DDR_ : Z := 0xfe06.
Definition KBSR_ : Z := 0xfe00.
Definition KBDR_ : Z := 0xfe02.

(** [INT_MAX] of the 32-bit [int] used for [HistoryCount]. *)
Definition INT_MAX : Z := 2147483647.

Record sim := mk_sim {
  gen_reg : gmap Z Z;
  PC : Z;
  MAR : Z;
  MDR : Z;
  IR : Z;
  PSR : Z;
  Saved_USP : Z;
  Saved_SSP : Z;
  mem : gmap Z Z;
  sim_status : status_code;
  breakpoints : gset Z;
  breakpoints_set : gset Z;
  HistoryCount : Z;
  asm_map : gmap string Z;
  console : list Z
}.

(** ** Reading the state *)

(** [gen_reg[r]] *)
Definition reg (s : sim) (r : Z) : Z := default 0 (gen_reg s !! r).

(** [mem[a]] for a [word] address. *)
Definition mem_read (s : sim) (a : Z) : Z := default 0 (mem s !! a).

(** [mem[i]] for an [int] index: out of [0 .. 0xFFFF] the access is out
    of the array's bounds, undefined behaviour, [None]. *)
Definition mem_index (s : sim) (i : Z) : option Z :=
  if is_wordb i then Some (mem_read s i) else None.

(** ** Updating the state, one field at a time *)

Definition with_reg (r v : Z) (s : sim) : sim :=
  mk_sim (<[r := v]> (gen_reg s)) (PC s) (MAR s) (MDR s) (IR s) (PSR s)
    (Saved_USP s) (Saved_SSP s) (mem s) (sim_status s) (breakpoints s)
    (breakpoints_set s) (HistoryCount s) (asm_map s) (console s).

Definition with_PC (v : Z) (s : sim) : sim :=
  mk_sim (gen_reg s) v (MAR s) (MDR s) (IR s) (PSR s) (Saved_USP s) (Saved_SSP s)
    (mem s) (sim_status s) (breakpoints s) (breakpoints_set s) (HistoryCount s)
    (asm_map s) (console s).

Definition with_MAR (v : Z) (s : sim) : sim :=
  mk_sim (gen_reg s) (PC s) v (MDR s) (IR s) (PSR s) (Saved_USP s) (Saved_SSP s)
    (mem s) (sim_status s) (breakpoints s) (breakpoints_set s) (HistoryCount s)
    (asm_map s) (console s).

Definition with_MDR (v : Z) (s : sim) : sim :=
  mk_sim (gen_reg s) (PC s) (MAR s) v (IR s) (PSR s) (Saved_USP s) (Saved_SSP s)
    (mem s) (sim_status s) (breakpoints s) (breakpoints_set s) (HistoryCount s)
    (asm_map s) (console s).

Definition with_IR (v : Z) (s : sim) : sim :=
  mk_sim (gen_reg s) (PC s) (MAR s) (MDR s) v (PSR s) (Saved_USP s) (Saved_SSP s)
    (mem s) (sim_status s) (breakpoints s) (breakpoints_set s) (HistoryCount s)
    (asm_map s) (console s).

Definition with_PSR (v : Z) (s : sim) : sim :=
  mk_sim (gen_reg s) (PC s) (MAR s) (MDR s) (IR s) v (Saved_USP s) (Saved_SSP s)
    (mem s) (sim_status s) (breakpoints s) (breakpoints_set s) (HistoryCount s)
    (asm_map s) (console s).

Definition with_USP (v : Z) (s : sim) : sim :=
  mk_sim (gen_reg s) (PC s) (MAR s) (MDR s) (IR s) (PSR s) v (Saved_SSP s)
    (mem s) (sim_status s) (breakpoints s) (breakpoints_set s) (HistoryCount s)
    (asm_map s) (console s).

Definition with_SSP (v : Z) (s : sim) : sim :=
  mk_sim (gen_reg s) (PC s) (MAR s) (MDR s) (IR s) (PSR s) (Saved_USP s) v
    (mem s) (sim_status s) (breakpoints s) (breakpoints_set s) (HistoryCount s)
    (asm_map s) (console s).

(** [mem[a] = v] for a [word] address. *)
Definition with_mem (a v : Z) (s : sim) : sim :=
  mk_sim (gen_reg s) (PC s) (MAR s) (MDR s) (IR s) (PSR s) (Saved_USP s) (Saved_SSP s)
    (<[a := v]> (mem s)) (sim_status s) (breakpoints s) (breakpoints_set s)
    (HistoryCount s) (asm_map s) (console s).

Definition with_status (st : status_code) (s : sim) : sim :=
  mk_sim (gen_reg s) (PC s) (MAR s) (MDR s) (IR s) (PSR s) (Saved_USP s) (Saved_SSP s)
    (mem s) st (breakpoints s) (breakpoints_set s) (HistoryCount s) (asm_map s) (console s).

Definition with_breakpoints (b bs : gset Z) (s : sim) : sim :=
  mk_sim (gen_reg s) (PC s) (MAR s) (MDR s) (IR s) (PSR s) (Saved_USP s) (Saved_SSP s)
    (mem s) (sim_status s) b bs (HistoryCount s) (asm_map s) (console s).

Definition with_count (n : Z) (s : sim) : sim :=
  mk_sim (gen_reg s) (PC s) (MAR s) (MDR s) (IR s) (PSR s) (Saved_USP s) (Saved_SSP s)
    (mem s) (sim_status s) (breakpoints s) (breakpoints_set s) n (asm_map s) (console s).

Definition with_asm_map (m : gmap string Z) (s : sim) : sim :=
  mk_sim (gen_reg s) (PC s) (MAR s) (MDR s) (IR s) (PSR s) (Saved_USP s) (Saved_SSP s)
    (mem s) (sim_status s) (breakpoints s) (breakpoints_set s) (HistoryCount s) m (console s).

Definition with_console (c : list Z) (s : sim) : sim :=
  mk_sim (gen_reg s) (PC s) (MAR s) (MDR s) (IR s) (PSR s) (Saved_USP s) (Saved_SSP s)
    (mem s) (sim_status s) (breakpoints s) (breakpoints_set s) (HistoryCount s)
    (asm_map s) c.

(** [mem[i] = v] for an [int] index. *)
Definition mem_store (i v : Z) (s : sim) : option sim :=
  if is_wordb i then Some (with_mem i v s) else None.

(** ** The well-formedness invariant *)

(** A register index is one of R0-R7. *)
Definition is_reg (r : Z) : Prop := 0 <= r < 8.

Definition regs_wf (rs : gmap Z Z) : Prop := map_Forall (fun r v => is_reg r /\ is_word v) rs.

Definition mem_wf (m : gmap Z Z) : Prop := map_Forall (fun a v => is_word a /\ is_word v) m.

Record wf (s : sim) : Prop := {
  wf_regs : regs_wf (gen_reg s);
  wf_PC : is_word (PC s);
  wf_MAR : is_word (MAR s);
  wf_MDR : is_word (MDR s);
  wf_IR : is_word (IR s);
  wf_PSR : is_word (PSR s);
  wf_USP : is_word (Saved_USP s);
  wf_SSP : is_word (Saved_SSP s);
  wf_mem : mem_wf (mem s);
  wf_count : 0 <= HistoryCount s <= INT_MAX
}.

(** A three-bit field names a register. *)
Lemma slice_is_reg x a b : 0 <= a -> b = a + 3 -> b <= 16 -> 0 <= x -> is_reg (slice x a b).
Proof.
  intros. pose proof (slice_range x a b ltac:(lia) ltac:(lia) ltac:(lia)).
  replace (b - a) with 3 in * by lia. unfold is_reg. simpl in *. lia.
Qed.

(** ** Reading after writing *)

Lemma reg_with_reg s r r' v :
  reg (with_reg r v s) r' = if decide (r = r') then v else reg s r'.
Proof.
  unfold reg, with_reg; simpl. rewrite lookup_insert. by case_decide.
Qed.

Lemma reg_with_reg_eq s r v : reg (with_reg r v s) r = v.
Proof. rewrite reg_with_reg. by case_decide. Qed.

Lemma reg_with_reg_ne s r r' v : r <> r' -> reg (with_reg r v s) r' = reg s r'.
Proof. intros. rewrite reg_with_reg. by case_decide. Qed.

Lemma mem_read_with_mem s a a' v :
  mem_read (with_mem a v s) a' = if decide (a = a') then v else mem_read s a'.
Proof.
  unfold mem_read, with_mem; simpl. rewrite lookup_insert. by case_decide.
Qed.

Lemma mem_read_with_mem_eq s a v : mem_read (with_mem a v s) a = v.
Proof. rewrite mem_read_with_mem. by case_decide. Qed.

Lemma mem_read_with_mem_ne s a a' v : a <> a' -> mem_read (with_mem a v s) a' = mem_read s a'.
Proof. intros. rewrite mem_read_with_mem. by case_decide. Qed.

Lemma mem_index_word s i : is_word i -> mem_index s i = Some (mem_read s i).
Proof. intros Hi. unfold mem_index. by rewrite (proj2 (is_wordb_spec i) Hi). Qed.

Lemma mem_index_out s i : ~ is_word i -> mem_index s i = None.
Proof.
  intros Hi. unfold mem_index. destruct (is_wordb i) eqn:E; [|done].
  apply is_wordb_spec in E. contradiction.
Qed.

Lemma mem_store_word s i v : is_word i -> mem_store i v s = Some (with_mem i v s).
Proof. intros Hi. unfold mem_store. by rewrite (proj2 (is_wordb_spec i) Hi). Qed.

Lemma mem_store_out s i v : ~ is_word i -> mem_store i v s = None.
Proof.
  intros Hi. unfold mem_store. destruct (is_wordb i) eqn:E; [|done].
  apply is_wordb_spec in E. contradiction.
Qed.


(** ** Reading through the other fields' updates

    [sim_simpl] rewrites [reg] and [mem_read] through the updates of
    other fields and reduces the field projections of updates. *)

Lemma reg_with_PC s (v : Z) r : reg (with_PC v s) r = reg s r.
Proof. reflexivity. Qed.

Lemma reg_with_MAR s (v : Z) r : reg (with_MAR v s) r = reg s r.
Proof. reflexivity. Qed.

Lemma reg_with_MDR s (v : Z) r : reg (with_MDR v s) r = reg s r.
Proof. reflexivity. Qed.

Lemma reg_with_IR s (v : Z) r : reg (with_IR v s) r = reg s r.
Proof. reflexivity. Qed.

Lemma reg_with_PSR s (v : Z) r : reg (with_PSR v s) r = reg s r.
Proof. reflexivity. Qed.

Lemma reg_with_USP s (v : Z) r : reg (with_USP v s) r = reg s r.
Proof. reflexivity. Qed.

Lemma reg_with_SSP s (v : Z) r : reg (with_SSP v s) r = reg s r.
Proof. reflexivity. Qed.

Lemma reg_with_status s (v : status_code) r : reg (with_status v s) r = reg s r.
Proof. reflexivity. Qed.

Lemma reg_with_count s (v : Z) r : reg (with_count v s) r = reg s r.
Proof. reflexivity. Qed.

Lemma reg_with_asm_map s (v : gmap string Z) r : reg (with_asm_map v s) r = reg s r.
Proof. reflexivity. Qed.

Lemma reg_with_console s (v : list Z) r : reg (with_console v s) r = reg s r.
Proof. reflexivity. Qed.

Lemma reg_with_mem s (a v : Z) r : reg (with_mem a v s) r = reg s r.
Proof. reflexivity. Qed.

Lemma mem_read_with_PC s (v : Z) a : mem_read (with_PC v s) a = mem_read s a.
Proof. reflexivity. Qed.

Lemma mem_read_with_MAR s (v : Z) a : mem_read (with_MAR v s) a = mem_read s a.
Proof. reflexivity. Qed.

Lemma mem_read_with_MDR s (v : Z) a : mem_read (with_MDR v s) a = mem_read s a.
Proof. reflexivity. Qed.

Lemma mem_read_with_IR s (v : Z) a : mem_read (with_IR v s) a = mem_read s a.
Proof. reflexivity. Qed.

Lemma mem_read_with_PSR s (v : Z) a : mem_read (with_PSR v s) a = mem_read s a.
Proof. reflexivity. Qed.

Lemma mem_read_with_USP s (v : Z) a : mem_read (with_USP v s) a = mem_read s a.
Proof. reflexivity. Qed.

Lemma mem_read_with_SSP s (v : Z) a : mem_read (with_SSP v s) a = mem_read s a.
Proof. reflexivity. Qed.

Lemma mem_read_with_status s (v : status_code) a : mem_read (with_status v s) a = mem_read s a.
Proof. reflexivity. Qed.

Lemma mem_read_with_count s (v : Z) a : mem_read (with_count v s) a = mem_read s a.
Proof. reflexivity. Qed.

Lemma mem_read_with_asm_map s (v : gmap string Z) a : mem_read (with_asm_map v s) a = mem_read s a.
Proof. reflexivity. Qed.

Lemma mem_read_with_console s (v : list Z) a : mem_read (with_console v s) a = mem_read s a.
Proof. reflexivity. Qed.

Lemma mem_read_with_reg s (r v : Z) a : mem_read (with_reg r v s) a = mem_read s a.
Proof. reflexivity. Qed.

Lemma reg_with_breakpoints s b bs r : reg (with_breakpoints b bs s) r = reg s r.
Proof. reflexivity. Qed.

Lemma mem_read_with_breakpoints s b bs a : mem_read (with_breakpoints b bs s) a = mem_read s a.
Proof. reflexivity. Qed.

#[export] Hint Rewrite reg_with_reg_eq : lc3_simpl.
#[export] Hint Rewrite reg_with_reg_ne using (unfold is_reg in *; lia) : lc3_simpl.
#[export] Hint Rewrite mem_read_with_mem_eq : lc3_simpl.
#[export] Hint Rewrite mem_read_with_mem_ne using (unfold KBSR_, KBDR_, DSR_, DDR_ in *; lia) : lc3_simpl.
#[export] Hint Rewrite reg_with_PC reg_with_MAR reg_with_MDR reg_with_IR reg_with_PSR reg_with_USP reg_with_SSP reg_with_status reg_with_count reg_with_asm_map reg_with_console reg_with_mem mem_read_with_PC mem_read_with_MAR mem_read_with_MDR mem_read_with_IR mem_read_with_PSR mem_read_with_USP mem_read_with_SSP mem_read_with_status mem_read_with_count mem_read_with_asm_map mem_read_with_console mem_read_with_reg reg_with_breakpoints mem_read_with_breakpoints : lc3_simpl.

Lemma gen_reg_with_mem s a v : gen_reg (with_mem a v s) = gen_reg s.
Proof. reflexivity. Qed.

Lemma PC_with_reg s r v : PC (with_reg r v s) = PC s.
Proof. reflexivity. Qed.

Lemma PC_with_mem s a v : PC (with_mem a v s) = PC s.
Proof. reflexivity. Qed.

Lemma MAR_with_reg s r v : MAR (with_reg r v s) = MAR s.
Proof. reflexivity. Qed.

Lemma MAR_with_mem s a v : MAR (with_mem a v s) = MAR s.
Proof. reflexivity. Qed.

Lemma MDR_with_reg s r v : MDR (with_reg r v s) = MDR s.
Proof. reflexivity. Qed.

Lemma MDR_with_mem s a v : MDR (with_mem a v s) = MDR s.
Proof. reflexivity. Qed.

Lemma IR_with_reg s r v : IR (with_reg r v s) = IR s.
Proof. reflexivity. Qed.

Lemma IR_with_mem s a v : IR (with_mem a v s) = IR s.
Proof. reflexivity. Qed.

Lemma PSR_with_reg s r v : PSR (with_reg r v s) = PSR s.
Proof. reflexivity. Qed.

Lemma PSR_with_mem s a v : PSR (with_mem a v s) = PSR s.
Proof. reflexivity. Qed.

Lemma Saved_USP_with_reg s r v : Saved_USP (with_reg r v s) = Saved_USP s.
Proof. reflexivity. Qed.

Lemma Saved_USP_with_mem s a v : Saved_USP (with_mem a v s) = Saved_USP s.
Proof. reflexivity. Qed.

Lemma Saved_SSP_with_reg s r v : Saved_SSP (with_reg r v s) = Saved_SSP s.
Proof. reflexivity. Qed.

Lemma Saved_SSP_with_mem s a v : Saved_SSP (with_mem a v s) = Saved_SSP s.
Proof. reflexivity. Qed.

Lemma mem_with_reg s r v : mem (with_reg r v s) = mem s.
Proof. reflexivity. Qed.

Lemma sim_status_with_reg s r v : sim_status (with_reg r v s) = sim_status s.
Proof. reflexivity. Qed.

Lemma sim_status_with_mem s a v : sim_status (with_mem a v s) = sim_status s.
Proof. reflexivity. Qed.

Lemma breakpoints_with_reg s r v : breakpoints (with_reg r v s) = breakpoints s.
Proof. reflexivity. Qed.

Lemma breakpoints_with_mem s a v : breakpoints (with_mem a v s) = breakpoints s.
Proof. reflexivity. Qed.

Lemma breakpoints_set_with_reg s r v : breakpoints_set (with_reg r v s) = breakpoints_set s.
Proof. reflexivity. Qed.

Lemma breakpoints_set_with_mem s a v : breakpoints_set (with_mem a v s) = breakpoints_set s.
Proof. reflexivity. Qed.

Lemma HistoryCount_with_reg s r v : HistoryCount (with_reg r v s) = HistoryCount s.
Proof. reflexivity. Qed.

Lemma HistoryCount_with_mem s a v : HistoryCount (with_mem a v s) = HistoryCount s.
Proof. reflexivity. Qed.

Lemma asm_map_with_reg s r v : asm_map (with_reg r v s) = asm_map s.
Proof. reflexivity. Qed.

Lemma asm_map_with_mem s a v : asm_map (with_mem a v s) = asm_map s.
Proof. reflexivity. Qed.

Lemma console_with_reg s r v : console (with_reg r v s) = console s.
Proof. reflexivity. Qed.

Lemma console_with_mem s a v : console (with_mem a v s) = console s.
Proof. reflexivity. Qed.

#[export] Hint Rewrite gen_reg_with_mem PC_with_reg PC_with_mem MAR_with_reg MAR_with_mem MDR_with_reg MDR_with_mem IR_with_reg IR_with_mem PSR_with_reg PSR_with_mem Saved_USP_with_reg Saved_USP_with_mem Saved_SSP_with_reg Saved_SSP_with_mem mem_with_reg sim_status_with_reg sim_status_with_mem breakpoints_with_reg breakpoints_with_mem breakpoints_set_with_reg breakpoints_set_with_mem HistoryCount_with_reg HistoryCount_with_mem asm_map_with_reg asm_map_with_mem console_with_reg console_with_mem : lc3_simpl.

Ltac sim_simpl :=
  repeat progress (autorewrite with lc3_simpl in *;
  cbn [gen_reg PC MAR MDR IR PSR Saved_USP Saved_SSP mem sim_status breakpoints
       breakpoints_set HistoryCount asm_map console
       with_PC with_MAR with_MDR with_IR with_PSR with_USP with_SSP
       with_status with_breakpoints with_count with_asm_map with_console] in * ).

(** ** Words stay words *)

Lemma reg_is_word s r : wf s -> is_word (reg s r).
Proof.
  intros Hs. unfold reg. destruct (gen_reg s !! r) eqn:E; simpl.
  - apply (wf_regs s Hs) in E. tauto.
  - unfold is_word, word_modulus. lia.
Qed.

Lemma mem_read_is_word s a : wf s -> is_word (mem_read s a).
Proof.
  intros Hs. unfold mem_read. destruct (mem s !! a) eqn:E; simpl.
  - apply (wf_mem s Hs) in E. tauto.
  - unfold is_word, word_modulus. lia.
Qed.

Lemma regs_wf_insert rs r v : regs_wf rs -> is_reg r -> is_word v -> regs_wf (<[r := v]> rs).
Proof. intros Hrs Hr Hv. by apply map_Forall_insert_2. Qed.

Lemma wf_with_reg s r v : wf s -> is_reg r -> is_word v -> wf (with_reg r v s).
Proof. intros [] Hr Hv. constructor; simpl; auto using regs_wf_insert. Qed.

Lemma wf_with_PC s v : wf s -> is_word v -> wf (with_PC v s).
Proof. intros [] Hv. constructor; simpl; auto. Qed.

Lemma wf_with_MAR s v : wf s -> is_word v -> wf (with_MAR v s).
Proof. intros [] Hv. constructor; simpl; auto. Qed.

Lemma wf_with_MDR s v : wf s -> is_word v -> wf (with_MDR v s).
Proof. intros [] Hv. constructor; simpl; auto. Qed.

Lemma wf_with_IR s v : wf s -> is_word v -> wf (with_IR v s).
Proof. intros [] Hv. constructor; simpl; auto. Qed.

Lemma wf_with_PSR s v : wf s -> is_word v -> wf (with_PSR v s).
Proof. intros [] Hv. constructor; simpl; auto. Qed.

Lemma wf_with_USP s v : wf s -> is_word v -> wf (with_USP v s).
Proof. intros [] Hv. constructor; simpl; auto. Qed.

Lemma wf_with_SSP s v : wf s -> is_word v -> wf (with_SSP v s).
Proof. intros [] Hv. constructor; simpl; auto. Qed.

Lemma wf_with_mem s a v : wf s -> is_word a -> is_word v -> wf (with_mem a v s).
Proof.
  intros [] Ha Hv. constructor; simpl; auto.
  by apply map_Forall_insert_2.
Qed.

Lemma wf_with_status s st : wf s -> wf (with_status st s).
Proof. intros []. constructor; simpl; auto. Qed.

Lemma wf_with_breakpoints s b bs : wf s -> wf (with_breakpoints b bs s).
Proof. intros []. constructor; simpl; auto. Qed.

Lemma wf_with_asm_map s m : wf s -> wf (with_asm_map m s).
Proof. intros []. constructor; simpl; auto. Qed.

Lemma wf_with_console s c : wf s -> wf (with_console c s).
Proof. intros []. constructor; simpl; auto. Qed.

Lemma wf_with_count s n : wf s -> 0 <= n <= INT_MAX -> wf (with_count n s).
Proof. intros [] Hn. constructor; simpl; auto. Qed.

Lemma wf_mem_store s i v s' : wf s -> is_word v -> mem_store i v s = Some s' -> wf s'.
Proof.
  unfold mem_store. intros Hs Hv. destruct (is_wordb i) eqn:E; [|done].
  intros [= <-]. apply wf_with_mem; [done | by apply is_wordb_spec | done].
Qed.

#[export] Hint Resolve reg_is_word mem_read_is_word wf_with_reg wf_with_PC wf_with_MAR
  wf_with_MDR wf_with_IR wf_with_PSR wf_with_USP wf_with_SSP wf_with_mem wf_with_status
  wf_with_breakpoints wf_with_asm_map wf_with_console : lc3.

(** [wf_solve] proves that a chain of field updates keeps [wf]. *)
Ltac wf_solve :=
  repeat match goal with
  | |- wf _ =>
      first [ assumption
            | apply wf_with_reg | apply wf_with_PC | apply wf_with_MAR | apply wf_with_MDR
            | apply wf_with_IR | apply wf_with_PSR | apply wf_with_USP | apply wf_with_SSP
            | apply wf_with_mem | apply wf_with_status | apply wf_with_breakpoints
            | apply wf_with_asm_map | apply wf_with_console ]
  | |- is_word _ =>
      first [ assumption
            | apply wrap16_is_word | apply sign_extend_is_word
            | apply reg_is_word | apply mem_read_is_word
            | apply land_is_word
            | apply wf_PC | apply wf_MAR | apply wf_MDR | apply wf_IR | apply wf_PSR
            | apply wf_USP | apply wf_SSP
            | progress (unfold is_word, word_modulus, KBSR_, KBDR_, DSR_, DDR_ in *; lia) ]
  | |- is_reg _ =>
      first [ assumption | progress (unfold is_reg; lia)
            | apply slice_is_reg; unfold is_word, word_modulus in *; lia ]
  | |- 0 <= ?x => first [ lia | let Hw := fresh "Hw" in enough (is_word x) as Hw by (destruct Hw; lia) ]
  end.

(** ** A sample state for the witnesses

    Registers R0-R7 hold [r], memory holds [m], the PSR is [psr], the
    PC is [pc]; everything else is zero or empty. *)
Definition sample_sim (r : list Z) (pc psr : Z) (m : gmap Z Z) : sim :=
  mk_sim (list_to_map (imap (fun i v => (Z.of_nat i, v)) r)) pc 0 0 0 psr 0 0x1000 m Normal ∅ ∅ 0 ∅ [].

(** ** Deciding [wf] on a concrete state *)

Definition map_wordsb (p : Z -> bool) (m : gmap Z Z) : bool :=
  forallb (fun kv => p kv.1 && is_wordb kv.2) (map_to_list m).

Definition wfb (s : sim) : bool :=
  map_wordsb (fun r => (0 <=? r) && (r <? 8)) (gen_reg s) &&
  is_wordb (PC s) && is_wordb (MAR s) && is_wordb (MDR s) && is_wordb (IR s) &&
  is_wordb (PSR s) && is_wordb (Saved_USP s) && is_wordb (Saved_SSP s) &&
  map_wordsb is_wordb (mem s) && (0 <=? HistoryCount s) && (HistoryCount s <=? INT_MAX).

Lemma map_wordsb_spec (p : Z -> bool) (P : Z -> Prop) m :
  (forall k, p k = true -> P k) -> map_wordsb p m = true ->
  map_Forall (fun k v => P k /\ is_word v) m.
Proof.
  intros Hp Hb k v Hkv. unfold map_wordsb in Hb. rewrite forallb_forall in Hb.
  apply elem_of_map_to_list, list_elem_of_In, Hb in Hkv. simpl in Hkv.
  apply andb_true_iff in Hkv as [H1 H2]. split; [auto | by apply is_wordb_spec].
Qed.

Lemma wfb_spec s : wfb s = true -> wf s.
Proof.
  unfold wfb. intros H. repeat (apply andb_true_iff in H as [H ?]).
  constructor; try (by apply is_wordb_spec); try lia.
  - eapply map_wordsb_spec; [|done]. intros k Hk. unfold is_reg.
    apply andb_true_iff in Hk as [? ?]. lia.
  - eapply map_wordsb_spec; [|done]. intros k Hk. by apply is_wordb_spec.
Qed.

(** [mem_simpl] pushes [mem_read] through every update, leaving a
    [decide] for each memory write on the way. *)
Ltac mem_simpl := repeat (sim_simpl; rewrite ?mem_read_with_mem).

(** [decide_addr] splits on the address comparisons [mem_simpl] leaves
    and closes the impossible cases by arithmetic modulo [2^16]. *)
Ltac decide_addr :=
  repeat match goal with
  | |- context [decide ?P] => destruct (decide P); try (exfalso; zlia)
  end.
