(* ===== verification/Instr.v ===== *)
(** * Instruction semantics ([src/lc3_simulator/sim.h] lines 82-212,
    [src/lc3_simulator/sim.cpp] lines 65-127)

    [setcc], one definition per instruction member of [Simulator]
    ([ADD] ... [TRAP]) and [process_instr], the [switch] on the top four
    bits of the instruction word.  Each member is a state transformer;
    [LDI], [STI] and [STR] return an [option]: they index [mem] with an
    [int] sum that is not truncated to a word, and an index past
    [0xFFFF] is an out-of-bounds access ([None]).

    The theorems: [setcc] leaves exactly one condition code set, the
    one the signed value of the result calls for; [process_instr]
    preserves [wf]; the privilege rule of [RTI]; the device side effects
    of loads and stores; and what the code does where it departs from
    the LC-3 instruction set (opcode [1100] always returns through R7,
    [JSRR R7] jumps to the return address, [LDI]/[STI]/[STR] index
    outside the memory array). *)

From S2P Require Import Prelude Bits Machine.

Open Scope Z_scope.
Open Scope lc3_scope.

(** ** Condition codes *)

(** [void setcc(word x)]: [PSR = PSR&0xfff8], then add 4 (n), 2 (z) or
    1 (p). *)
Definition setcc_psr (psr x : Z) : Z :=
  let p := Z.land psr 0xfff8 in
  wrap16 (if bit x 15 then p + 4 else if x =? 0 then p + 2 else p + 1).

Definition setcc (x : Z) (s : sim) : sim := with_PSR (setcc_psr (PSR s) x) s.

(** [setcc(gen_reg[DR] = v)] *)
Definition set_dr (dr v : Z) (s : sim) : sim := setcc v (with_reg dr v s).

(** ** The instruction members *)

Definition ADD (dr sr1 sr2 : Z) (s : sim) : sim := set_dr dr (reg s sr1 +w reg s sr2) s.

Definition ADDimm (dr sr1 imm5 : Z) (s : sim) : sim :=
  set_dr dr (reg s sr1 +w sign_extend imm5 5) s.

Definition AND (dr sr1 sr2 : Z) (s : sim) : sim := set_dr dr (Z.land (reg s sr1) (reg s sr2)) s.

Definition ANDimm (dr sr1 imm5 : Z) (s : sim) : sim :=
  set_dr dr (Z.land (reg s sr1) (sign_extend imm5 5)) s.

(** [~(gen_reg[SR])] is an [int] complement, truncated on assignment. *)
Definition NOT (dr sr : Z) (s : sim) : sim := set_dr dr (wrap16 (Z.lnot (reg s sr))) s.

Definition BR (nzp PCoffset9 : Z) (s : sim) : sim :=
  if negb (Z.land nzp (PSR s) =? 0) then with_PC (PC s +w sign_extend PCoffset9 9) s else s.

(** [JMP] is declared in [sim.h] but [process_instr] never calls it. *)
Definition JMP (BaseR : Z) (s : sim) : sim := with_PC (reg s BaseR) s.

Definition JSR (PCoffset11 : Z) (s : sim) : sim :=
  let s1 := with_reg 7 (PC s) s in
  with_PC (PC s1 +w sign_extend PCoffset11 11) s1.

(** [gen_reg[7] = PC; PC = gen_reg[BaseR];]: the base register is read
    after R7 has been written. *)
Definition JSRR (BaseR : Z) (s : sim) : sim :=
  let s1 := with_reg 7 (PC s) s in
  with_PC (reg s1 BaseR) s1.

(** Reading [KBDR] clears the ready bit of [KBSR] first. *)
Definition kbd_read_hook (tar : Z) (s : sim) : sim :=
  if tar =? KBDR_ then with_mem KBSR_ (Z.land (mem_read s KBSR_) 0x7fff) s else s.

(** Writing [DDR] clears the ready bit of [DSR] first. *)
Definition dsp_write_hook (tar : Z) (s : sim) : sim :=
  if tar =? DDR_ then with_mem DSR_ (Z.land (mem_read s DSR_) 0x7fff) s else s.

Definition LD (dr PCoffset9 : Z) (s : sim) : sim :=
  let tar := PC s +w sign_extend PCoffset9 9 in
  let s1 := kbd_read_hook tar s in
  set_dr dr (mem_read s1 tar) s1.

(** [word tar = mem[PC + sign_extend(PCoffset9, 9)];]: the index is an
    [int]. *)
Definition LDI (dr PCoffset9 : Z) (s : sim) : option sim :=
  tar ← mem_index s (PC s + sign_extend PCoffset9 9);
  let s1 := kbd_read_hook tar s in
  Some (set_dr dr (mem_read s1 tar) s1).

Definition LDR (dr BaseR offset6 : Z) (s : sim) : sim :=
  let tar := reg s BaseR +w sign_extend offset6 6 in
  let s1 := kbd_read_hook tar s in
  set_dr dr (mem_read s1 tar) s1.

Definition LEA (dr PCoffset9 : Z) (s : sim) : sim :=
  set_dr dr (PC s +w sign_extend PCoffset9 9) s.

Definition RET (s : sim) : sim := with_PC (reg s 7) s.

(** [RTI]: in supervisor mode pop PC, then PSR, and bank R6 when the
    restored PSR is a user-mode one; in user mode only set the status. *)
Definition RTI (s : sim) : sim :=
  if negb (bit (PSR s) 15) then
    let s1 := with_PC (mem_read s (reg s 6)) s in
    let s2 := with_reg 6 (reg s1 6 +w 1) s1 in
    let s3 := with_PSR (mem_read s2 (reg s2 6)) s2 in
    let s4 := with_reg 6 (reg s3 6 +w 1) s3 in
    if bit (PSR s4) 15 then
      let s5 := with_SSP (reg s4 6) s4 in
      with_reg 6 (Saved_USP s5) s5
    else s4
  else with_status Priviledge_Exception s.

Definition ST (sr PCoffset9 : Z) (s : sim) : sim :=
  let tar := PC s +w sign_extend PCoffset9 9 in
  let s1 := dsp_write_hook tar s in
  with_mem tar (reg s1 sr) s1.

Definition STI (sr PCoffset9 : Z) (s : sim) : option sim :=
  tar ← mem_index s (PC s + sign_extend PCoffset9 9);
  let s1 := dsp_write_hook tar s in
  Some (with_mem tar (reg s1 sr) s1).

(** [STR]: the device check uses the truncated [word tar], the store
    indexes [mem] with the [int] sum. *)
Definition STR (sr BaseR offset6 : Z) (s : sim) : option sim :=
  let tar := reg s BaseR +w sign_extend offset6 6 in
  let s1 := dsp_write_hook tar s in
  mem_store (reg s1 BaseR + sign_extend offset6 6) (reg s1 sr) s1.

Definition TRAP (trapvect8 : Z) (s : sim) : sim :=
  let s1 := with_reg 7 (PC s) s in
  with_PC (mem_read s1 trapvect8) s1.

(** ** [process_instr] *)

Definition process_instr (instr : Z) (s : sim) : option sim :=
  match Z.shiftr instr 12 with
  | 0 => Some (BR (slice instr 9 12) (slice instr 0 9) s)
  | 1 => Some (if negb (Z.land 32 instr =? 0)
               then ADDimm (slice instr 9 12) (slice instr 6 9) (slice instr 0 5) s
               else ADD (slice instr 9 12) (slice instr 6 9) (slice instr 0 3) s)
  | 2 => Some (LD (slice instr 9 12) (slice instr 0 9) s)
  | 3 => Some (ST (slice instr 9 12) (slice instr 0 9) s)
  | 4 => Some (if bit instr 11 then JSR (slice instr 0 11) s else JSRR (slice instr 6 9) s)
  | 5 => Some (if bit instr 5
               then ANDimm (slice instr 9 12) (slice instr 6 9) (slice instr 0 5) s
               else AND (slice instr 9 12) (slice instr 6 9) (slice instr 0 3) s)
  | 6 => Some (LDR (slice instr 9 12) (slice instr 6 9) (slice instr 0 6) s)
  | 7 => STR (slice instr 9 12) (slice instr 6 9) (slice instr 0 6) s
  | 8 => Some (RTI s)
  | 9 => Some (NOT (slice instr 9 12) (slice instr 6 9) s)
  | 10 => LDI (slice instr 9 12) (slice instr 0 9) s
  | 11 => STI (slice instr 9 12) (slice instr 0 9) s
  | 12 => Some (RET s)
  | 13 => Some s
  | 14 => Some (LEA (slice instr 9 12) (slice instr 0 9) s)
  | 15 => Some (TRAP (slice instr 0 8) s)
  | _ => Some s
  end.

(** ** Lemmas *)

(** Clearing the three condition bits of a word leaves its multiple of 8;
    checked on every word. *)
Lemma land_fff8_all : forall_word (fun w => Z.land w 0xfff8 =? 8 * (w / 8)) = true.
Proof. vm_compute. reflexivity. Qed.

Lemma land_fff8 w : is_word w -> Z.land w 0xfff8 = 8 * (w / 8).
Proof. intros Hw. apply Z.eqb_eq. exact (forall_word_spec _ land_fff8_all w Hw). Qed.

Lemma setcc_psr_eq psr x :
  is_word psr -> is_word x ->
  setcc_psr psr x = 8 * (psr / 8) + (if bit x 15 then 4 else if x =? 0 then 2 else 1).
Proof.
  intros Hp Hx. unfold setcc_psr. rewrite land_fff8 by done.
  destruct (bit x 15), (x =? 0); apply wrap16_id; zlia.
Qed.

Lemma setcc_psr_is_word psr x : is_word (setcc_psr psr x).
Proof. apply wrap16_is_word. Qed.

Lemma wf_setcc s x : wf s -> wf (setcc x s).
Proof. intros. unfold setcc. apply wf_with_PSR; [done | apply setcc_psr_is_word]. Qed.

Lemma wf_set_dr s dr v : wf s -> is_reg dr -> is_word v -> wf (set_dr dr v s).
Proof. intros. unfold set_dr. apply wf_setcc. wf_solve. Qed.

Lemma wf_kbd_read_hook s tar : wf s -> wf (kbd_read_hook tar s).
Proof. intros. unfold kbd_read_hook. case_match; wf_solve. Qed.

Lemma wf_dsp_write_hook s tar : wf s -> wf (dsp_write_hook tar s).
Proof. intros. unfold dsp_write_hook. case_match; wf_solve. Qed.

#[export] Hint Resolve wf_setcc wf_set_dr wf_kbd_read_hook wf_dsp_write_hook : lc3.

(** [instr_wf] proves [wf] after one instruction member. *)
Ltac instr_wf :=
  repeat first
    [ apply wf_set_dr | apply wf_setcc | apply wf_kbd_read_hook | apply wf_dsp_write_hook
    | progress wf_solve ].

Lemma wf_BR s nzp off : wf s -> wf (BR nzp off s).
Proof. intros. unfold BR. case_match; wf_solve. Qed.

Lemma wf_RTI s : wf s -> wf (RTI s).
Proof. intros. unfold RTI. cbn zeta. repeat case_match; wf_solve. Qed.

Lemma wf_LDI s dr off s' : wf s -> is_reg dr -> LDI dr off s = Some s' -> wf s'.
Proof.
  unfold LDI, mem_index. intros Hs Hdr. case_match; [|done]. simpl.
  intros [= <-]. instr_wf.
Qed.

Lemma wf_STI s sr off s' : wf s -> STI sr off s = Some s' -> wf s'.
Proof.
  unfold STI, mem_index. intros Hs. case_match; [|done]. simpl.
  intros [= <-]. instr_wf.
Qed.

Lemma wf_STR s sr base off s' : wf s -> STR sr base off s = Some s' -> wf s'.
Proof.
  unfold STR. intros Hs. apply wf_mem_store; [instr_wf | apply reg_is_word; instr_wf].
Qed.

(** ** Properties *)

(** C1: after [setcc x] on a word [x], the three condition bits of
    PSR hold exactly one flag: 4 (n) when the signed value of [x] is
    negative, 2 (z) when it is zero, 1 (p) otherwise; the bits above
    them are those of the old PSR. *)
Theorem setcc_condition_codes psr x :
  is_word psr -> is_word x ->
  Z.land (setcc_psr psr x) 7 = (if to_signed16 x <? 0 then 4 else if x =? 0 then 2 else 1) /\
  Z.shiftr (setcc_psr psr x) 3 = Z.shiftr psr 3.
Proof.
  intros Hp Hx. rewrite setcc_psr_eq by done.
  change 7 with (Z.ones 3). rewrite Z.land_ones, !Z.shiftr_div_pow2 by lia.
  change (2 ^ 3) with 8.
  rewrite bit15_word by done. unfold to_signed16. unfold is_word, word_modulus in *.
  assert (forall c, 0 <= c < 8 -> (8 * (psr / 8) + c) mod 8 = c /\ (8 * (psr / 8) + c) / 8 = psr / 8)
    as Hc by (intros; split; Z.div_mod_to_equations; lia).
  destruct (Z.leb_spec 32768 x), (Z.ltb_spec x 32768); try lia;
    destruct (Z.eqb_spec x 0); subst; simpl; try lia;
    first [ rewrite (proj2 (Z.ltb_lt _ _)) by lia | rewrite (proj2 (Z.ltb_ge _ _)) by lia
          | idtac ];
    apply Hc; lia.
Qed.

Lemma setcc_condition_codes_witness :
  Z.land (setcc_psr 0x8002 0x8000) 7 = (if to_signed16 0x8000 <? 0 then 4 else if 0x8000 =? 0 then 2 else 1) /\
  Z.shiftr (setcc_psr 0x8002 0x8000) 3 = Z.shiftr 0x8002 3.
Proof. apply setcc_condition_codes; unfold is_word, word_modulus; lia. Defined.


Lemma wf_process_instr instr s s' :
  wf s -> is_word instr -> process_instr instr s = Some s' -> wf s'.
Proof.
  intros Hs Hi. unfold process_instr.
  repeat case_match; intros Hexec; simplify_eq;
    match goal with
    | H : LDI _ _ _ = Some _ |- _ => eapply wf_LDI; [| | exact H]; wf_solve
    | H : STI _ _ _ = Some _ |- _ => eapply wf_STI; [| exact H]; done
    | H : STR _ _ _ _ = Some _ |- _ => eapply wf_STR; [| exact H]; done
    | |- wf (BR _ _ _) => apply wf_BR; done
    | |- wf (RTI _) => apply wf_RTI; done
    | _ => unfold ADD, ADDimm, AND, ANDimm, NOT, LD, LDR, LEA, ST, JSR, JSRR, RET, TRAP;
           cbn zeta; instr_wf
    end.
Qed.

(** C2: one instruction keeps every register and memory cell a
    16-bit word (when it does not index memory out of bounds). *)
Theorem process_instr_wf instr s s' :
  wf s -> is_word instr -> process_instr instr s = Some s' -> wf s'.
Proof. apply wf_process_instr. Qed.

Lemma process_instr_wf_witness :
  let s := sample_sim [0; 0; 0; 0; 0; 0; 0; 0] 0x3000 0x8002 ∅ in
  exists s', process_instr 0x1021 s = Some s' /\ wf s'.
Proof.
  intros s. eexists; split; [reflexivity|].
  apply (process_instr_wf 0x1021 s); [apply wfb_spec; vm_compute; reflexivity | | reflexivity].
  unfold is_word, word_modulus; lia.
Defined.


(** The [switch] of [process_instr] on an instruction built from its
    opcode and its low twelve bits. *)
Lemma opcode_eq x op : 4096 * op <= x < 4096 * op + 4096 -> Z.shiftr x 12 = op.
Proof.
  intros. rewrite Z.shiftr_div_pow2 by lia. change (2 ^ 12) with 4096.
  symmetry. apply Z.div_unique with (x - 4096 * op); lia.
Qed.

(** A field of an instruction built as [4096*op + 2^b*hi + 2^a*f + lo]. *)
Lemma slice_field x a b f :
  0 <= a <= b -> b <= 12 -> 0 <= f < 2 ^ (b - a) -> 0 <= x ->
  (x mod 2 ^ b) / 2 ^ a = f -> slice x a b = f.
Proof. intros. rewrite slice_eq by lia. done. Qed.

Lemma reg_kbd_read_hook s t r : reg (kbd_read_hook t s) r = reg s r.
Proof. unfold kbd_read_hook. by case_match. Qed.

Lemma reg_dsp_write_hook s t r : reg (dsp_write_hook t s) r = reg s r.
Proof. unfold dsp_write_hook. by case_match. Qed.

Lemma PC_kbd_read_hook s t : PC (kbd_read_hook t s) = PC s.
Proof. unfold kbd_read_hook. by case_match. Qed.

Lemma PC_dsp_write_hook s t : PC (dsp_write_hook t s) = PC s.
Proof. unfold dsp_write_hook. by case_match. Qed.


(** The sign extension of a negative [n]-bit field [f] is the word
    [65536 - 2^n + f]. *)
Lemma sign_extend_negative f n :
  1 <= n <= 16 -> 2 ^ (n - 1) <= f < 2 ^ n -> sign_extend f n = 65536 - 2 ^ n + f.
Proof.
  intros Hn Hf. assert (2 ^ n <= 2 ^ 16) by (apply Z.pow_le_mono_r; lia).
  assert (0 < 2 ^ (n - 1)) by (apply Z.pow_pos_nonneg; lia).
  rewrite sign_extend_spec by lia. unfold sext_field.
  destruct (Z.ltb_spec f (2 ^ (n - 1))); [lia|]. simpl in *. zlia.
Qed.

(** C5: RTI in user mode (PSR bit 15 set) only sets the status to
    [Priviledge_Exception]; registers, PC, PSR and memory are left as
    they are. *)
Theorem rti_user_mode_exception instr s :
  Z.shiftr instr 12 = 8 -> is_word (PSR s) -> 32768 <= PSR s ->
  process_instr instr s = Some (with_status Priviledge_Exception s).
Proof.
  intros Hop Hpsr Hu. unfold process_instr. rewrite Hop. unfold RTI.
  rewrite bit15_word by done. by rewrite (proj2 (Z.leb_le _ _) Hu).
Qed.

Lemma rti_user_mode_exception_witness :
  let s := sample_sim [0; 0; 0; 0; 0; 0; 0; 0] 0x3000 0x8002 ∅ in
  process_instr 0x8000 s = Some (with_status Priviledge_Exception s).
Proof.
  intros s. apply rti_user_mode_exception; [reflexivity | simpl; unfold is_word, word_modulus; lia | simpl; lia].
Defined.


Lemma RTI_supervisor_spec s :
  wf s -> PSR s < 32768 ->
  let sp := reg s 6 in
  let psr' := mem_read s (sp +w 1) in
  let s' := RTI s in
  PC s' = mem_read s sp /\ PSR s' = psr' /\
  reg s' 6 = (if 32768 <=? psr' then Saved_USP s else sp +w 2) /\
  Saved_SSP s' = (if 32768 <=? psr' then sp +w 2 else Saved_SSP s) /\
  Saved_USP s' = Saved_USP s /\ mem s' = mem s /\
  (forall r, is_reg r -> r <> 6 -> reg s' r = reg s r).
Proof.
  intros Hs Hpsr sp psr' s'. subst s'. unfold RTI.
  assert (Hp := wf_PSR s Hs).
  rewrite bit15_word, (proj2 (Z.leb_gt _ _) Hpsr) by done. cbn zeta.
  sim_simpl. cbn [negb]. rewrite bit15_word by (apply mem_read_is_word; done).
  fold sp. fold psr'. replace (sp + 1 + 1) with (sp + 2) by lia.
  destruct (32768 <=? psr'); sim_simpl; repeat split; try done;
    intros r Hr Hne; sim_simpl; done.
Qed.

(** C4: RTI in supervisor mode pops the PC from [R6], then the
    PSR from [R6+1]; R6 ends two words higher, unless the popped PSR is a
    user-mode one, in which case that value is saved as the supervisor
    stack pointer and R6 takes the saved user stack pointer.  The other
    registers and memory are unchanged. *)
Theorem rti_supervisor_pops s :
  wf s -> PSR s < 32768 ->
  let sp := reg s 6 in
  let psr' := mem_read s (sp +w 1) in
  let s' := RTI s in
  PC s' = mem_read s sp /\ PSR s' = psr' /\
  reg s' 6 = (if 32768 <=? psr' then Saved_USP s else sp +w 2) /\
  Saved_SSP s' = (if 32768 <=? psr' then sp +w 2 else Saved_SSP s) /\
  Saved_USP s' = Saved_USP s /\ mem s' = mem s /\
  (forall r, is_reg r -> r <> 6 -> reg s' r = reg s r).
Proof. apply RTI_supervisor_spec. Qed.

Lemma rti_supervisor_pops_witness :
  let s := sample_sim [0; 0; 0; 0; 0; 0; 0x2ffe; 0] 0x0400 0x0001
             (<[0x2ffe := 0x3005]> (<[0x2fff := 0x8002]> ∅)) in
  let sp := reg s 6 in
  let psr' := mem_read s (sp +w 1) in
  let s' := RTI s in
  PC s' = mem_read s sp /\ PSR s' = psr' /\
  reg s' 6 = (if 32768 <=? psr' then Saved_USP s else sp +w 2) /\
  Saved_SSP s' = (if 32768 <=? psr' then sp +w 2 else Saved_SSP s) /\
  Saved_USP s' = Saved_USP s /\ mem s' = mem s /\
  (forall r, is_reg r -> r <> 6 -> reg s' r = reg s r).
Proof. intros s. apply rti_supervisor_pops; [apply wfb_spec; vm_compute; reflexivity | simpl; lia]. Defined.


(** C33: opcode [1100] is executed as [RET] whatever its base register
    field: [JMP R<b>] sets the PC to R7, and differs from the [JMP]
    member (declared in [sim.h], never called) whenever [R<b>] and R7
    differ. *)
Theorem jmp_returns_through_r7 s b :
  is_reg b ->
  process_instr (4096 * 12 + 64 * b) s = Some (with_PC (reg s 7) s) /\
  (reg s b <> reg s 7 -> process_instr (4096 * 12 + 64 * b) s <> Some (JMP b s)).
Proof.
  intros Hb. unfold is_reg in Hb.
  unfold process_instr. rewrite (opcode_eq _ 12) by lia. split; [done|].
  intros Hne [= Heq]. congruence.
Qed.

Lemma jmp_returns_through_r7_witness :
  let s := sample_sim [0; 0; 0x4000; 0; 0; 0; 0; 0x3001] 0x3000 0x8002 ∅ in
  process_instr (4096 * 12 + 64 * 2) s = Some (with_PC (reg s 7) s) /\
  (reg s 2 <> reg s 7 -> process_instr (4096 * 12 + 64 * 2) s <> Some (JMP 2 s)).
Proof. intros s. apply jmp_returns_through_r7. unfold is_reg. lia. Defined.

(** C34: [JSRR R7] writes the return address into R7 before reading
    its base register, so it jumps to the return address: the PC is left
    at the next instruction and the old R7 is lost. *)
Theorem jsrr_r7_jumps_to_return_address s :
  exists s', process_instr (4096 * 4 + 64 * 7) s = Some s' /\
    PC s' = PC s /\ reg s' 7 = PC s.
Proof.
  unfold process_instr. rewrite (opcode_eq _ 4) by lia.
  rewrite bit_testbit by lia. simpl. unfold JSRR.
  replace (slice (4096 * 4 + 64 * 7) 6 9) with 7 by reflexivity.
  eexists; split; [reflexivity|]. sim_simpl. done.
Qed.

(** C32: [LDI] indexes [mem] with the [int] sum of the PC and the
    sign-extended offset: a negative offset [f - 512] reaches past the
    array as soon as the PC is at least its magnitude ([None]: undefined
    behaviour). *)
Theorem ldi_negative_offset_out_of_bounds s dr f :
  is_reg dr -> 256 <= f < 512 -> is_word (PC s) -> 512 - f <= PC s ->
  process_instr (4096 * 10 + 512 * dr + f) s = None.
Proof.
  intros Hdr Hf Hpc Hge. unfold is_reg, is_word, word_modulus in *.
  unfold process_instr. rewrite (opcode_eq _ 10) by lia. unfold LDI.
  rewrite (slice_field _ 0 9 f) by (simpl; zlia).
  rewrite sign_extend_negative by (simpl; lia).
  rewrite mem_index_out by (unfold is_word, word_modulus; simpl; lia). done.
Qed.

Lemma ldi_negative_offset_out_of_bounds_witness :
  let s := sample_sim [0; 0; 0; 0; 0; 0; 0; 0] 0x3001 0x8002 ∅ in
  process_instr (4096 * 10 + 512 * 0 + 511) s = None.
Proof.
  intros s. apply ldi_negative_offset_out_of_bounds;
    unfold is_reg, is_word, word_modulus; simpl; lia.
Defined.

(** [STR] checks the display register with the truncated
    address but stores through the [int] sum of the base register and
    the sign-extended offset: a negative offset [f - 64] is out of the
    array's bounds whenever the base register holds at least its
    magnitude. *)
Theorem str_negative_offset_out_of_bounds s sr base f :
  is_reg sr -> is_reg base -> 32 <= f < 64 -> 64 - f <= reg s base ->
  process_instr (4096 * 7 + 512 * sr + 64 * base + f) s = None.
Proof.
  intros Hsr Hb Hf Hge. unfold is_reg in *.
  unfold process_instr. rewrite (opcode_eq _ 7) by lia. unfold STR.
  rewrite (slice_field _ 0 6 f) by (simpl; zlia).
  rewrite (slice_field _ 6 9 base) by (simpl; zlia).
  rewrite !reg_dsp_write_hook. rewrite sign_extend_negative by (simpl; lia).
  apply mem_store_out. unfold is_word, word_modulus. simpl. lia.
Qed.

Lemma str_negative_offset_out_of_bounds_witness :
  let s := sample_sim [0; 0; 0; 0; 0; 0; 0x4000; 0] 0x3001 0x8002 ∅ in
  process_instr (4096 * 7 + 512 * 0 + 64 * 6 + 63) s = None.
Proof.
  intros s. apply str_negative_offset_out_of_bounds; unfold is_reg; try lia.
  vm_compute. congruence.
Defined.
