(* ===== verification/Interrupt.v ===== *)
(** * Interrupts ([src/lc3_simulator/sim.cpp] lines 182-226)

    [check_interrupt] looks at the keyboard status register and the
    priority field of PSR; [process_interrupt] switches to supervisor
    mode, banks the stack pointer, pushes PSR and then [PC - 1] on the
    supervisor stack and jumps through the interrupt vector table at
    [0x0100 + INTV].

    The theorems: the exact dispatch condition; the frame the dispatch
    pushes (PSR above the return PC) and the new PSR (supervisor mode,
    priority 1, same condition codes); and the round trip: an [RTI]
    right after the dispatch restores the PC of the interrupted
    instruction, the PSR and R6. *)

From S2P Require Import Prelude Bits Machine Instr.

Open Scope Z_scope.
Open Scope lc3_scope.

(** [void process_interrupt(word INTV, word Priority)], in the blocks
    of its body.  Lines 203-211: save PSR in MDR, set the priority
    field, and on leaving user mode clear the user bit, bank R6 into
    [Saved_USP] and load the supervisor stack pointer. *)
Definition interrupt_enter (Priority : Z) (s : sim) : sim :=
  let s1 := with_MDR (PSR s) s in
  let s2 := with_PSR (wrap16 (Z.land (PSR s1) 63743 + Z.shiftl Priority 8)) s1 in
  if bit (PSR s2) 15 then
    let t1 := with_PSR (Z.land (PSR s2) 0x0fff) s2 in
    let t2 := with_USP (reg t1 6) t1 in
    with_reg 6 (Saved_SSP t2) t2
  else s2.

(** Lines 212-214: push MDR (the old PSR) on the stack. *)
Definition push_MDR (s : sim) : sim :=
  let s1 := with_reg 6 (reg s 6 -w 1) s in
  let s2 := with_MAR (reg s1 6) s1 in
  with_mem (MAR s2) (MDR s2) s2.

(** Lines 216-219: push [PC - 1], the address of the pre-empted
    instruction, in the order the code does it. *)
Definition push_PC (s : sim) : sim :=
  let s1 := with_reg 6 (reg s 6 -w 1) s in
  let s2 := with_MDR (PC s1 -w 1) s1 in
  let s3 := with_MAR (reg s2 6) s2 in
  with_mem (MAR s3) (MDR s3) s3.

(** Lines 221-223: jump through the interrupt vector table. *)
Definition interrupt_vector (INTV : Z) (s : sim) : sim :=
  let s1 := with_MAR (wrap16 (0x0100 + INTV)) s in
  let s2 := with_MDR (mem_read s1 (MAR s1)) s1 in
  with_PC (MDR s2) s2.

Definition process_interrupt (INTV Priority : Z) (s : sim) : sim :=
  interrupt_vector INTV (push_PC (push_MDR (interrupt_enter Priority s))).

(** [bool check_interrupt()]: the keyboard (vector 1, priority 1)
    interrupts when its ready and interrupt-enable bits are set and the
    current priority is below 1.  The boolean is the C++ return value. *)
Definition check_interrupt (s : sim) : bool * sim :=
  if bit (mem_read s KBSR_) 14 && bit (mem_read s KBSR_) 15 then
    if 1 <=? slice (PSR s) 8 11 then (false, s) else (true, process_interrupt 1 1 s)
  else (false, s).

(** ** Lemmas *)

Lemma wf_interrupt_enter s p : wf s -> wf (interrupt_enter p s).
Proof. intros. unfold interrupt_enter. cbn zeta. case_match; wf_solve. Qed.

Lemma wf_push_MDR s : wf s -> wf (push_MDR s).
Proof. intros. unfold push_MDR. cbn zeta. wf_solve. Qed.

Lemma wf_push_PC s : wf s -> wf (push_PC s).
Proof. intros. unfold push_PC. cbn zeta. wf_solve. Qed.

Lemma wf_interrupt_vector s v : wf s -> wf (interrupt_vector v s).
Proof. intros. unfold interrupt_vector. cbn zeta. wf_solve. Qed.

#[export] Hint Resolve wf_interrupt_enter wf_push_MDR wf_push_PC wf_interrupt_vector : lc3.

Lemma wf_process_interrupt s v p : wf s -> wf (process_interrupt v p s).
Proof. intros. unfold process_interrupt. auto with lc3. Qed.

Lemma wf_check_interrupt s : wf s -> wf (check_interrupt s).2.
Proof. intros. unfold check_interrupt. repeat case_match; simpl; auto using wf_process_interrupt. Qed.

#[export] Hint Resolve wf_process_interrupt wf_check_interrupt : lc3.

(** The PSR that [process_interrupt INTV 1] leaves: priority field set
    to 1, then bits 12-15 cleared when the old PSR was a user-mode one. *)
Definition interrupt_psr (psr : Z) : Z :=
  let p := wrap16 (Z.land psr 63743 + Z.shiftl 1 8) in
  if bit p 15 then Z.land p 0x0fff else p.

(** Checked on every word: the new PSR is a supervisor-mode PSR with
    priority 1 and the old condition codes, and its user bit before the
    masking is the old one. *)
Lemma interrupt_psr_all :
  forall_word (fun psr =>
    (slice (interrupt_psr psr) 8 11 =? 1) && negb (bit (interrupt_psr psr) 15) &&
    (Z.land (interrupt_psr psr) 7 =? Z.land psr 7) &&
    Bool.eqb (bit (wrap16 (Z.land psr 63743 + Z.shiftl 1 8)) 15) (bit psr 15) &&
    is_wordb (interrupt_psr psr)) = true.
Proof. vm_compute. reflexivity. Qed.

Lemma interrupt_psr_spec psr :
  is_word psr ->
  slice (interrupt_psr psr) 8 11 = 1 /\ bit (interrupt_psr psr) 15 = false /\
  Z.land (interrupt_psr psr) 7 = Z.land psr 7 /\
  bit (wrap16 (Z.land psr 63743 + Z.shiftl 1 8)) 15 = bit psr 15 /\
  is_word (interrupt_psr psr).
Proof.
  intros Hp. pose proof (forall_word_spec _ interrupt_psr_all psr Hp) as H.
  repeat (apply andb_true_iff in H as [H ?]).
  apply Z.eqb_eq in H. rewrite negb_true_iff in *.
  repeat split; try done; try (by apply Z.eqb_eq); try (by apply Bool.eqb_prop);
    by apply is_wordb_spec.
Qed.

(** Closed forms of the blocks of [process_interrupt]. *)
Lemma interrupt_enter_eq s :
  is_word (PSR s) ->
  interrupt_enter 1 s =
  if bit (PSR s) 15
  then with_reg 6 (Saved_SSP s) (with_USP (reg s 6) (with_PSR (interrupt_psr (PSR s)) (with_MDR (PSR s) s)))
  else with_PSR (interrupt_psr (PSR s)) (with_MDR (PSR s) s).
Proof.
  intros Hp. destruct (interrupt_psr_spec _ Hp) as (_ & _ & _ & Hb & _).
  unfold interrupt_enter, interrupt_psr. cbn -[wrap16 bit Z.land Z.shiftl].
  rewrite Hb. by destruct (bit (PSR s) 15).
Qed.

Lemma push_MDR_eq s :
  push_MDR s = with_mem (reg s 6 -w 1) (MDR s) (with_MAR (reg s 6 -w 1) (with_reg 6 (reg s 6 -w 1) s)).
Proof. unfold push_MDR. cbn zeta. by sim_simpl. Qed.

Lemma push_PC_eq s :
  push_PC s = with_mem (reg s 6 -w 1) (PC s -w 1)
    (with_MAR (reg s 6 -w 1) (with_MDR (PC s -w 1) (with_reg 6 (reg s 6 -w 1) s))).
Proof. unfold push_PC. cbn zeta. by sim_simpl. Qed.

Lemma interrupt_vector_eq v s :
  interrupt_vector v s =
  with_PC (mem_read s (wrap16 (0x0100 + v)))
    (with_MDR (mem_read s (wrap16 (0x0100 + v))) (with_MAR (wrap16 (0x0100 + v)) s)).
Proof. unfold interrupt_vector. cbn zeta. by sim_simpl. Qed.

(** What each block does to the fields the theorems look at. *)
Section Blocks.
Variable s : sim.

Lemma reg_push_MDR_6 : reg (push_MDR s) 6 = reg s 6 -w 1.
Proof. rewrite push_MDR_eq. by sim_simpl. Qed.

Lemma reg_push_MDR_ne r : 6 <> r -> reg (push_MDR s) r = reg s r.
Proof. intros. rewrite push_MDR_eq. by sim_simpl. Qed.

Lemma mem_read_push_MDR a :
  mem_read (push_MDR s) a = if decide (reg s 6 -w 1 = a) then MDR s else mem_read s a.
Proof. rewrite push_MDR_eq, mem_read_with_mem. by sim_simpl. Qed.

Lemma reg_push_PC_6 : reg (push_PC s) 6 = reg s 6 -w 1.
Proof. rewrite push_PC_eq. by sim_simpl. Qed.

Lemma reg_push_PC_ne r : 6 <> r -> reg (push_PC s) r = reg s r.
Proof. intros. rewrite push_PC_eq. by sim_simpl. Qed.

Lemma mem_read_push_PC a :
  mem_read (push_PC s) a = if decide (reg s 6 -w 1 = a) then PC s -w 1 else mem_read s a.
Proof. rewrite push_PC_eq. rewrite mem_read_with_mem. by sim_simpl. Qed.

Lemma PC_interrupt_vector v : PC (interrupt_vector v s) = mem_read s (wrap16 (0x0100 + v)).
Proof. by rewrite interrupt_vector_eq. Qed.

Lemma PC_push_MDR : PC (push_MDR s) = PC s.
Proof. rewrite push_MDR_eq. by sim_simpl. Qed.
Lemma MDR_push_MDR : MDR (push_MDR s) = MDR s.
Proof. rewrite push_MDR_eq. by sim_simpl. Qed.
Lemma PSR_push_MDR : PSR (push_MDR s) = PSR s.
Proof. rewrite push_MDR_eq. by sim_simpl. Qed.
Lemma Saved_USP_push_MDR : Saved_USP (push_MDR s) = Saved_USP s.
Proof. rewrite push_MDR_eq. by sim_simpl. Qed.
Lemma Saved_SSP_push_MDR : Saved_SSP (push_MDR s) = Saved_SSP s.
Proof. rewrite push_MDR_eq. by sim_simpl. Qed.
Lemma PC_push_PC : PC (push_PC s) = PC s.
Proof. rewrite push_PC_eq. by sim_simpl. Qed.
Lemma PSR_push_PC : PSR (push_PC s) = PSR s.
Proof. rewrite push_PC_eq. by sim_simpl. Qed.
Lemma Saved_USP_push_PC : Saved_USP (push_PC s) = Saved_USP s.
Proof. rewrite push_PC_eq. by sim_simpl. Qed.
Lemma Saved_SSP_push_PC : Saved_SSP (push_PC s) = Saved_SSP s.
Proof. rewrite push_PC_eq. by sim_simpl. Qed.
Lemma reg_interrupt_vector v r : reg (interrupt_vector v s) r = reg s r.
Proof. rewrite interrupt_vector_eq. by sim_simpl. Qed.
Lemma mem_read_interrupt_vector v a : mem_read (interrupt_vector v s) a = mem_read s a.
Proof. rewrite interrupt_vector_eq. by sim_simpl. Qed.
Lemma PSR_interrupt_vector v : PSR (interrupt_vector v s) = PSR s.
Proof. rewrite interrupt_vector_eq. by sim_simpl. Qed.
Lemma Saved_USP_interrupt_vector v : Saved_USP (interrupt_vector v s) = Saved_USP s.
Proof. rewrite interrupt_vector_eq. by sim_simpl. Qed.
Lemma Saved_SSP_interrupt_vector v : Saved_SSP (interrupt_vector v s) = Saved_SSP s.
Proof. rewrite interrupt_vector_eq. by sim_simpl. Qed.

End Blocks.

#[export] Hint Rewrite reg_push_MDR_ne reg_push_PC_ne using lia : lc3_simpl.
#[export] Hint Rewrite reg_push_MDR_6 mem_read_push_MDR reg_push_PC_6 mem_read_push_PC
  PC_interrupt_vector PC_push_MDR MDR_push_MDR PSR_push_MDR Saved_USP_push_MDR Saved_SSP_push_MDR
  PC_push_PC PSR_push_PC Saved_USP_push_PC Saved_SSP_push_PC
  reg_interrupt_vector mem_read_interrupt_vector PSR_interrupt_vector
  Saved_USP_interrupt_vector Saved_SSP_interrupt_vector : lc3_simpl.

(** [process_interrupt 1 1] unfolded block by block. *)
Ltac interrupt_simpl :=
  unfold process_interrupt; sim_simpl; rewrite ?interrupt_enter_eq by done.

Lemma PSR_process_interrupt s : is_word (PSR s) -> PSR (process_interrupt 1 1 s) = interrupt_psr (PSR s).
Proof. intros Hp. interrupt_simpl. by destruct (bit _ 15). Qed.

Lemma process_interrupt_keeps v p s :
  HistoryCount (process_interrupt v p s) = HistoryCount s /\
  breakpoints (process_interrupt v p s) = breakpoints s /\
  sim_status (process_interrupt v p s) = sim_status s /\
  breakpoints_set (process_interrupt v p s) = breakpoints_set s.
Proof. unfold process_interrupt, interrupt_enter. simpl. by case_match. Qed.

(** Two pushes below a stack pointer land on two different words. *)
Lemma wrap16_sub12_ne sp : wrap16 (sp - 1) <> wrap16 (sp - 2).
Proof. zlia. Qed.

(** ** Properties *)

Lemma process_interrupt_spec s :
  wf s ->
  let user := bit (PSR s) 15 in
  let sp := if user then Saved_SSP s else reg s 6 in
  let s' := process_interrupt 1 1 s in
  reg s' 6 = sp -w 2 /\
  mem_read s' (sp -w 1) = PSR s /\
  mem_read s' (sp -w 2) = PC s -w 1 /\
  PC s' = mem_read s' 0x0101 /\
  slice (PSR s') 8 11 = 1 /\ bit (PSR s') 15 = false /\ Z.land (PSR s') 7 = Z.land (PSR s) 7 /\
  Saved_USP s' = (if user then reg s 6 else Saved_USP s) /\
  (forall a, a <> sp -w 1 -> a <> sp -w 2 -> a <> 0x0101 -> mem_read s' a = mem_read s a).
Proof.
  intros Hs user sp s'. subst s'.
  assert (Hp := wf_PSR s Hs). destruct (interrupt_psr_spec _ Hp) as (H1 & H2 & H3 & _).
  interrupt_simpl. subst user sp.
  destruct (bit (PSR s) 15); sim_simpl; rewrite ?H1, ?H2, ?H3;
    repeat split; try intros a Ha1 Ha2 Ha3; mem_simpl; decide_addr; first [done | zlia].
Qed.

(** The PC [process_interrupt] leaves is the vector as it was before
    the interrupt, when neither push lands on the vector table entry. *)
Lemma process_interrupt_PC s :
  wf s ->
  let sp := if bit (PSR s) 15 then Saved_SSP s else reg s 6 in
  0x0101 <> sp -w 1 -> 0x0101 <> sp -w 2 -> PC (process_interrupt 1 1 s) = mem_read s 0x0101.
Proof.
  intros Hs sp H1 H2. assert (Hp := wf_PSR s Hs). interrupt_simpl. subst sp.
  destruct (bit (PSR s) 15); sim_simpl; mem_simpl; decide_addr; first [done | zlia].
Qed.

Lemma process_interrupt_other s :
  wf s ->
  Saved_SSP (process_interrupt 1 1 s) = Saved_SSP s /\
  (forall r, r <> 6 -> reg (process_interrupt 1 1 s) r = reg s r).
Proof.
  intros Hs. assert (Hp := wf_PSR s Hs). interrupt_simpl.
  destruct (bit _ 15); sim_simpl; split; intros; sim_simpl; done.
Qed.

(** C6: the keyboard interrupt pushes the old PSR at [sp-1] and
    the address of the interrupted instruction [PC-1] at [sp-2], where
    [sp] is the supervisor stack pointer ([Saved_SSP] when the machine
    was in user mode, R6 otherwise); R6 ends at [sp-2]; the user R6 is
    saved when the machine was in user mode; the new PSR is in
    supervisor mode with priority 1 and the old condition codes; the PC
    is the vector table entry; no other memory word changes. *)
Theorem process_interrupt_frame s :
  wf s ->
  let user := bit (PSR s) 15 in
  let sp := if user then Saved_SSP s else reg s 6 in
  let s' := process_interrupt 1 1 s in
  reg s' 6 = sp -w 2 /\
  mem_read s' (sp -w 1) = PSR s /\
  mem_read s' (sp -w 2) = PC s -w 1 /\
  PC s' = mem_read s' 0x0101 /\
  slice (PSR s') 8 11 = 1 /\ bit (PSR s') 15 = false /\ Z.land (PSR s') 7 = Z.land (PSR s) 7 /\
  Saved_USP s' = (if user then reg s 6 else Saved_USP s) /\
  (forall a, a <> sp -w 1 -> a <> sp -w 2 -> a <> 0x0101 -> mem_read s' a = mem_read s a).
Proof. apply process_interrupt_spec. Qed.

(** C7: an [RTI] executed right after the keyboard interrupt
    returns to the interrupted instruction: the PC is the address of the
    instruction the interrupt pre-empted ([PC - 1] at dispatch), and PSR,
    R6 and the saved supervisor stack pointer are those from before the
    interrupt; the other registers are untouched. *)
Theorem interrupt_rti_roundtrip s :
  wf s ->
  let s' := RTI (process_interrupt 1 1 s) in
  PC s' = PC s -w 1 /\ PSR s' = PSR s /\ reg s' 6 = reg s 6 /\
  Saved_SSP s' = Saved_SSP s /\
  (forall r, is_reg r -> r <> 6 -> reg s' r = reg s r).
Proof.
  intros Hs s'. subst s'.
  assert (Ht := wf_process_interrupt s 1 1 Hs). assert (Hwp := wf_PSR s Hs).
  destruct (process_interrupt_spec s Hs) as (H6 & Hm1 & Hm2 & _ & _ & Hu & _ & Husp & _).
  destruct (process_interrupt_other s Hs) as [Hssp Hregs].
  set (t := process_interrupt 1 1 s) in *.
  assert (HPt : PSR t < 32768).
  { rewrite bit15_word in Hu by (apply wf_PSR; done). apply Z.leb_gt in Hu. done. }
  destruct (RTI_supervisor_spec t Ht HPt) as (Hpc & Hpsr & Hr6 & Hssp' & _ & _ & Hr).
  rewrite H6, wrap16_sub2_add1, wrap16_sub2_add2, Hm1, <- bit15_word in * by done.
  repeat split.
  - by rewrite Hpc.
  - done.
  - rewrite Hr6, Husp. destruct (bit (PSR s) 15); [done | apply wrap16_id; wf_solve].
  - rewrite Hssp', Hssp. destruct (bit (PSR s) 15); [apply wrap16_id; wf_solve | done].
  - intros r Hr' Hne. rewrite Hr by done. by apply Hregs.
Qed.

Lemma process_interrupt_frame_witness :
  let s := sample_sim [0; 0; 0; 0; 0; 0; 0xfe00; 0] 0x3005 0x8002 (<[0x0101 := 0x1000]> ∅) in
  let user := bit (PSR s) 15 in
  let sp := if user then Saved_SSP s else reg s 6 in
  let s' := process_interrupt 1 1 s in
  reg s' 6 = sp -w 2 /\
  mem_read s' (sp -w 1) = PSR s /\
  mem_read s' (sp -w 2) = PC s -w 1 /\
  PC s' = mem_read s' 0x0101 /\
  slice (PSR s') 8 11 = 1 /\ bit (PSR s') 15 = false /\ Z.land (PSR s') 7 = Z.land (PSR s) 7 /\
  Saved_USP s' = (if user then reg s 6 else Saved_USP s) /\
  (forall a, a <> sp -w 1 -> a <> sp -w 2 -> a <> 0x0101 -> mem_read s' a = mem_read s a).
Proof. intros s. apply process_interrupt_frame. apply wfb_spec; vm_compute; reflexivity. Defined.

Lemma interrupt_rti_roundtrip_witness :
  let s := sample_sim [0; 0; 0; 0; 0; 0; 0xfe00; 0] 0x3005 0x8002 (<[0x0101 := 0x1000]> ∅) in
  let s' := RTI (process_interrupt 1 1 s) in
  PC s' = PC s -w 1 /\ PSR s' = PSR s /\ reg s' 6 = reg s 6 /\
  Saved_SSP s' = Saved_SSP s /\
  (forall r, is_reg r -> r <> 6 -> reg s' r = reg s r).
Proof. intros s. apply interrupt_rti_roundtrip. apply wfb_spec; vm_compute; reflexivity. Defined.
