(* ===== verification/Device.v ===== *)
(** * Memory-mapped devices ([src/lc3_simulator/sim.cpp] lines 152-180)

    [device_keyboard] and [device_monitor], called at the start of every
    [step_over].  The keyboard's [_kbhit]/[_getch] pair is the argument
    [key]: [None] when no key is pending, [Some kb] with the code
    [_getch] returned otherwise.  The characters [printf] writes are
    appended to the [console] field.

    The theorems: a key other than ESC raises the ready bit of [KBSR]
    and leaves its code in [KBDR]; ESC only sets the status; the monitor
    prints the low byte of [DDR] exactly when the ready bit of [DSR] is
    clear, and prints each character at most once. *)

From S2P Require Import Prelude Bits Machine.

Open Scope Z_scope.
Open Scope lc3_scope.

(** The code of the ESC key. *)
Definition ESC : Z := 27.

(** [void device_keyboard()] *)
Definition device_keyboard (key : option Z) (s : sim) : sim :=
  match key with
  | None => s
  | Some kb =>
      if kb =? ESC then with_status User_Interrupt s
      else
        let s1 := with_mem KBSR_ (wrap16 (Z.land (mem_read s KBSR_) 0x7fff + 0x8000)) s in
        with_mem KBDR_ (Z.land kb 0x00ff) s1
  end.

(** [void device_monitor()] *)
Definition device_monitor (s : sim) : sim :=
  if Z.land (mem_read s DSR_) 0x8000 =? 0 then
    let s1 := with_console (console s ++ [Z.land (mem_read s DDR_) 0x00ff]) s in
    with_mem DSR_ (wrap16 (Z.land (mem_read s1 DSR_) 0x7fff + 0x8000)) s1
  else s.

(** ** Lemmas *)

Lemma land_255_byte x : 0 <= Z.land x 0x00ff < 256.
Proof.
  change 0x00ff with (Z.ones 8). rewrite Z.land_ones by lia.
  pose proof (Z.mod_pos_bound x (2 ^ 8) ltac:(lia)). simpl in *. lia.
Qed.

Lemma land_255_is_word x : is_word (Z.land x 0x00ff).
Proof. pose proof (land_255_byte x). unfold is_word, word_modulus. lia. Qed.

#[export] Hint Resolve land_255_is_word : lc3.

Lemma wf_device_keyboard key s : wf s -> wf (device_keyboard key s).
Proof.
  intros. unfold device_keyboard. destruct key as [kb|]; [|done].
  destruct (kb =? ESC); [auto with lc3 | cbn zeta].
  apply wf_with_mem; [wf_solve | done | apply land_255_is_word].
Qed.

Lemma wf_device_monitor s : wf s -> wf (device_monitor s).
Proof. intros. unfold device_monitor. case_match; [cbn zeta; wf_solve | done]. Qed.

#[export] Hint Resolve wf_device_keyboard wf_device_monitor : lc3.

(** Raising a ready bit, [(x & 0x7fff) + 0x8000]: bit 15 set, the
    bits below kept. *)
Lemma ready_set_lor x : Z.land x 0x7fff + 0x8000 = Z.lor (Z.land x 0x7fff) 0x8000.
Proof.
  assert (H0 : Z.land (Z.land x 0x7fff) 0x8000 = 0) by (rewrite <- Z.land_assoc; apply Z.land_0_r).
  rewrite Z.add_nocarry_lxor by done. by apply Z.lxor_lor.
Qed.

Lemma ready_set_range x : 0 <= Z.land x 0x7fff + 0x8000 < word_modulus.
Proof.
  change 0x7fff with (Z.ones 15). rewrite Z.land_ones by lia.
  pose proof (Z.mod_pos_bound x (2 ^ 15) ltac:(lia)). unfold word_modulus. simpl in *. lia.
Qed.

Lemma ready_set_bit x i :
  0 <= i -> bit (wrap16 (Z.land x 0x7fff + 0x8000)) i = (i =? 15) || ((i <? 15) && bit x i).
Proof.
  intros Hi. rewrite wrap16_id by apply ready_set_range.
  rewrite !bit_testbit, ready_set_lor, Z.lor_spec, Z.land_spec by lia.
  change 0x7fff with (Z.ones 15). change 0x8000 with (2 ^ 15).
  rewrite Z.testbit_ones, Z.pow2_bits_eqb by lia.
  destruct (Z.eqb_spec i 15), (Z.eqb_spec 15 i), (Z.ltb_spec i 15), (Z.leb_spec 0 i);
    try lia; simpl; by rewrite ?andb_true_r, ?andb_false_r, ?orb_false_r, ?orb_true_r.
Qed.

(** The ready test of [device_monitor] is bit 15. *)
Lemma land_8000_bit x : (Z.land x 0x8000 =? 0) = negb (bit x 15).
Proof. unfold bit. simpl. by rewrite negb_involutive. Qed.

Lemma mem_read_device_keyboard_ne key s a :
  a <> KBSR_ -> a <> KBDR_ -> mem_read (device_keyboard key s) a = mem_read s a.
Proof.
  intros. unfold device_keyboard. destruct key as [kb|]; [|done].
  destruct (kb =? ESC); [by sim_simpl | cbn zeta; mem_simpl; decide_addr; done].
Qed.

Lemma mem_read_device_monitor_ne s a :
  a <> DSR_ -> mem_read (device_monitor s) a = mem_read s a.
Proof. intros. unfold device_monitor. case_match; [cbn zeta; mem_simpl; decide_addr; done | done]. Qed.

Lemma reg_device_monitor s r : reg (device_monitor s) r = reg s r.
Proof. unfold device_monitor. case_match; [by sim_simpl | done]. Qed.

Lemma mem_read_device_monitor_DSR s :
  mem_read (device_monitor s) DSR_ =
  if bit (mem_read s DSR_) 15 then mem_read s DSR_ else wrap16 (Z.land (mem_read s DSR_) 0x7fff + 0x8000).
Proof. unfold device_monitor. rewrite land_8000_bit. destruct (bit _ 15); simpl; [done | by sim_simpl]. Qed.

(** What the devices leave alone. *)
Lemma device_monitor_frame s :
  PSR (device_monitor s) = PSR s /\ PC (device_monitor s) = PC s /\
  Saved_SSP (device_monitor s) = Saved_SSP s /\ HistoryCount (device_monitor s) = HistoryCount s /\
  sim_status (device_monitor s) = sim_status s /\ breakpoints (device_monitor s) = breakpoints s.
Proof. unfold device_monitor. case_match; [by sim_simpl | done]. Qed.

Lemma device_keyboard_frame key s :
  PSR (device_keyboard key s) = PSR s /\ PC (device_keyboard key s) = PC s /\
  Saved_SSP (device_keyboard key s) = Saved_SSP s /\ HistoryCount (device_keyboard key s) = HistoryCount s /\
  breakpoints (device_keyboard key s) = breakpoints s /\
  (forall r, reg (device_keyboard key s) r = reg s r).
Proof. unfold device_keyboard. repeat case_match; cbn zeta; sim_simpl; done. Qed.

Lemma device_keyboard_spec s kb :
  kb <> ESC ->
  let s' := device_keyboard (Some kb) s in
  bit (mem_read s' KBSR_) 15 = true /\ bit (mem_read s' KBSR_) 14 = bit (mem_read s KBSR_) 14 /\
  mem_read s' KBDR_ = Z.land kb 0x00ff /\
  (forall a, a <> KBSR_ -> a <> KBDR_ -> mem_read s' a = mem_read s a) /\
  (forall r, reg s' r = reg s r) /\ sim_status s' = sim_status s /\ PSR s' = PSR s /\ PC s' = PC s.
Proof.
  intros Hkb s'. subst s'. unfold device_keyboard.
  rewrite (proj2 (Z.eqb_neq kb ESC) Hkb). cbn zeta.
  repeat split; intros; mem_simpl; decide_addr; rewrite ?ready_set_bit by lia; done.
Qed.

(** ** Properties *)

(** [device_monitor] prints the low byte of [DDR] exactly when
    the ready bit of [DSR] is clear, and sets that bit: a second call
    prints nothing, so each character written to [DDR] is printed once. *)
Theorem device_monitor_prints_once s :
  console (device_monitor s) =
    console s ++ (if bit (mem_read s DSR_) 15 then [] else [Z.land (mem_read s DDR_) 0x00ff]) /\
  device_monitor (device_monitor s) = device_monitor s.
Proof.
  split.
  - unfold device_monitor. rewrite land_8000_bit.
    destruct (bit _ 15); simpl; [by rewrite app_nil_r | done].
  - unfold device_monitor at 1. rewrite land_8000_bit, mem_read_device_monitor_DSR.
    destruct (bit (mem_read s DSR_) 15) eqn:E; [by rewrite E|].
    by rewrite ready_set_bit.
Qed.

(** a key other than ESC sets the ready bit of [KBSR] (its
    interrupt-enable bit is kept), latches the low byte of the key code
    in [KBDR], and changes no other memory cell, register or the status;
    ESC changes only the status. *)
Theorem device_keyboard_key s kb :
  kb <> ESC ->
  let s' := device_keyboard (Some kb) s in
  bit (mem_read s' KBSR_) 15 = true /\ bit (mem_read s' KBSR_) 14 = bit (mem_read s KBSR_) 14 /\
  mem_read s' KBDR_ = Z.land kb 0x00ff /\
  (forall a, a <> KBSR_ -> a <> KBDR_ -> mem_read s' a = mem_read s a) /\
  (forall r, reg s' r = reg s r) /\ sim_status s' = sim_status s /\ PSR s' = PSR s /\ PC s' = PC s.
Proof. apply device_keyboard_spec. Qed.

Lemma device_keyboard_key_witness :
  let s := sample_sim [0; 0; 0; 0; 0; 0; 0; 0] 0x3000 0x8002 (<[KBSR_ := 0x4000]> ∅) in
  let kb := 97 in
  kb <> ESC /\
  let s' := device_keyboard (Some kb) s in
  bit (mem_read s' KBSR_) 15 = true /\ bit (mem_read s' KBSR_) 14 = bit (mem_read s KBSR_) 14 /\
  mem_read s' KBDR_ = Z.land kb 0x00ff /\
  (forall a, a <> KBSR_ -> a <> KBDR_ -> mem_read s' a = mem_read s a) /\
  (forall r, reg s' r = reg s r) /\ sim_status s' = sim_status s /\ PSR s' = PSR s /\ PC s' = PC s.
Proof. intros s kb. split; [unfold ESC; lia | apply device_keyboard_key; unfold ESC; lia]. Defined.
