(* ===== verification/Step.v ===== *)
(** * One step of the machine ([Simulator::step_over],
    [src/lc3_simulator/sim.cpp] lines 128-150)

    [step_over key s] is [None] when the step has undefined behaviour (an
    out-of-bounds memory index in [process_instr], or [HistoryCount++]
    overflowing the [int]); otherwise the state after the step.  The
    keyboard input polled by [device_keyboard] is the argument [key].

    The status field is written at the start of every step, so two
    states that differ only in their status step alike: [sim_equiv] is
    that equivalence, with its [Proper] instances.

    The theorems: [step_over] preserves [wf]; it counts exactly the
    instructions it executes; an interrupt pre-empts the fetch; a step
    that ends with a normal status never stops on a breakpoint; and ESC
    does not keep the current instruction from executing (the step with
    ESC and the step without a key agree up to the status). *)

From S2P Require Import Prelude Bits Machine Instr Interrupt Device.

Open Scope Z_scope.
Open Scope lc3_scope.

(** Lines 139-144: fetch the word at [MAR], execute it, count it.
    [HistoryCount] is an [int]: incrementing [INT_MAX] is undefined. *)
Definition fetch_execute (s : sim) : option sim :=
  let s1 := with_MDR (mem_read s (MAR s)) s in
  let s2 := with_IR (MDR s1) s1 in
  s3 ← process_instr (IR s2) s2;
  if HistoryCount s3 =? INT_MAX then None
  else Some (with_count (HistoryCount s3 + 1) s3).

(** Lines 145-148: stop on a breakpoint at the new PC. *)
Definition check_breakpoint (s : sim) : sim :=
  if bool_decide (sim_status s = Normal) && bool_decide (PC s ∈ breakpoints s)
  then with_status Breakpoint s else s.

(** Lines 130-136 of [step_over]: reset the status, poll the devices,
    latch [PC] into [MAR] and increment [PC]. *)
Definition step_begin (key : option Z) (s : sim) : sim :=
  let s1 := with_status Normal s in
  let s2 := device_keyboard key s1 in
  let s3 := device_monitor s2 in
  let s4 := with_MAR (PC s3) s3 in
  with_PC (PC s4 +w 1) s4.

(** [void step_over()] *)
Definition step_over (key : option Z) (s : sim) : option sim :=
  let '(fired, s6) := check_interrupt (step_begin key s) in
  s7 ← (if fired then Some s6 else fetch_execute s6);
  Some (check_breakpoint s7).

(** ** States equal up to the status *)

Definition erase (s : sim) : sim := with_status Normal s.

Definition sim_equiv (s t : sim) : Prop := erase s = erase t.

#[export] Instance sim_equiv_equivalence : Equivalence sim_equiv.
Proof. split; repeat intro; unfold sim_equiv in *; congruence. Qed.

(** [true] when [process_instr instr] raises the privilege exception on
    [s]: an [RTI] in user mode. *)
Definition raises_exception (instr : Z) (s : sim) : bool :=
  (Z.shiftr instr 12 =? 8) && bit (PSR s) 15.

(** ** Lemmas *)

Lemma wf_fetch_execute s s' : wf s -> fetch_execute s = Some s' -> wf s'.
Proof.
  unfold fetch_execute. intros Hs H. cbn zeta in H.
  apply option_bind_Some in H as (t & Ht & H).
  assert (Hwt : wf t) by (eapply wf_process_instr; [| | exact Ht]; [wf_solve | simpl; wf_solve]).
  case_match; [done|]. injection H as <-. apply wf_with_count; [done|].
  pose proof (wf_count t Hwt). apply Z.eqb_neq in H0. unfold INT_MAX in *. lia.
Qed.

Lemma wf_check_breakpoint s : wf s -> wf (check_breakpoint s).
Proof. intros. unfold check_breakpoint. case_match; auto with lc3. Qed.

#[export] Hint Resolve wf_check_breakpoint : lc3.

(** ** Nothing but [RTI] in user mode reads or writes the status *)

Ltac status_comm := intros; rewrite ?mem_read_with_status, ?reg_with_status; repeat case_match; simplify_eq; try reflexivity.

Section StatusCommutes.
Variables (st : status_code) (s : sim).

Lemma BR_with_status nzp o : BR nzp o (with_status st s) = with_status st (BR nzp o s).
Proof. unfold BR. simpl. status_comm. Qed.

Lemma kbd_read_hook_with_status t : kbd_read_hook t (with_status st s) = with_status st (kbd_read_hook t s).
Proof. unfold kbd_read_hook. simpl. status_comm. Qed.

Lemma dsp_write_hook_with_status t : dsp_write_hook t (with_status st s) = with_status st (dsp_write_hook t s).
Proof. unfold dsp_write_hook. simpl. status_comm. Qed.

Ltac hook_comm :=
  simpl; rewrite ?kbd_read_hook_with_status, ?dsp_write_hook_with_status; reflexivity.

Lemma LD_with_status dr o : LD dr o (with_status st s) = with_status st (LD dr o s).
Proof. unfold LD. cbn zeta. hook_comm. Qed.

Lemma LDR_with_status dr b o : LDR dr b o (with_status st s) = with_status st (LDR dr b o s).
Proof. unfold LDR. cbn zeta. hook_comm. Qed.

Lemma ST_with_status sr o : ST sr o (with_status st s) = with_status st (ST sr o s).
Proof. unfold ST. cbn zeta. hook_comm. Qed.

Lemma mem_index_with_status i : mem_index (with_status st s) i = mem_index s i.
Proof. reflexivity. Qed.

Lemma LDI_with_status dr o :
  LDI dr o (with_status st s) = option_map (with_status st) (LDI dr o s).
Proof. unfold LDI. rewrite mem_index_with_status. destruct (mem_index s _); simpl; [hook_comm | done]. Qed.

Lemma STI_with_status sr o :
  STI sr o (with_status st s) = option_map (with_status st) (STI sr o s).
Proof. unfold STI. rewrite mem_index_with_status. destruct (mem_index s _); simpl; [hook_comm | done]. Qed.

Lemma STR_with_status sr b o :
  STR sr b o (with_status st s) = option_map (with_status st) (STR sr b o s).
Proof.
  unfold STR, mem_store. cbn zeta. simpl. rewrite dsp_write_hook_with_status.
  simpl. by destruct (is_wordb _).
Qed.

Lemma RTI_with_status :
  RTI (with_status st s) = if bit (PSR s) 15 then RTI s else with_status st (RTI s).
Proof. unfold RTI. cbn zeta. sim_simpl. status_comm. Qed.

Lemma process_instr_with_status instr :
  process_instr instr (with_status st s) =
  option_map (fun t => if raises_exception instr s then t else with_status st t) (process_instr instr s).
Proof.
  unfold process_instr, raises_exception.
  repeat case_match; simplify_eq; simpl; try reflexivity;
    rewrite ?BR_with_status, ?LD_with_status, ?LDR_with_status, ?ST_with_status,
      ?LDI_with_status, ?STI_with_status, ?STR_with_status, ?RTI_with_status;
    simplify_eq; try reflexivity.
  all: simpl in *; by destruct (bit (PSR s) 15).
Qed.

Lemma device_monitor_with_status : device_monitor (with_status st s) = with_status st (device_monitor s).
Proof. unfold device_monitor. simpl. status_comm. Qed.

Lemma interrupt_enter_with_status p :
  interrupt_enter p (with_status st s) = with_status st (interrupt_enter p s).
Proof. unfold interrupt_enter. simpl. status_comm. Qed.

Lemma process_interrupt_with_status v p :
  process_interrupt v p (with_status st s) = with_status st (process_interrupt v p s).
Proof. unfold process_interrupt. rewrite interrupt_enter_with_status. reflexivity. Qed.

Lemma check_interrupt_with_status :
  check_interrupt (with_status st s) = ((check_interrupt s).1, with_status st (check_interrupt s).2).
Proof.
  unfold check_interrupt. simpl. rewrite process_interrupt_with_status. status_comm.
Qed.

End StatusCommutes.

Lemma fetch_execute_with_status st s :
  fetch_execute (with_status st s) =
  option_map (fun t => if raises_exception (mem_read s (MAR s)) s then t else with_status st t)
    (fetch_execute s).
Proof.
  unfold fetch_execute. cbn zeta. simpl (IR _). simpl (MDR _). simpl (MAR _).
  rewrite mem_read_with_status.
  change (with_IR ?v (with_MDR ?v (with_status st s)))
    with (with_status st (with_IR v (with_MDR v s))).
  rewrite process_instr_with_status.
  destruct (process_instr _ _) as [t|]; [simpl | done].
  change (raises_exception ?i (with_IR _ (with_MDR _ s))) with (raises_exception i s).
  destruct (raises_exception _ _); simpl; by destruct (HistoryCount t =? INT_MAX).
Qed.


Lemma device_keyboard_esc s : device_keyboard (Some ESC) s = with_status User_Interrupt s.
Proof. reflexivity. Qed.

Lemma step_begin_esc s : step_begin (Some ESC) s = with_status User_Interrupt (step_begin None s).
Proof. unfold step_begin. cbn zeta. rewrite device_keyboard_esc, device_monitor_with_status. reflexivity. Qed.

(** [step_over] resets the status first: the status it starts from
    does not matter. *)
Lemma step_over_any_status key st s : step_over key (with_status st s) = step_over key s.
Proof. unfold step_over, step_begin. destruct s. reflexivity. Qed.

Lemma process_instr_raises instr s :
  raises_exception instr s = true -> process_instr instr s = Some (with_status Priviledge_Exception s).
Proof.
  unfold raises_exception. intros [Hop Hu]%andb_true_iff. apply Z.eqb_eq in Hop.
  unfold process_instr. rewrite Hop. unfold RTI. by rewrite Hu.
Qed.

Lemma fetch_execute_raises s t :
  raises_exception (mem_read s (MAR s)) s = true -> fetch_execute s = Some t ->
  sim_status t = Priviledge_Exception.
Proof.
  intros Hr. unfold fetch_execute. cbn zeta. rewrite process_instr_raises by exact Hr.
  simpl. case_match; [done|]. by intros [= <-].
Qed.

Lemma sim_equiv_with_status st s : sim_equiv (with_status st s) s.
Proof. reflexivity. Qed.

Lemma check_breakpoint_equiv s : sim_equiv (check_breakpoint s) s.
Proof. unfold check_breakpoint, sim_equiv. by case_match. Qed.

Lemma check_breakpoint_stopped s : sim_status s <> Normal -> check_breakpoint s = s.
Proof. intros H. unfold check_breakpoint. by rewrite bool_decide_eq_false_2. Qed.

Lemma step_over_esc s :
  option_Forall2 sim_equiv (step_over (Some ESC) s) (step_over None s) /\
  (forall u, step_over (Some ESC) s = Some u -> sim_status u <> Normal).
Proof.
  unfold step_over. rewrite step_begin_esc, check_interrupt_with_status.
  destruct (check_interrupt _) as [[|] q]; simpl.
  - rewrite check_breakpoint_stopped by done. split; [|by intros u [= <-]].
    constructor. by rewrite check_breakpoint_equiv, sim_equiv_with_status.
  - rewrite fetch_execute_with_status.
    destruct (fetch_execute q) as [t|] eqn:E; simpl; [|split; [constructor | done]].
    destruct (raises_exception _ _) eqn:R.
    + pose proof (fetch_execute_raises q t R E) as Ht.
      rewrite !check_breakpoint_stopped by (rewrite Ht; done).
      split; [by constructor | by intros u [= <-]; rewrite Ht].
    + rewrite check_breakpoint_stopped by done. split; [|by intros u [= <-]].
      constructor. by rewrite check_breakpoint_equiv, sim_equiv_with_status.
Qed.

(** C9: pressing ESC does not keep the current instruction from
    executing (spec 4.1 step 1 says the step returns without executing):
    the step with ESC and the step without a key give states that differ
    only in the status, and the status after ESC is not [Normal] (it is
    [User_Interrupt], or [Priviledge_Exception] when the instruction was
    an [RTI] in user mode). *)
Theorem esc_still_executes s :
  option_Forall2 sim_equiv (step_over (Some ESC) s) (step_over None s) /\
  (forall u, step_over (Some ESC) s = Some u -> sim_status u <> Normal).
Proof. apply step_over_esc. Qed.

Lemma wf_step_begin key s : wf s -> wf (step_begin key s).
Proof.
  intros Hs. unfold step_begin. cbn zeta.
  assert (wf (device_monitor (device_keyboard key (with_status Normal s)))) by auto with lc3.
  wf_solve.
Qed.

#[export] Hint Resolve wf_step_begin : lc3.

Lemma wf_step_over key s s' : wf s -> step_over key s = Some s' -> wf s'.
Proof.
  intros Hs. unfold step_over.
  destruct (check_interrupt _) as [fired t] eqn:E.
  assert (Ht : wf t).
  { change t with (fired, t).2. rewrite <- E. apply wf_check_interrupt. auto with lc3. }
  destruct fired; simpl; [by intros [= <-]; auto with lc3|].
  destruct (fetch_execute t) as [u|] eqn:Eu; simpl; [|done].
  intros [= <-]. apply wf_check_breakpoint. by eapply wf_fetch_execute.
Qed.

(** The fields other than the status respect [sim_equiv]. *)
#[export] Instance PC_proper : Proper (sim_equiv ==> eq) PC.
Proof. intros s t H. exact (f_equal PC H). Qed.
#[export] Instance PSR_proper : Proper (sim_equiv ==> eq) PSR.
Proof. intros s t H. exact (f_equal PSR H). Qed.
#[export] Instance HistoryCount_proper : Proper (sim_equiv ==> eq) HistoryCount.
Proof. intros s t H. exact (f_equal HistoryCount H). Qed.
#[export] Instance breakpoints_proper : Proper (sim_equiv ==> eq) breakpoints.
Proof. intros s t H. exact (f_equal breakpoints H). Qed.
#[export] Instance reg_proper : Proper (sim_equiv ==> eq ==> eq) reg.
Proof. intros s t H r ? <-. exact (f_equal (fun u => reg u r) H). Qed.
#[export] Instance mem_read_proper : Proper (sim_equiv ==> eq ==> eq) mem_read.
Proof. intros s t H a ? <-. exact (f_equal (fun u => mem_read u a) H). Qed.


(** What [step_begin] keeps and changes. *)
Lemma step_begin_frame key s :
  PSR (step_begin key s) = PSR s /\ PC (step_begin key s) = PC s +w 1 /\
  Saved_SSP (step_begin key s) = Saved_SSP s /\ HistoryCount (step_begin key s) = HistoryCount s /\
  breakpoints (step_begin key s) = breakpoints s /\ (forall r, reg (step_begin key s) r = reg s r).
Proof.
  unfold step_begin. cbn zeta.
  destruct (device_keyboard_frame key (with_status Normal s)) as (K1 & K2 & K3 & K4 & K5 & K6).
  destruct (device_monitor_frame (device_keyboard key (with_status Normal s))) as (M1 & M2 & M3 & M4 & _ & M6).
  sim_simpl. rewrite M1, M2, M3, M4, M6, K1, K2, K3, K4, K5.
  repeat split; intros; try done. sim_simpl. by rewrite reg_device_monitor, K6.
Qed.

Lemma step_begin_key s kb :
  kb <> ESC ->
  bit (mem_read (step_begin (Some kb) s) KBSR_) 15 = true /\
  bit (mem_read (step_begin (Some kb) s) KBSR_) 14 = bit (mem_read s KBSR_) 14.
Proof.
  intros Hkb. unfold step_begin. cbn zeta. sim_simpl.
  rewrite mem_read_device_monitor_ne by (unfold KBSR_, DSR_; lia).
  destruct (device_keyboard_spec (with_status Normal s) kb Hkb) as (H15 & H14 & _).
  by rewrite H15, H14.
Qed.

(** The breakpoint check changes only the status. *)
Lemma check_breakpoint_frame s :
  HistoryCount (check_breakpoint s) = HistoryCount s /\ PC (check_breakpoint s) = PC s /\
  (forall a, mem_read (check_breakpoint s) a = mem_read s a) /\
  (forall r, reg (check_breakpoint s) r = reg s r).
Proof. unfold check_breakpoint. by case_match. Qed.

Lemma step_over_interrupt key s t :
  check_interrupt (step_begin key s) = (true, t) -> step_over key s = Some (check_breakpoint t).
Proof. intros E. unfold step_over. by rewrite E. Qed.

Lemma step_over_fetch key s t :
  check_interrupt (step_begin key s) = (false, t) ->
  step_over key s = u ← fetch_execute t; Some (check_breakpoint u).
Proof. intros E. unfold step_over. by rewrite E. Qed.

(** [step_begin] leaves the interrupt vector table alone. *)
Lemma step_begin_vector key s : mem_read (step_begin key s) 0x0101 = mem_read s 0x0101.
Proof.
  unfold step_begin. cbn zeta. sim_simpl.
  rewrite mem_read_device_monitor_ne, mem_read_device_keyboard_ne by (unfold KBSR_, KBDR_, DSR_; lia).
  by sim_simpl.
Qed.

(** C8: a key press with the keyboard interrupt enabled, at
    priority 0, is taken in the same step: no instruction executes
    ([HistoryCount] unchanged), the PC is the keyboard vector, and the
    return address pushed on the supervisor stack is the PC of the
    instruction that did not execute. *)
Theorem keyboard_interrupt_step s kb :
  wf s -> kb <> ESC -> bit (mem_read s KBSR_) 14 = true -> slice (PSR s) 8 11 = 0 ->
  let sp := if bit (PSR s) 15 then Saved_SSP s else reg s 6 in
  0x0101 <> sp -w 1 -> 0x0101 <> sp -w 2 ->
  exists s', step_over (Some kb) s = Some s' /\
    HistoryCount s' = HistoryCount s /\ PC s' = mem_read s 0x0101 /\
    mem_read s' (sp -w 2) = PC s /\ reg s' 6 = sp -w 2.
Proof.
  intros Hs Hkb Hie Hpri sp Hv1 Hv2.
  set (p := step_begin (Some kb) s).
  assert (Hp : wf p) by (subst p; auto with lc3).
  destruct (step_begin_frame (Some kb) s) as (Epsr & Epc & Essp & Ecnt & _ & Ereg).
  fold p in Epsr, Epc, Essp, Ecnt, Ereg.
  destruct (step_begin_key s kb Hkb) as (E15 & E14). fold p in E15, E14.
  assert (Ec : check_interrupt p = (true, process_interrupt 1 1 p)).
  { unfold check_interrupt. by rewrite E15, E14, Hie, Epsr, Hpri. }
  rewrite (step_over_interrupt _ _ _ Ec). eexists; split; [reflexivity|].
  destruct (process_interrupt_spec p Hp) as (R6 & _ & M2 & PCv & _).
  destruct (process_interrupt_keeps 1 1 p) as (Kc & _).
  destruct (check_breakpoint_frame (process_interrupt 1 1 p)) as (B1 & B2 & B3 & B4).
  assert (Esp : (if bit (PSR p) 15 then Saved_SSP p else reg p 6) = sp) by (by rewrite Epsr, Essp, Ereg).
  assert (Hpc : is_word (PC s)) by wf_solve.
  rewrite Esp, Epc, wrap16_sub_wrap_l, Z.add_simpl_r, (wrap16_id (PC s) Hpc) in M2.
  rewrite Esp in R6. rewrite B1, B2, !B3, B4, Kc, Ecnt.
  assert (Ev : mem_read p 0x0101 = mem_read s 0x0101) by (subst p; apply step_begin_vector).
  pose proof (process_interrupt_PC p Hp) as PCp. rewrite Esp, Ev in PCp.
  exact (conj eq_refl (conj (PCp Hv1 Hv2) (conj M2 R6))).
Qed.

Lemma keyboard_interrupt_step_witness :
  let s := sample_sim [0; 0; 0; 0; 0; 0; 0xfe00; 0] 0x3000 0x8002
             (<[KBSR_ := 0x4000]> (<[0x0101 := 0x1000]> ∅)) in
  let sp := if bit (PSR s) 15 then Saved_SSP s else reg s 6 in
  exists s', step_over (Some 97) s = Some s' /\
    HistoryCount s' = HistoryCount s /\ PC s' = mem_read s 0x0101 /\
    mem_read s' (sp -w 2) = PC s /\ reg s' 6 = sp -w 2.
Proof.
  intros s. apply keyboard_interrupt_step;
    [apply wfb_spec; vm_compute; reflexivity | unfold ESC; lia | vm_compute; reflexivity | vm_compute; reflexivity
    | vm_compute; discriminate | vm_compute; discriminate].
Defined.

(** ** The counter and the breakpoint sets *)

(** The instructions never touch [HistoryCount] or the breakpoints. *)
Definition keeps_counters (s t : sim) : Prop :=
  HistoryCount t = HistoryCount s /\ breakpoints t = breakpoints s /\
  breakpoints_set t = breakpoints_set s.

Lemma keeps_counters_hooks tar s :
  keeps_counters s (kbd_read_hook tar s) /\ keeps_counters s (dsp_write_hook tar s).
Proof. unfold keeps_counters, kbd_read_hook, dsp_write_hook. by split; case_match. Qed.

Lemma process_instr_keeps instr s t : process_instr instr s = Some t -> keeps_counters s t.
Proof.
  pose proof (fun tar => keeps_counters_hooks tar s) as Hh. unfold keeps_counters in *.
  unfold process_instr. intros H.
  repeat case_match; simplify_eq;
    unfold ADD, ADDimm, AND, ANDimm, NOT, BR, LD, LDR, LEA, ST, JSR, JSRR, RET, TRAP, RTI,
      LDI, STI, STR, mem_index, mem_store, set_dr, setcc in *; cbn zeta in *;
    repeat case_match; simpl in *; simplify_eq; simpl;
    repeat match goal with
      | |- context [kbd_read_hook ?t s] => destruct (Hh t) as [(-> & -> & ->) _]
      | |- context [dsp_write_hook ?t s] => destruct (Hh t) as [_ (-> & -> & ->)]
      end; auto.
Qed.

Lemma check_breakpoint_keeps u : keeps_counters u (check_breakpoint u).
Proof. unfold keeps_counters, check_breakpoint. case_match; (split; [|split]); reflexivity. Qed.

Lemma check_interrupt_cases s :
  check_interrupt s = (false, s) \/ check_interrupt s = (true, process_interrupt 1 1 s).
Proof. unfold check_interrupt. repeat case_match; auto. Qed.

(** One step counts at most one instruction and leaves the breakpoint
    sets alone. *)
Lemma step_over_counters key s s' :
  step_over key s = Some s' ->
  (HistoryCount s' = HistoryCount s \/ HistoryCount s' = HistoryCount s + 1) /\
  breakpoints s' = breakpoints s /\ breakpoints_set s' = breakpoints_set s.
Proof.
  destruct (step_begin_frame key s) as (_ & _ & _ & Hc & Hb & _).
  assert (Hbs : breakpoints_set (step_begin key s) = breakpoints_set s).
  { unfold step_begin. cbn zeta. unfold device_monitor, device_keyboard. by repeat case_match. }
  pose proof check_breakpoint_keeps as Hcb.
  destruct (check_interrupt_cases (step_begin key s)) as [E|E].
  - rewrite (step_over_fetch _ _ _ E). clear E.
    set (t := step_begin key s) in *. clearbody t.
    destruct (fetch_execute _) as [u|] eqn:Eu; [intros H%(inj Some); subst s' | discriminate].
    unfold fetch_execute in Eu. cbn zeta in Eu.
    apply option_bind_Some in Eu as (v & Hv & Eu). apply process_instr_keeps in Hv.
    destruct Hv as (Hv1 & Hv2 & Hv3). cbn [HistoryCount breakpoints breakpoints_set with_IR with_MDR] in Hv1, Hv2, Hv3.
    case_match; simplify_eq.
    destruct (Hcb (with_count (HistoryCount v + 1) v)) as (C1 & C2 & C3).
    cbn [HistoryCount breakpoints breakpoints_set with_count] in C1, C2, C3.
    split; [right; congruence | split; congruence].
  - rewrite (step_over_interrupt _ _ _ E). clear E.
    set (t := step_begin key s) in *. clearbody t. intros H%(inj Some). subst s'.
    destruct (process_interrupt_keeps 1 1 t) as (K1 & K2 & _ & K4).
    destruct (Hcb (process_interrupt 1 1 t)) as (C1 & C2 & C3).
    split; [left; congruence | split; congruence].
Qed.
