(* ===== verification/Control.v ===== *)
(** * Execution control ([src/lc3_simulator/sim.cpp] lines 227-247,
    593-596, 827-842)

    [run()] and [run(int i)] repeat [step_over] until the status leaves
    [Normal]; [set_bk], [cancel_bk], [cancel_all_bk] edit the breakpoint
    array and the [std::set] beside it; [clear_count] resets the
    instruction counter.

    The loops are written once, against the interface [Stepper] that
    one step promises to the loop (it keeps [wf], counts at most one
    instruction, leaves the breakpoints alone, and stops on ESC), and
    [step_over] is shown to be an instance.  [run()] has no bound: it is
    modelled with fuel, and a result [Finished] of [run] says that the
    fuel ran out before the loop ended; the keyboard is a stream [keys], the key
    polled by the [n]-th step being [keys n].

    The theorems: more fuel never changes a finished run (the fuel only
    bounds the model); a run stops at the latest in the step that reads
    ESC (liveness); [run(i)] executes at most [i] instructions; every
    run keeps [wf] and the agreement of the breakpoint array with its
    set; the breakpoint commands are idempotent. *)

From S2P Require Import Prelude Bits Machine Instr Interrupt Device Step.

Open Scope Z_scope.
Open Scope lc3_scope.

(** ** What one step promises to the loop *)

Class Stepper (step : option Z -> sim -> option sim) : Prop := {
  stepper_wf : forall key s s', wf s -> step key s = Some s' -> wf s';
  stepper_count : forall key s s', step key s = Some s' ->
    HistoryCount s' = HistoryCount s \/ HistoryCount s' = HistoryCount s + 1;
  stepper_breakpoints : forall key s s', step key s = Some s' ->
    breakpoints s' = breakpoints s /\ breakpoints_set s' = breakpoints_set s;
  stepper_esc : forall s s', step (Some ESC) s = Some s' -> sim_status s' <> Normal
}.

#[export] Instance step_over_stepper : Stepper step_over.
Proof.
  split.
  - apply wf_step_over.
  - intros key s s' H. apply (step_over_counters key s s' H).
  - intros key s s' H. apply (step_over_counters key s s' H).
  - intros s s' H. apply (proj2 (step_over_esc s) s' H).
Qed.

(** ** The loops *)

Inductive run_result :=
  | Stopped (s : sim)     (** the status left [Normal]: the loop broke *)
  | Finished (s : sim)    (** the loop bound (or the fuel) was used up *)
  | Crashed.              (** a step had undefined behaviour *)

Section Loops.
Context (step : option Z -> sim -> option sim) `{!Stepper step}.

(** The loop body of [run] and [run(int)]: [step_over(); if (sim_status
    != Normal) break;], at most [fuel] times, the [n]-th step polling
    [keys n]. *)
Fixpoint run_loop (fuel : nat) (keys : nat -> option Z) (n : nat) (s : sim) : run_result :=
  match fuel with
  | O => Finished s
  | S f =>
      match step (keys n) s with
      | None => Crashed
      | Some s' =>
          if bool_decide (sim_status s' = Normal) then run_loop f keys (S n) s' else Stopped s'
      end
  end.

(** [void run()], with [fuel] bounding the model of the unbounded loop. *)
Definition run (fuel : nat) (keys : nat -> option Z) (s : sim) : run_result :=
  run_loop fuel keys 0 (with_status Normal s).

(** [void run(int i)]: [for(;i>0;i--)]. *)
Definition run_count (i : Z) (keys : nat -> option Z) (s : sim) : run_result :=
  run_loop (Z.to_nat i) keys 0 (with_status Normal s).

(** ** Lemmas *)

(** The run ended on its own: it did not merely use up its fuel. *)
Definition ended (r : run_result) : Prop :=
  match r with Finished _ => False | _ => True end.

(** The state a run that did not crash leaves. *)
Definition final_state (r : run_result) : option sim :=
  match r with Stopped s | Finished s => Some s | Crashed => None end.

(** A run that ended before its fuel did ends the same with more fuel. *)
Lemma run_loop_mono f m keys n s :
  ended (run_loop f keys n s) -> run_loop (f + m) keys n s = run_loop f keys n s.
Proof.
  revert n s. induction f as [|f IH]; intros n s H; [done|].
  change (S f + m)%nat with (S (f + m)). cbn [run_loop] in *.
  destruct (step (keys n) s) as [s'|]; [|done].
  case_bool_decide; [by apply IH | done].
Qed.

(** The run stops at the latest in the step that polls ESC. *)
Lemma run_loop_esc k f keys n s :
  keys (n + k)%nat = Some ESC -> (k < f)%nat -> ended (run_loop f keys n s).
Proof.
  revert f n s. induction k as [|k IH]; intros f n s Hk Hf;
    (destruct f as [|f]; [lia|]); cbn [run_loop].
  - rewrite Nat.add_0_r in Hk. rewrite Hk.
    destruct (step (Some ESC) s) as [s'|] eqn:E; [|done].
    rewrite bool_decide_eq_false_2; [done | exact (stepper_esc s s' E)].
  - destruct (step (keys n) s) as [s'|]; [|done].
    case_bool_decide; [|done]. apply IH; [by rewrite <- Hk; f_equal; lia | lia].
Qed.

(** What every step keeps, the loop keeps. *)
Lemma run_loop_invariant (P : sim -> Prop) f keys n s t :
  (forall key u u', P u -> step key u = Some u' -> P u') ->
  P s -> final_state (run_loop f keys n s) = Some t -> P t.
Proof.
  intros Hstep. revert n s. induction f as [|f IH]; intros n s Hs; simpl; [by intros [= <-]|].
  destruct (step (keys n) s) as [s'|] eqn:E; [|done].
  case_bool_decide; [apply (IH _ s') | simpl; intros [= <-]]; eauto.
Qed.

(** Each step counts at most one instruction. *)
Lemma run_loop_count f keys n s t :
  final_state (run_loop f keys n s) = Some t ->
  HistoryCount s <= HistoryCount t <= HistoryCount s + Z.of_nat f.
Proof.
  revert n s. induction f as [|f IH]; intros n s; simpl; [intros [= <-]; lia|].
  destruct (step (keys n) s) as [s'|] eqn:E; [|done].
  pose proof (stepper_count _ _ _ E) as Hc.
  case_bool_decide; [intros Ht; apply IH in Ht | simpl; intros [= <-]]; lia.
Qed.

End Loops.

(** ** Breakpoints and the counter *)

(** [void set_bk(word loc)] *)
Definition set_bk (loc : Z) (s : sim) : sim :=
  let s1 := with_breakpoints ({[loc]} ∪ breakpoints s) (breakpoints_set s) s in
  with_breakpoints (breakpoints s1) ({[loc]} ∪ breakpoints_set s1) s1.

(** [void cancel_bk(word loc)]: [erase] only when [count(loc) > 0]. *)
Definition cancel_bk (loc : Z) (s : sim) : sim :=
  let s1 := with_breakpoints (breakpoints s ∖ {[loc]}) (breakpoints_set s) s in
  if bool_decide (loc ∈ breakpoints_set s1)
  then with_breakpoints (breakpoints s1) (breakpoints_set s1 ∖ {[loc]}) s1
  else s1.

(** [void cancel_all_bk()] *)
Definition cancel_all_bk (s : sim) : sim :=
  let s1 := with_breakpoints ∅ (breakpoints_set s) s in
  with_breakpoints (breakpoints s1) ∅ s1.

(** [void clear_count()] *)
Definition clear_count (s : sim) : sim := with_count 0 s.

(** The array [breakpoints] and the set [breakpoints_set] agree. *)
Definition bk_consistent (s : sim) : Prop := breakpoints s = breakpoints_set s.

Lemma wf_set_bk loc s : wf s -> wf (set_bk loc s).
Proof. intros. unfold set_bk. cbn zeta. auto with lc3. Qed.

Lemma wf_cancel_bk loc s : wf s -> wf (cancel_bk loc s).
Proof. intros. unfold cancel_bk. cbn zeta. case_bool_decide; auto with lc3. Qed.

Lemma wf_cancel_all_bk s : wf s -> wf (cancel_all_bk s).
Proof. intros. unfold cancel_all_bk. cbn zeta. auto with lc3. Qed.

Lemma wf_clear_count s : wf s -> wf (clear_count s).
Proof. intros. apply wf_with_count; [done | unfold INT_MAX; lia]. Qed.

#[export] Hint Resolve wf_set_bk wf_cancel_bk wf_cancel_all_bk wf_clear_count : lc3.

(** The breakpoint commands only edit the two breakpoint fields. *)
Lemma cancel_bk_fields loc s :
  breakpoints (cancel_bk loc s) = breakpoints s ∖ {[loc]} /\
  breakpoints_set (cancel_bk loc s) = breakpoints_set s ∖ {[loc]} /\
  with_breakpoints ∅ ∅ (cancel_bk loc s) = with_breakpoints ∅ ∅ s.
Proof.
  unfold cancel_bk. cbn zeta. simpl. case_bool_decide; simpl; [done|].
  split_and!; [done | | done]. symmetry. by apply difference_singleton_notin.
Qed.

Lemma set_bk_fields loc s :
  breakpoints (set_bk loc s) = {[loc]} ∪ breakpoints s /\
  breakpoints_set (set_bk loc s) = {[loc]} ∪ breakpoints_set s /\
  with_breakpoints ∅ ∅ (set_bk loc s) = with_breakpoints ∅ ∅ s.
Proof. done. Qed.

Lemma with_breakpoints_eq s : with_breakpoints (breakpoints s) (breakpoints_set s) s = s.
Proof. by destruct s. Qed.

(** Two states with the same breakpoint fields and equal elsewhere are equal. *)
Lemma sim_eq_breakpoints s t :
  with_breakpoints ∅ ∅ s = with_breakpoints ∅ ∅ t ->
  breakpoints s = breakpoints t -> breakpoints_set s = breakpoints_set t -> s = t.
Proof. destruct s, t. simpl. intros H -> ->. by injection H as -> -> -> -> -> -> -> -> -> -> -> -> ->. Qed.

(** ** Properties *)

(** the fuel only bounds the model of [run()]: a run that
    stopped (or crashed) within its fuel gives the same result with any
    more fuel. *)
Theorem run_more_fuel fuel m keys s :
  ended (run step_over fuel keys s) -> run step_over (fuel + m) keys s = run step_over fuel keys s.
Proof. apply run_loop_mono. Qed.

(** C10: [run()] stops at the latest in the step that polls ESC:
    if the [k]-th key is ESC, the run has ended within [k + 1] steps. *)
Theorem run_stops_on_esc k keys s :
  keys k = Some ESC -> ended (run step_over (S k) keys s).
Proof. intros Hk. apply (run_loop_esc step_over k); [done | lia]. Qed.

(** C12: [run(i)] executes at most [i] instructions: the
    counter grows by at most [max(i, 0)]. *)
Theorem run_count_bound i keys s t :
  final_state (run_count step_over i keys s) = Some t ->
  HistoryCount s <= HistoryCount t <= HistoryCount s + Z.max i 0.
Proof.
  intros Ht. apply run_loop_count in Ht; [|apply _]. simpl in Ht.
  lia.
Qed.

(** C11: a run keeps [wf] and does not touch the breakpoints. *)
Theorem run_invariant fuel keys s t :
  wf s -> final_state (run step_over fuel keys s) = Some t ->
  wf t /\ breakpoints t = breakpoints s /\ breakpoints_set t = breakpoints_set s.
Proof.
  intros Hs Ht.
  apply (run_loop_invariant step_over
    (fun u => wf u /\ breakpoints u = breakpoints s /\ breakpoints_set u = breakpoints_set s)
    fuel keys 0 (with_status Normal s) t); [| by split; auto with lc3 | done].
  intros key u u' (Hu & Hb & Hbs) Hstep.
  destruct (stepper_breakpoints key u u' Hstep) as [Hb' Hbs'].
  split; [by eapply stepper_wf | split; congruence].
Qed.

(** C15: [set_bk], [cancel_bk] and [cancel_all_bk] keep the
    breakpoint array and the breakpoint set in agreement. *)
Theorem breakpoint_commands_consistent loc s :
  bk_consistent s ->
  bk_consistent (set_bk loc s) /\ bk_consistent (cancel_bk loc s) /\ bk_consistent (cancel_all_bk s).
Proof.
  unfold bk_consistent. intros H.
  destruct (cancel_bk_fields loc s) as (C1 & C2 & _).
  split_and!; [by rewrite !(proj1 (set_bk_fields loc s)), (proj1 (proj2 (set_bk_fields loc s))), H
              | by rewrite C1, C2, H | done].
Qed.

(** (spec 8, last bullet) the breakpoint commands are
    idempotent, and cancelling a breakpoint that was never set changes
    nothing. *)
Theorem breakpoint_commands_idempotent loc s :
  set_bk loc (set_bk loc s) = set_bk loc s /\
  cancel_bk loc (cancel_bk loc s) = cancel_bk loc s /\
  cancel_all_bk (cancel_all_bk s) = cancel_all_bk s /\
  (loc ∉ breakpoints s -> loc ∉ breakpoints_set s -> cancel_bk loc s = s).
Proof.
  destruct (cancel_bk_fields loc s) as (C1 & C2 & C3).
  destruct (cancel_bk_fields loc (cancel_bk loc s)) as (D1 & D2 & D3).
  split_and!.
  - apply sim_eq_breakpoints; [done | |]; simpl; apply union_singleton_idem.
  - apply sim_eq_breakpoints; [congruence | |]; rewrite ?D1, ?D2, ?C1, ?C2;
      apply difference_singleton_idem.
  - done.
  - intros H1 H2. apply sim_eq_breakpoints; [done | |]; rewrite ?C1, ?C2;
      by apply difference_singleton_notin.
Qed.

(** ** Witnesses: a two-instruction program, [ADD R0, R0, #1] then an
    [RTI] in user mode that stops the run. *)

Definition demo_sim : sim :=
  sample_sim [0; 0; 0; 0; 0; 0; 0; 0] 0x3000 0x8002 (<[0x3000 := 0x1021]> (<[0x3001 := 0x8000]> ∅)).

Lemma run_more_fuel_witness :
  ended (run step_over 3 (fun _ => None) demo_sim) /\
  run step_over (3 + 5) (fun _ => None) demo_sim = run step_over 3 (fun _ => None) demo_sim.
Proof.
  assert (H : ended (run step_over 3 (fun _ => None) demo_sim)) by (vm_compute; exact I).
  split; [exact H | exact (run_more_fuel 3 5 (fun _ => None) demo_sim H)].
Defined.

(** A program that never stops by itself: [BRnzp #-1] at [0x3000]. *)
Definition loop_sim : sim :=
  sample_sim [0; 0; 0; 0; 0; 0; 0; 0] 0x3000 0x8002 (<[0x3000 := 0x0fff]> ∅).

Definition esc_at (k : nat) : nat -> option Z := fun n => if (n =? k)%nat then Some ESC else None.

Lemma run_stops_on_esc_witness :
  esc_at 4 4%nat = Some ESC /\ ended (run step_over 5 (esc_at 4) loop_sim).
Proof. split; [reflexivity | apply (run_stops_on_esc 4 (esc_at 4) loop_sim); reflexivity]. Defined.

Lemma run_count_bound_witness :
  match final_state (run_count step_over 10 (fun _ => None) demo_sim) with
  | Some t => HistoryCount demo_sim <= HistoryCount t <= HistoryCount demo_sim + Z.max 10 0
  | None => False
  end.
Proof.
  destruct (final_state _) as [t|] eqn:E; [| vm_compute in E; discriminate].
  exact (run_count_bound 10 (fun _ => None) demo_sim t E).
Defined.

Lemma run_invariant_witness :
  wf demo_sim /\
  match final_state (run step_over 10 (fun _ => None) demo_sim) with
  | Some t => wf t /\ breakpoints t = breakpoints demo_sim /\ breakpoints_set t = breakpoints_set demo_sim
  | None => False
  end.
Proof.
  assert (Hw : wf demo_sim) by (apply wfb_spec; vm_compute; reflexivity).
  split; [exact Hw|].
  destruct (final_state _) as [t|] eqn:E; [| vm_compute in E; discriminate].
  exact (run_invariant 10 (fun _ => None) demo_sim t Hw E).
Defined.

Lemma breakpoint_commands_consistent_witness :
  bk_consistent demo_sim /\
  bk_consistent (set_bk 0x3001 demo_sim) /\ bk_consistent (cancel_bk 0x3001 demo_sim) /\
  bk_consistent (cancel_all_bk demo_sim).
Proof.
  assert (H : bk_consistent demo_sim) by reflexivity.
  split; [exact H | exact (breakpoint_commands_consistent 0x3001 demo_sim H)].
Defined.
