(* ===== verification/Disasm.v ===== *)
(** * Disassembly helpers ([src/lc3_simulator/sim.cpp] lines 319-492,
    863-910)

    [instr_to_asm] turns a word into the tokens the memory view prints,
    with the field printers [str_imm], [str_reg] and [str_fulhex]; [isNOP]
    is the predicate the view uses to print a word as ["NOP"].  The
    [sprintf] conversions are modelled by stdpp's [pretty] (decimal, with
    a minus sign) and a hexadecimal printer written here.

    The theorems: the immediate printer prints the two's complement
    value of the field, and different values print differently; words
    that [isNOP] labels with opcode [0000] or [1101] are no-ops of
    [process_instr], but [isNOP] also labels instructions that
    [process_instr] executes with an effect; the disassembly of opcode
    [0100] ([JSR]/[JSRR]) prints two mnemonics. *)

From stdpp Require Import pretty.
From S2P Require Import Prelude Bits Machine Instr.
From Stdlib Require Import Ascii String.

Open Scope string_scope.
Open Scope Z_scope.
Open Scope lc3_scope.

(** ** Printers *)

(** [sprintf(buf, "#%hd", v)] for a [word] [v]: the value as a signed
    [short]. *)
Definition fmt_hd (v : Z) : string := pretty (to_signed16 (wrap16 v)).

(** [std::string str_imm(word x, int _start, int _end)] *)
Definition str_imm (x start end_ : Z) : string :=
  "#" +:+ fmt_hd (sign_extend (slice x start end_) (end_ - start)).

(** [std::string str_imm(word x)] *)
Definition str_imm_word (x : Z) : string := "#" +:+ fmt_hd x.

(** [std::string str_reg(word x, int _start, int _end)] *)
Definition str_reg (x start end_ : Z) : string := "R" +:+ fmt_hd (slice x start end_).

(** The lower-case hexadecimal digits of [%hx]. *)
Definition hex_digit (d : Z) : ascii :=
  match d with
  | 0 => "0" | 1 => "1" | 2 => "2" | 3 => "3" | 4 => "4" | 5 => "5" | 6 => "6" | 7 => "7"
  | 8 => "8" | 9 => "9" | 10 => "a" | 11 => "b" | 12 => "c" | 13 => "d" | 14 => "e" | _ => "f"
  end%char.

(** [%hx] of a word: its hexadecimal digits without leading zeros ([k]
    bounds the number of digits). *)
Fixpoint hex_go (k : nat) (v : Z) (acc : string) : string :=
  match k with
  | O => acc
  | S k' =>
      let acc' := String (hex_digit (v mod 16)) acc in
      if v / 16 =? 0 then acc' else hex_go k' (v / 16) acc'
  end.

Definition fmt_hx (v : Z) : string := hex_go 4 (wrap16 v) "".

(** The field width of [%4hx]: pad with spaces on the left. *)
Definition pad_left (w : nat) (s : string) : string :=
  String.concat "" (repeat " " (w - String.length s)) +:+ s.

(** [for(int i=1;buf[i]==' ';i++) s[i]='0';] *)
Fixpoint zero_spaces (s : string) : string :=
  match s with
  | String " " r => String "0" (zero_spaces r)
  | _ => s
  end.

(** [std::string str_fulhex(word x)] *)
Definition str_fulhex (x : Z) : string := "x" +:+ zero_spaces (pad_left 4 (fmt_hx x)).

(** ** [bool isNOP(word h)] *)

Definition isNOP (h : Z) : bool :=
  match Z.shiftr h 12 with
  | 0 => Z.land h 3584 =? 0
  | 1 => if negb (bit h 5) then 0 <? Z.land h 24 else false
  | 4 => if bit h 11 then false else 0 <? Z.land h 1599
  | 5 => if negb (bit h 5) then 0 <? Z.land h 24 else false
  | 8 => negb (slice h 0 12 =? 0)
  | 9 => negb (slice h 0 6 =? 63)
  | 12 => negb (h =? 49600)
  | 13 => true
  | 15 => negb (slice h 8 12 =? 0)
  | _ => false
  end.

(** ** [std::vector<std::string> instr_to_asm(word h)] *)

Definition instr_to_asm (h : Z) : list string :=
  if isNOP h then ["NOP"] else
  match Z.shiftr h 12 with
  | 0 => [("BR" +:+ (if bit h 11 then "n" else "") +:+ (if bit h 10 then "z" else "") +:+
           (if bit h 9 then "p" else "")); str_imm h 0 9]
  | 1 => if bit h 5 then ["ADD"; str_reg h 9 12; str_reg h 6 9; str_imm h 0 5]
         else ["ADD"; str_reg h 9 12; str_reg h 6 9; str_reg h 0 3]
  | 2 => ["LD"; str_reg h 9 12; str_imm h 0 9]
  | 3 => ["ST"; str_reg h 9 12; str_imm h 0 9]
  | 4 => ["JSR"; str_reg h 9 12; str_imm h 0 9] ++
         (if bit h 11 then ["JSR"; str_imm h 0 11] else ["JSRR"; str_reg h 6 9])
  | 5 => if bit h 5 then ["AND"; str_reg h 9 12; str_reg h 6 9; str_imm h 0 5]
         else ["AND"; str_reg h 9 12; str_reg h 6 9; str_reg h 0 3]
  | 6 => ["LDR"; str_reg h 9 12; str_reg h 6 9; str_imm h 0 6]
  | 7 => ["STR"; str_reg h 9 12; str_reg h 6 9; str_imm h 0 6]
  | 8 => ["RTI"]
  | 9 => ["NOT"; str_reg h 9 12; str_reg h 6 9]
  | 10 => ["LDI"; str_reg h 9 12; str_imm h 0 9]
  | 11 => ["STI"; str_reg h 9 12; str_imm h 0 9]
  | 12 => ["RET"]
  | 13 => ["NOP"]
  | 14 => ["LEA"; str_reg h 9 12; str_imm h 0 9]
  | 15 => ["TRAP"; str_imm_word (slice h 0 8)]
  | _ => []
  end.

(** ** Lemmas *)

Lemma slice_9_12_zero h : 0 <= h -> Z.land h 3584 = 0 -> slice h 9 12 = 0.
Proof.
  intros Hh H. rewrite slice_eq by lia.
  assert (E : h mod 2 ^ 12 = h mod 2 ^ 9).
  { rewrite <- !Z.land_ones by lia.
    change (Z.ones 12) with (Z.lor (Z.ones 9) 3584). rewrite Z.land_lor_distr_r, H. apply Z.lor_0_r. }
  rewrite E. apply Z.div_small. apply Z.mod_pos_bound. lia.
Qed.

Lemma bit_5_land h : bit h 5 = negb (Z.land 32 h =? 0).
Proof. unfold bit. by rewrite Z.land_comm. Qed.

Lemma fmt_hd_word v : is_word v -> fmt_hd v = pretty (to_signed16 v).
Proof. intros. unfold fmt_hd. by rewrite wrap16_id. Qed.

(** [str_imm] prints the two's complement value of the field. *)
Lemma str_imm_spec x a b :
  0 <= a < b -> b <= 16 -> 0 <= x ->
  str_imm x a b = "#" +:+ pretty (sext_field (b - a) (slice x a b)).
Proof.
  intros Hab Hb Hx. unfold str_imm.
  pose proof (slice_range x a b ltac:(lia) Hb Hx).
  rewrite fmt_hd_word by apply sign_extend_is_word.
  rewrite to_signed16_sign_extend by lia. done.
Qed.

(** Different field values have different two's complement values. *)
Lemma sext_field_inj n x y :
  1 <= n -> 0 <= x < 2 ^ n -> 0 <= y < 2 ^ n -> sext_field n x = sext_field n y -> x = y.
Proof.
  intros Hn Hx Hy. unfold sext_field.
  assert (2 ^ n = 2 * 2 ^ (n - 1)) by (rewrite <- Z.pow_succ_r by lia; f_equal; lia).
  destruct (Z.ltb_spec x (2 ^ (n - 1))), (Z.ltb_spec y (2 ^ (n - 1))); lia.
Qed.

(** ** Properties *)

(** the immediate printer shows the two's complement value
    of the field [x[a..b)], and two words print the same immediate only
    when their fields are equal. *)
Theorem str_imm_prints_field x y a b :
  0 <= a < b -> b <= 16 -> 0 <= x -> 0 <= y ->
  str_imm x a b = "#" +:+ pretty (sext_field (b - a) (slice x a b)) /\
  (str_imm x a b = str_imm y a b -> slice x a b = slice y a b).
Proof.
  intros Hab Hb Hx Hy. rewrite !str_imm_spec by lia. split; [done|].
  intros H. injection H as H. apply (pretty_Z_inj _ _) in H.
  apply (sext_field_inj (b - a)); [lia | apply slice_range; lia | apply slice_range; lia | exact H].
Qed.

Lemma str_imm_prints_field_witness :
  str_imm 0x1fff 0 9 = "#" +:+ pretty (sext_field (9 - 0) (slice 0x1fff 0 9)) /\
  (str_imm 0x1fff 0 9 = str_imm 0x01ff 0 9 -> slice 0x1fff 0 9 = slice 0x01ff 0 9).
Proof. apply str_imm_prints_field; lia. Defined.

(** the words [isNOP] labels with opcode [0000] (a branch
    with no condition bit) or [1101] (reserved) are no-operations of
    [process_instr]. *)
Theorem isNOP_branch_reserved_noop h s :
  0 <= h -> isNOP h = true -> Z.shiftr h 12 = 0 \/ Z.shiftr h 12 = 13 ->
  process_instr h s = Some s.
Proof.
  intros Hh Hn [E|E]; unfold isNOP, process_instr in *; rewrite E in *.
  - apply Z.eqb_eq, slice_9_12_zero in Hn; [|done]. rewrite Hn. reflexivity.
  - reflexivity.
Qed.

Lemma isNOP_branch_reserved_noop_witness :
  let s := sample_sim [0; 0; 0; 0; 0; 0; 0; 0] 0x3000 0x8002 ∅ in
  process_instr 0x01ff s = Some s.
Proof. intros s. apply isNOP_branch_reserved_noop; [lia | reflexivity | left; reflexivity]. Defined.

(** C37: [isNOP] also labels as NOP every register-form [ADD]
    with a non-zero bit 3 or 4, which [process_instr] executes as an
    [ADD] (writing the destination and the condition codes): the label
    is not "no effect" (spec 4.1, No-op detection). *)
Theorem isNOP_add_executes h s :
  0 <= h -> Z.shiftr h 12 = 1 -> bit h 5 = false -> Z.land h 24 <> 0 ->
  isNOP h = true /\ process_instr h s = Some (ADD (slice h 9 12) (slice h 6 9) (slice h 0 3) s).
Proof.
  intros Hh E H5 H24. unfold isNOP, process_instr. rewrite E, H5, <- bit_5_land, H5. simpl.
  split; [|done]. apply Z.ltb_lt.
  pose proof (Z.land_nonneg h 24). lia.
Qed.

Lemma isNOP_add_executes_witness :
  let s := sample_sim [0; 0; 0; 0; 0; 0; 0; 0] 0x3000 0x8001 ∅ in
  (isNOP 0x1018 = true /\ process_instr 0x1018 s = Some (ADD 0 0 0 s)) /\
  ADD 0 0 0 s <> s.
Proof.
  intros s. split.
  - apply (isNOP_add_executes 0x1018 s); [lia | reflexivity | reflexivity | discriminate].
  - vm_compute. discriminate.
Defined.

(** the disassembly of a [JSR] word prints the mnemonic
    twice: ["JSR"], a register and a 9-bit immediate taken from the
    offset field, then ["JSR"] and the 11-bit offset. *)
Theorem instr_to_asm_jsr h :
  0 <= h -> Z.shiftr h 12 = 4 -> bit h 11 = true ->
  instr_to_asm h = ["JSR"; str_reg h 9 12; str_imm h 0 9; "JSR"; str_imm h 0 11].
Proof. intros Hh E H11. unfold instr_to_asm, isNOP. rewrite E, H11. done. Qed.

Lemma instr_to_asm_jsr_witness :
  instr_to_asm 0x4802 = ["JSR"; str_reg 0x4802 9 12; str_imm 0x4802 0 9; "JSR"; str_imm 0x4802 0 11] /\
  instr_to_asm 0x4802 = ["JSR"; "R4"; "#2"; "JSR"; "#2"].
Proof. split; [apply instr_to_asm_jsr; [lia | reflexivity | reflexivity] | vm_compute; reflexivity]. Defined.
