(* ===== verification/Loader.v ===== *)
(** * The image loader and the reset ([src/lc3_simulator/sim.cpp]
    lines 8-59, 274-317)

    [load_bin] reads an image with [fgets(buf, 18, fp)] (the count is
    [fgets_count]) into [char buf[17]] ([buf_size]), parses the first chunk as the origin and the others
    as data with [bin_to_word], checks the range, and only then writes
    memory.  The file is its text ([None] when [fopen] fails); the
    chunks [fgets] returns are computed by [fgets_all].  The result is
    [None] where the code has undefined behaviour (an empty file leaves
    [start_loc] uninitialised), otherwise the new state and the message
    the loader queues.  The one-byte overflow of [buf] by a full
    17-character chunk is shown as a theorem and otherwise not modelled
    (the byte past [buf] is assumed not to be read back).

    [initialize] zeroes the registers, memory and breakpoint array,
    sets PC, PSR, IR, the counter and the supervisor stack pointer,
    loads the operating-system image [lc3sys_mem.bin] (its text is the
    argument [os]) and fills the assembler's mnemonic table.

    The theorems: an image printed by [word_to_bin] loads back exactly
    (round trip); a rejected image leaves the state untouched; the
    empty file is undefined behaviour; every line of an image is a full
    17-character chunk, which [fgets] stores with its NUL past [buf];
    [initialize] does not clear the breakpoint set. *)

From S2P Require Import Prelude Bits Machine Control.
From Stdlib Require Import Ascii String.

Open Scope string_scope.
Open Scope Z_scope.
Open Scope lc3_scope.

(** ** [fgets] *)

(** One call of [fgets(buf, n + 1, fp)]: at most [n] characters, up to
    and including the first newline; the rest of the file. *)
Fixpoint take_line (n : nat) (s : string) : string * string :=
  match n, s with
  | O, _ => ("", s)
  | _, EmptyString => ("", "")
  | S n', String c r =>
      if Ascii.eqb c "010"%char then (String c "", r)
      else let '(l, rest) := take_line n' r in (String c l, rest)
  end.

(** The count [18] that [load_bin] passes to [fgets(buf, 18, fp)]. *)
Definition fgets_count : nat := 18.

(** The successive non-[NULL] results of [fgets(buf, 18, fp)] on a
    file; [fuel] bounds the number of calls ([String.length] of the file
    is enough, each call reading at least one character). *)
Fixpoint fgets_chunks (fuel : nat) (s : string) : list string :=
  match fuel, s with
  | O, _ => []
  | _, EmptyString => []
  | S f, _ => let '(l, rest) := take_line (fgets_count - 1) s in l :: fgets_chunks f rest
  end.

Definition fgets_all (s : string) : list string := fgets_chunks (String.length s) s.

(** ** [void load_bin(std::string filename)] *)

Inductive load_msg :=
  | Load_done            (** ["Done"] *)
  | Load_file_error      (** ["File error when opening ..."] *)
  | Load_format_error    (** ["Format error"]: [throw 99] from [bin_to_word] *)
  | Load_illegal_space.  (** ["Illegal memory space"] *)

(** [for(int i=0;i<data.size();i++) mem[start_loc+i] = data[i];] *)
Fixpoint write_words (a : Z) (ws : list Z) (s : sim) : sim :=
  match ws with
  | [] => s
  | w :: ws' => write_words (a + 1) ws' (with_mem a w s)
  end.

Definition load_bin (file : option string) (s : sim) : option (sim * load_msg) :=
  match file with
  | None => Some (s, Load_file_error)
  | Some text =>
      match fgets_all text with
      | [] => None
      | first :: rest =>
          match bin_to_word first, mapM bin_to_word rest with
          | Some start_loc, Some data =>
              if Z.of_nat (List.length data) + start_loc >? 0xFE00 then Some (s, Load_illegal_space)
              else Some (write_words start_loc data s, Load_done)
          | _, _ => Some (s, Load_format_error)
          end
      end
  end.

(** The text of an image: one [word_to_bin] line per word. *)
Fixpoint image_lines (ws : list Z) : string :=
  match ws with
  | [] => ""
  | w :: ws' => word_to_bin w +:+ String "010"%char (image_lines ws')
  end.

Definition image (start : Z) (data : list Z) : string := image_lines (start :: data).

(** [char buf[17];] *)
Definition buf_size : nat := 17.

(** ** Lemmas on the text format *)

Lemma string_length_app (p q : string) : String.length (p +:+ q) = (String.length p + String.length q)%nat.
Proof. induction p; simpl; auto. Qed.

Lemma take_line_word_loop x i k m r :
  take_line (k + S m) (word_to_bin_loop x i k +:+ String "010"%char r) =
  (word_to_bin_loop x i k +:+ String "010"%char "", r).
Proof.
  revert i. induction k as [|k IH]; intros i; [done|].
  simpl. rewrite IH. by destruct (0 <? _).
Qed.

Lemma take_line_word x r :
  take_line (fgets_count - 1) (word_to_bin x +:+ String "010"%char r) = (word_to_bin x +:+ String "010"%char "", r).
Proof. apply (take_line_word_loop x 0 16 0 r). Qed.

Lemma image_lines_length ws : String.length (image_lines ws) = (17 * List.length ws)%nat.
Proof.
  induction ws as [|w ws IH]; [done|]. cbn [image_lines List.length].
  rewrite string_length_app, word_to_bin_length. cbn [String.length]. rewrite IH. lia.
Qed.

Lemma fgets_chunks_image f ws :
  (List.length ws <= f)%nat ->
  fgets_chunks f (image_lines ws) = map (fun w => word_to_bin w +:+ String "010"%char "") ws.
Proof.
  revert f. induction ws as [|w ws IH]; intros f Hf.
  - by destruct f.
  - destruct f as [|f]; [simpl in Hf; lia|].
    assert (E : exists c t, word_to_bin w +:+ String "010"%char (image_lines ws) = String c t).
    { unfold word_to_bin. simpl. eauto. }
    destruct E as (c & t & E). cbn [image_lines]. rewrite E. cbn [fgets_chunks].
    rewrite <- E, take_line_word. cbn [map]. rewrite IH by (simpl in Hf; lia). done.
Qed.

Lemma fgets_all_image ws :
  fgets_all (image_lines ws) = map (fun w => word_to_bin w +:+ String "010"%char "") ws.
Proof. apply fgets_chunks_image. rewrite image_lines_length. lia. Qed.

Lemma char_at_app p q i : (i < String.length p)%nat -> char_at (p +:+ q) i = char_at p i.
Proof. intros Hi. unfold char_at. by rewrite <- append_correct1. Qed.

Lemma bin_to_word_loop_app p q i k ret :
  (i + k <= String.length p)%nat -> bin_to_word_loop (p +:+ q) i k ret = bin_to_word_loop p i k ret.
Proof.
  revert i ret. induction k as [|k IH]; intros i ret Hk; [done|]. simpl.
  rewrite char_at_app by lia. by rewrite !IH by lia.
Qed.

Lemma bin_to_word_unfold t : bin_to_word t = bin_to_word_loop t 0 16 0.
Proof. reflexivity. Qed.

Lemma bin_to_word_line x q : is_word x -> bin_to_word (word_to_bin x +:+ q) = Some x.
Proof.
  intros Hx. rewrite !bin_to_word_unfold, bin_to_word_loop_app by (rewrite word_to_bin_length; lia).
  rewrite <- bin_to_word_unfold. by apply word_to_bin_parses.
Qed.

Lemma mapM_bin_to_word_lines ws :
  Forall is_word ws -> mapM bin_to_word (map (fun w => word_to_bin w +:+ String "010"%char "") ws) = Some ws.
Proof.
  induction 1 as [|w ws Hw _ IH]; [done|]. simpl. rewrite bin_to_word_line by done.
  simpl. by rewrite IH.
Qed.

(** What [write_words] leaves in memory. *)
Lemma mem_read_write_words a ws s x :
  mem_read (write_words a ws s) x =
  if decide (a <= x < a + Z.of_nat (List.length ws)) then nth (Z.to_nat (x - a)) ws 0 else mem_read s x.
Proof.
  revert a s. induction ws as [|w ws IH]; intros a s; simpl.
  - case_decide; [lia | done].
  - rewrite IH, mem_read_with_mem.
    repeat case_decide; try lia; try done.
    + replace (Z.to_nat (x - a)) with (S (Z.to_nat (x - (a + 1)))) by lia. done.
    + subst. by replace (Z.to_nat (x - x)) with O by lia.
Qed.

Lemma write_words_frame a ws s :
  (forall r, reg (write_words a ws s) r = reg s r) /\ PC (write_words a ws s) = PC s /\
  PSR (write_words a ws s) = PSR s /\ breakpoints (write_words a ws s) = breakpoints s /\
  breakpoints_set (write_words a ws s) = breakpoints_set s /\
  sim_status (write_words a ws s) = sim_status s /\ HistoryCount (write_words a ws s) = HistoryCount s.
Proof.
  revert a s. induction ws as [|w ws IH]; intros a s; [done|]. simpl.
  destruct (IH (a + 1) (with_mem a w s)) as (H1 & H2 & H3 & H4 & H5 & H6 & H7).
  split_and!; [intros r; rewrite H1 | rewrite H2 | rewrite H3 | rewrite H4 | rewrite H5 | rewrite H6 | rewrite H7];
    by sim_simpl.
Qed.

Lemma wf_write_words a ws s :
  wf s -> is_word a -> Forall is_word ws -> a + Z.of_nat (List.length ws) <= word_modulus ->
  wf (write_words a ws s).
Proof.
  intros Hs Ha Hws. revert a s Hs Ha. induction Hws as [|w ws Hw _ IH]; intros a s Hs Ha Hlen; [done|].
  simpl in *. destruct (decide (ws = [])) as [->|Hne]; simpl; [auto with lc3|].
  apply IH; [auto with lc3 | | lia].
  destruct ws; [done|]. simpl in Hlen. unfold is_word in *. lia.
Qed.

Lemma bin_to_word_loop_word t i k ret v :
  is_word ret -> bin_to_word_loop t i k ret = Some v -> is_word v.
Proof.
  revert i ret. induction k as [|k IH]; intros i ret Hr; simpl; [by intros [= <-]|].
  repeat case_match; [apply IH; auto with lc3 | by apply IH | done].
Qed.

Lemma bin_to_word_word t v : bin_to_word t = Some v -> is_word v.
Proof. apply bin_to_word_loop_word. unfold is_word, word_modulus. lia. Qed.

Lemma mapM_bin_to_word_words ts vs : mapM bin_to_word ts = Some vs -> Forall is_word vs.
Proof.
  revert vs. induction ts as [|t ts IH]; intros vs; simpl; [by intros [= <-]|].
  destruct (bin_to_word t) as [v|] eqn:E; simpl; [|done].
  destruct (mapM bin_to_word ts) as [vs'|]; simpl; [|done].
  intros [= <-]. constructor; [by eapply bin_to_word_word | by apply IH].
Qed.

(** The outcome of [load_bin] on a readable file, case by case. *)
Lemma load_bin_cases text s r :
  load_bin (Some text) s = Some r ->
  r = (s, Load_format_error) \/ r = (s, Load_illegal_space) \/
  exists start_loc data, r = (write_words start_loc data s, Load_done) /\
    is_word start_loc /\ Forall is_word data /\ Z.of_nat (List.length data) + start_loc <= 0xFE00.
Proof.
  unfold load_bin. destruct (fgets_all text) as [|first rest]; [done|].
  destruct (bin_to_word first) as [start|] eqn:E1, (mapM bin_to_word rest) as [data|] eqn:E2;
    try (intros [= <-]; auto; fail).
  destruct (_ >? _) eqn:E3; intros H; injection H as <-; [auto|].
  right; right. exists start, data. split_and!; [done | by eapply bin_to_word_word |
    by eapply mapM_bin_to_word_words | lia].
Qed.

Lemma wf_load_bin file s s' m : wf s -> load_bin file s = Some (s', m) -> wf s'.
Proof.
  intros Hs H. destruct file as [text|]; [|by injection H as <-].
  destruct (load_bin_cases text s (s', m) H) as [E|[E|(a & d & E & Ha & Hd & Hlen)]];
    injection E as -> ->; try done.
  apply wf_write_words; [done | done | done | unfold word_modulus; lia].
Qed.

Lemma load_bin_frame file s s' m :
  load_bin file s = Some (s', m) ->
  (forall r, reg s' r = reg s r) /\ PC s' = PC s /\ PSR s' = PSR s /\ breakpoints s' = breakpoints s /\
  breakpoints_set s' = breakpoints_set s /\ sim_status s' = sim_status s /\ HistoryCount s' = HistoryCount s.
Proof.
  intros H. destruct file as [text|]; [|by injection H as <-].
  destruct (load_bin_cases text s (s', m) H) as [E|[E|(a & d & E & _)]];
    injection E as -> ->; [done | done | apply write_words_frame].
Qed.

(** ** [void initialize()] *)

(** The [asm_map[...] = ...] assignments of lines 29-58, in order. *)
Definition asm_table : list (string * Z) :=
  [("BR", 30); ("BRp", 31); ("BRz", 32); ("BRzp", 33); ("BRn", 34); ("BRnp", 35); ("BRnz", 36);
   ("BRnzp", 37); ("ADD", 1); ("LD", 2); ("ST", 3); ("JSR", 4); ("JSRR", 40); ("AND", 5);
   ("LDR", 6); ("STR", 7); ("RTI", 8); ("NOT", 9); ("LDI", 10); ("STI", 11); ("RET", 12);
   ("LEA", 14); ("TRAP", 15); (".FILL", 20); (".BLKW", 21); (".STRINGZ", 22); (".ORIG", 23);
   (".END", 24); ("~SKIP", 25)].

Definition fill_asm_map (m : gmap string Z) : gmap string Z :=
  fold_left (fun acc kv => <[kv.1 := kv.2]> acc) asm_table m.

(** [initialize()]: the [memset]s of [gen_reg], [mem] and [breakpoints]
    (not [breakpoints_set]), the status, PC, PSR, IR and counter, then
    [load_os()] (the text [os] of [lc3sys_mem.bin]), [Saved_SSP] and the
    mnemonic table. *)
Definition initialize (os : option string) (s : sim) : option sim :=
  let s1 := mk_sim ∅ (PC s) (MAR s) (MDR s) (IR s) (PSR s) (Saved_USP s) (Saved_SSP s) ∅
              (sim_status s) ∅ (breakpoints_set s) (HistoryCount s) (asm_map s) (console s) in
  let s2 := with_status Normal s1 in
  let s3 := with_PC 0x3000 s2 in
  let s4 := with_PSR 0x8002 s3 in
  let s5 := with_IR 0 s4 in
  let s6 := with_count 0 s5 in
  '(s7, _) ← load_bin os s6;
  let s8 := with_SSP 0x1000 s7 in
  Some (with_asm_map (fill_asm_map (asm_map s8)) s8).

(** ** Properties *)

(** C13: (spec 6) an image printed with [word_to_bin] (the
    origin line, then one line per word) loads back: the words land at
    the origin and after it, and no other memory cell, register or the
    PC changes. *)
Theorem load_bin_image start data s :
  is_word start -> Forall is_word data -> start + Z.of_nat (List.length data) <= 0xFE00 ->
  exists s', load_bin (Some (image start data)) s = Some (s', Load_done) /\
    (forall a, mem_read s' a =
       if decide (start <= a < start + Z.of_nat (List.length data))
       then nth (Z.to_nat (a - start)) data 0 else mem_read s a) /\
    (forall r, reg s' r = reg s r) /\ PC s' = PC s.
Proof.
  intros Hs Hd Hlen. unfold load_bin, image. rewrite fgets_all_image. cbn [map].
  rewrite bin_to_word_line, mapM_bin_to_word_lines by done.
  replace (_ >? _) with false by lia.
  eexists; split; [reflexivity|].
  destruct (write_words_frame start data s) as (H1 & H2 & _).
  split; [intros a; apply mem_read_write_words | done].
Qed.

Lemma load_bin_image_witness :
  exists s', load_bin (Some (image 0x3000 [0x1021; 0xf025])) demo_sim = Some (s', Load_done) /\
    (forall a, mem_read s' a =
       if decide (0x3000 <= a < 0x3000 + Z.of_nat (List.length [0x1021; 0xf025]))
       then nth (Z.to_nat (a - 0x3000)) [0x1021; 0xf025] 0 else mem_read demo_sim a) /\
    (forall r, reg s' r = reg demo_sim r) /\ PC s' = PC demo_sim.
Proof.
  apply load_bin_image; [| repeat constructor | simpl]; unfold is_word, word_modulus; lia.
Defined.

(** C14: (spec 7) a rejected image ([Format error] or
    [Illegal memory space]) leaves the whole state as it was: the
    loader parses every line and checks the range before it writes. *)
Theorem load_bin_rejected_untouched text s s' m :
  load_bin (Some text) s = Some (s', m) -> m <> Load_done -> s' = s.
Proof.
  intros H Hm. destruct (load_bin_cases text s (s', m) H) as [E|[E|(a & d & E & _)]];
    injection E; congruence.
Qed.

Lemma load_bin_rejected_untouched_witness :
  load_bin (Some "0011000000000000
00010x0000100001") demo_sim = Some (demo_sim, Load_format_error) /\ Load_format_error <> Load_done /\
  demo_sim = demo_sim.
Proof.
  assert (H : load_bin (Some "0011000000000000
00010x0000100001") demo_sim = Some (demo_sim, Load_format_error)) by (vm_compute; reflexivity).
  split; [exact H | split; [discriminate | exact (load_bin_rejected_untouched _ _ _ _ H ltac:(discriminate))]].
Defined.

(** (spec 8) an image whose origin plus word count exceeds
    [0xFE00] is rejected with [Illegal memory space] and nothing is
    written. *)
Theorem load_bin_range_error start data s :
  is_word start -> Forall is_word data -> start + Z.of_nat (List.length data) > 0xFE00 ->
  load_bin (Some (image start data)) s = Some (s, Load_illegal_space).
Proof.
  intros Hs Hd Hlen. unfold load_bin, image. rewrite fgets_all_image. cbn [map].
  rewrite bin_to_word_line, mapM_bin_to_word_lines by done.
  by replace (_ >? _) with true by lia.
Qed.

Lemma load_bin_range_error_witness :
  load_bin (Some (image 0xFDFF [0; 0])) demo_sim = Some (demo_sim, Load_illegal_space).
Proof. apply load_bin_range_error; [| repeat constructor | simpl]; unfold is_word, word_modulus; lia. Defined.

(** C36: on an image, every chunk the [fgets(buf, 18, fp)] loop of
    [load_bin] reads is a whole line of 17 characters (16 digits and the
    newline), one per word, which [fgets] stores with its terminating
    NUL: 18 bytes into the 17 of [char buf[17]]. *)
Theorem fgets_line_overflows ws :
  List.length (fgets_all (image_lines ws)) = List.length ws /\
  Forall (fun chunk => String.length chunk = 17%nat /\ (String.length chunk + 1 > buf_size)%nat)
    (fgets_all (image_lines ws)).
Proof.
  rewrite fgets_all_image, length_map. split; [done|].
  apply List.Forall_forall. intros c Hc. apply in_map_iff in Hc as (w & <- & _).
  rewrite string_length_app, word_to_bin_length. unfold buf_size. cbn [String.length]. lia.
Qed.

Lemma initialize_spec os s s' :
  initialize os s = Some s' ->
  exists s7 m, load_bin os (with_count 0 (with_IR 0 (with_PSR 0x8002 (with_PC 0x3000 (with_status Normal
    (mk_sim ∅ (PC s) (MAR s) (MDR s) (IR s) (PSR s) (Saved_USP s) (Saved_SSP s) ∅
       (sim_status s) ∅ (breakpoints_set s) (HistoryCount s) (asm_map s) (console s))))))) = Some (s7, m) /\
    s' = with_asm_map (fill_asm_map (asm_map s7)) (with_SSP 0x1000 s7).
Proof.
  unfold initialize. cbn zeta.
  destruct (load_bin _ _) as [[s7 m]|] eqn:E; simpl; [|done].
  intros H%(inj Some). eauto.
Qed.

Lemma wf_initialize os s s' : wf s -> initialize os s = Some s' -> wf s'.
Proof.
  intros Hs H. apply initialize_spec in H as (s7 & m & E & ->).
  apply wf_with_asm_map, wf_with_SSP; [|unfold is_word, word_modulus; lia].
  eapply wf_load_bin; [|exact E].
  destruct Hs; split; simpl; try done; try (unfold is_word, word_modulus, INT_MAX; lia);
    unfold regs_wf, mem_wf; apply map_Forall_empty.
Qed.

(** C16: [initialize] gives a well-formed machine with R0-R7 zero,
    PC [0x3000], a user-mode PSR [0x8002], a normal status, a zero
    counter, the supervisor stack at [0x1000] and an empty breakpoint
    array, whatever the state before (the operating-system image aside,
    which it loads). *)
Theorem initialize_resets os s s' :
  wf s -> initialize os s = Some s' ->
  wf s' /\ (forall r, reg s' r = 0) /\ PC s' = 0x3000 /\ PSR s' = 0x8002 /\ sim_status s' = Normal /\
  HistoryCount s' = 0 /\ Saved_SSP s' = 0x1000 /\ breakpoints s' = ∅.
Proof.
  intros Hs H. split; [exact (wf_initialize os s s' Hs H) |].
  apply initialize_spec in H as (s7 & m & E & ->).
  destruct (load_bin_frame _ _ _ _ E) as (F1 & F2 & F3 & F4 & _ & F6 & F7).
  split_and!; simpl; done.
Qed.

Lemma initialize_resets_witness :
  wf demo_sim /\
  match initialize None demo_sim with
  | Some s' => wf s' /\ (forall r, reg s' r = 0) /\ PC s' = 0x3000 /\ PSR s' = 0x8002 /\
      sim_status s' = Normal /\ HistoryCount s' = 0 /\ Saved_SSP s' = 0x1000 /\ breakpoints s' = ∅
  | None => False
  end.
Proof.
  assert (Hw : wf demo_sim) by (apply wfb_spec; vm_compute; reflexivity).
  split; [exact Hw |].
  destruct (initialize None demo_sim) as [s'|] eqn:E; [| vm_compute in E; discriminate].
  exact (initialize_resets None demo_sim s' Hw E).
Defined.

(** C17: [initialize] clears the breakpoint array but not
    [breakpoints_set]: after a reset with breakpoints set, the set still
    lists them while execution no longer stops there. *)
Theorem initialize_keeps_breakpoint_set os s s' :
  initialize os s = Some s' ->
  breakpoints s' = ∅ /\ breakpoints_set s' = breakpoints_set s /\
  (breakpoints_set s <> ∅ -> ~ bk_consistent s').
Proof.
  intros H. apply initialize_spec in H as (s7 & m & E & ->).
  destruct (load_bin_frame _ _ _ _ E) as (_ & _ & _ & F4 & F5 & _).
  simpl. rewrite F4, F5. simpl. split_and!; [done | done |].
  unfold bk_consistent. simpl. rewrite F4, F5. simpl. intros Hne Heq. by apply Hne.
Qed.

Lemma initialize_keeps_breakpoint_set_witness :
  match initialize None (set_bk 0x3000 demo_sim) with
  | Some s' => breakpoints s' = ∅ /\ breakpoints_set s' = breakpoints_set (set_bk 0x3000 demo_sim) /\
      (breakpoints_set (set_bk 0x3000 demo_sim) <> ∅ -> ~ bk_consistent s')
  | None => False
  end.
Proof.
  destruct (initialize None (set_bk 0x3000 demo_sim)) as [s'|] eqn:E; [| vm_compute in E; discriminate].
  exact (initialize_keeps_breakpoint_set None _ s' E).
Defined.
