(* ===== verification/Cmd.v ===== *)
(** * The command interpreter ([src/lc3_simulator/sim.cpp] lines
    566-591, 598-790; [src/lc3_simulator/main.cpp] lines 16-86)

    [to_word] converts a command argument with [sscanf] ([%hx] after an
    [x], [%hd] after a [#] or without prefix); [set_value] writes a
    register, a memory word or the PC; [cmd] splits a command line with
    [operator>>] and dispatches on its first word; the loop of [main]
    reads lines with [cin.getline(cmdstr, 50)] and runs [cmd] on each.

    [sscanf] is modelled by the rules of the C standard for [%d] and
    [%x]: leading white space is skipped, an empty input is an input
    failure ([EOF]), the longest prefix of an optionally signed
    (hexadecimal: optionally [0x]-prefixed) digit string is converted,
    no digit is a matching failure, and a value the [short] or
    [unsigned short] cannot represent is undefined behaviour.  A C++
    exception ([throw 98]) is the value [Thrown 98]; undefined
    behaviour, including the use of an uninitialised [vv], is [None].

    The message stream [message] is display output and is not modelled;
    what [cmd] returns is.  [cmd] is written in a section over the file
    system (the contents [fopen] reads for a name) and the assembler,
    which [Asm] models (it requires this file): the theorems about [cmd]
    hold for any assembler that keeps [wf], and [Asm.assembler_wf]
    shows that [Asm.assembler] does. *)

From stdpp Require Import pretty.
From S2P Require Import Prelude Bits Machine Instr Interrupt Device Step Control Disasm Loader.
From Stdlib Require Import Ascii String.

Open Scope string_scope.
Open Scope Z_scope.
Open Scope lc3_scope.

(** ** Characters *)

(** [isspace] in the C locale: space, [\t], [\n], [\v], [\f], [\r]. *)
Definition is_space (c : ascii) : bool :=
  let n := nat_of_ascii c in (n =? 32)%nat || ((9 <=? n)%nat && (n <=? 13)%nat).

(** [str[0]] of a [std::string]: the terminating NUL of an empty one. *)
Definition first_char (s : string) : ascii :=
  match s with String c _ => c | EmptyString => "000"%char end.

(** [str.c_str() + 1] of a non-empty string. *)
Definition drop1 (s : string) : string :=
  match s with String _ r => r | EmptyString => EmptyString end.

Fixpoint skip_ws (s : string) : string :=
  match s with
  | String c r => if is_space c then skip_ws r else s
  | EmptyString => EmptyString
  end.

Definition char_code (c : ascii) : Z := Z.of_nat (nat_of_ascii c).

Definition dec_digit_val (c : ascii) : option Z :=
  let n := char_code c in if (48 <=? n) && (n <=? 57) then Some (n - 48) else None.

Definition hex_digit_val (c : ascii) : option Z :=
  let n := char_code c in
  if (48 <=? n) && (n <=? 57) then Some (n - 48)
  else if (97 <=? n) && (n <=? 102) then Some (n - 87)
  else if (65 <=? n) && (n <=? 70) then Some (n - 55)
  else None.

(** ** [sscanf] *)

(** The longest run of digits at the front of [s], accumulated onto
    [acc], and the number of digits read. *)
Fixpoint scan_digits (dig : ascii -> option Z) (base : Z) (s : string) (acc : Z) (n : nat) : Z * nat :=
  match s with
  | String c r =>
      match dig c with
      | Some d => scan_digits dig base r (base * acc + d) (S n)
      | None => (acc, n)
      end
  | EmptyString => (acc, n)
  end.

(** The outcome of one [%d] or [%x] conversion. *)
Inductive scan := Scanned (v : Z) | Matching_failure | Input_failure.

Definition scan_sign (s : string) : bool * string :=
  match s with
  | String c r => if Ascii.eqb c "-" then (true, r) else if Ascii.eqb c "+" then (false, r) else (false, s)
  | EmptyString => (false, s)
  end.

Definition signed (neg : bool) (v : Z) : Z := if neg then - v else v.

(** [%d] *)
Definition scan_d (s : string) : scan :=
  match skip_ws s with
  | EmptyString => Input_failure
  | t =>
      let '(neg, u) := scan_sign t in
      let '(v, n) := scan_digits dec_digit_val 10 u 0 0 in
      if (n =? 0)%nat then Matching_failure else Scanned (signed neg v)
  end.

(** The optional [0x] or [0X] of [%x]. *)
Definition skip_0x (s : string) : string :=
  match s with
  | String z (String x r) =>
      if Ascii.eqb z "0" && (Ascii.eqb x "x" || Ascii.eqb x "X") then r else s
  | _ => s
  end.

(** [%x] *)
Definition scan_x (s : string) : scan :=
  match skip_ws s with
  | EmptyString => Input_failure
  | t =>
      let '(neg, u) := scan_sign t in
      let '(v, n) := scan_digits hex_digit_val 16 (skip_0x u) 0 0 in
      if (n =? 0)%nat then Matching_failure else Scanned (signed neg v)
  end.

(** Storing the converted value through [%hd] (a [short]) or [%hx] (an
    [unsigned short]): a value the type cannot hold is undefined. *)
Definition hd_value (v : Z) : option Z :=
  if (-32768 <=? v) && (v <=? 32767) then Some (wrap16 v) else None.

Definition hx_value (v : Z) : option Z :=
  if (0 <=? v) && (v <=? 65535) then Some v else None.

(** ** [word to_word(std::string str)] *)

(** A C++ computation that returns or throws. *)
Inductive thrown (A : Type) := Returned (a : A) | Thrown (code : Z).
Arguments Returned {A} a.
Arguments Thrown {A} code.

(** [if(sscanf(...)==0) throw 98; return vv;]: an [EOF] result returns
    the uninitialised [vv]. *)
Definition convert (r : scan) (store : Z -> option Z) : option (thrown Z) :=
  match r with
  | Scanned v => Returned <$> store v
  | Matching_failure => Some (Thrown 98)
  | Input_failure => None
  end.

Definition to_word (str : string) : option (thrown Z) :=
  if Ascii.eqb (first_char str) "x" then convert (scan_x (drop1 str)) hx_value
  else if Ascii.eqb (first_char str) "#" then convert (scan_d (drop1 str)) hd_value
  else convert (scan_d str) hd_value.

(** ** [void set_value(std::string t, std::string v)] *)

(** [vv] after the [try]: the converted value, or [None] when
    [to_word] threw and [vv] was left uninitialised. *)
Definition caught_value (r : thrown Z) : option Z :=
  match r with Returned w => Some w | Thrown _ => None end.

Definition set_value (t v : string) (s : sim) : option sim :=
  r ← to_word v;
  let write (f : Z -> sim) : option sim := w ← caught_value r; Some (f w) in
  if Ascii.eqb (first_char t) "R" then
    if (String.length t =? 2)%nat then
      let regn := char_code (first_char (drop1 t)) - 48 in
      if (0 <=? regn) && (regn <=? 7) then write (fun w => with_reg regn w s) else Some s
    else Some s
  else if Ascii.eqb (first_char t) "x" then
    if (String.length t =? 5)%nat then
      match scan_x (drop1 t) with
      | Scanned m => memn ← hx_value m; write (fun w => with_mem memn w s)
      | _ => Some s
      end
    else Some s
  else if String.eqb t "PC" then write (fun w => with_PC w s)
  else Some s.

(** ** [bool cmd(char str[])] *)

(** [operator>>] on a [std::stringstream]: skip white space, then read
    up to the next white space.  [None] when no word is left (the target
    string is then left as it was: empty). *)
Fixpoint word_chars (s : string) : string * string :=
  match s with
  | String c r => if is_space c then (EmptyString, s) else let '(w, r') := word_chars r in (String c w, r')
  | EmptyString => (EmptyString, EmptyString)
  end.

Definition extract (s : string) : option (string * string) :=
  match skip_ws s with
  | EmptyString => None
  | t => Some (word_chars t)
  end.

(** The words of a line, in order; [fuel] bounds their number. *)
Fixpoint words_go (fuel : nat) (s : string) : list string :=
  match fuel with
  | O => []
  | S f => match extract s with Some (w, r) => w :: words_go f r | None => [] end
  end.

Definition words (s : string) : list string := words_go (String.length s) s.

(** The [n]-th word read by [strm >> p], the empty string once the
    stream is exhausted. *)
Definition arg (ws : list string) (n : nat) : string := default EmptyString (ws !! n).

(** [s[0]=='n'], then [while(s[i]=='n'&&i<s.size()) i++; if(i==s.size())]. *)
Definition all_n (s : string) : bool := forallb (fun c => Ascii.eqb c "n") (list_ascii_of_string s).

(** What [cmd] did. *)
Inductive cmd_result :=
  | Cmd_ok (ret : bool) (s : sim)   (** [cmd] returned [ret] *)
  | Cmd_out_of_fuel (s : sim)       (** [run()] had not stopped when the fuel ran out *)
  | Cmd_undefined.                  (** undefined behaviour *)

Definition of_option (r : option sim) : cmd_result :=
  match r with Some s => Cmd_ok true s | None => Cmd_undefined end.

(** [word v1; try { v1 = to_word(p1); } catch(int ex) { ...; return false; }] *)
Definition with_word (p : string) (k : Z -> cmd_result) (s : sim) : cmd_result :=
  match to_word p with
  | None => Cmd_undefined
  | Some (Thrown _) => Cmd_ok false s
  | Some (Returned v) => k v
  end.

(** [run()]: a run that used up its fuel has not stopped yet. *)
Definition run_cmd (r : run_result) : cmd_result :=
  match r with Stopped s => Cmd_ok true s | Finished s => Cmd_out_of_fuel s | Crashed => Cmd_undefined end.

(** [run(i)]: the loop ends after [i] steps. *)
Definition run_count_cmd (r : run_result) : cmd_result :=
  match r with Stopped s | Finished s => Cmd_ok true s | Crashed => Cmd_undefined end.

(** The name [load_os] opens. *)
Definition os_file : string := "lc3sys_mem.bin".

Section Interpreter.

(** The contents of the file [fopen] opens for each name ([None]: it
    cannot be opened), and [Simulator::assembler] (see [Asm]). *)
Context (files : string -> option string) (assembler : string -> string -> sim -> option sim).

(** [cmd(str)], the keys of a [run] being [keys] and its fuel [fuel]. *)
Definition cmd (fuel : nat) (keys : nat -> option Z) (line : string) (s : sim) : cmd_result :=
  let ws := words line in
  let c := arg ws 0 in
  let p1 := arg ws 1 in
  let p2 := arg ws 2 in
  if String.eqb c "loadbin" then of_option (fst <$> load_bin (files p1) s)
  else if String.eqb c "setvalue" || String.eqb c "setv" || String.eqb c "sv" then
    of_option (set_value p1 p2 s)
  else if String.eqb c "run" then run_cmd (run step_over fuel keys s)
  else if String.eqb c "setbk" || String.eqb c "sbk" then with_word p1 (fun v => Cmd_ok true (set_bk v s)) s
  else if String.eqb c "showmem" || String.eqb c "smm" then
    if bool_decide (1 < List.length ws)%nat then with_word p1 (fun _ => Cmd_ok true s) s else Cmd_ok true s
  else if String.eqb c "cancelbk" || String.eqb c "cbk" then
    with_word p1 (fun v => Cmd_ok true (cancel_bk v s)) s
  else if String.eqb c "cancelallbk" || String.eqb c "cabk" then Cmd_ok true (cancel_all_bk s)
  else if String.eqb c "savemem" then with_word p1 (fun _ => with_word p2 (fun _ => Cmd_ok true s) s) s
  else if String.eqb c "stepover" || String.eqb c "n" then of_option (step_over (keys O) s)
  else if Ascii.eqb (first_char c) "n" then
    if all_n c then run_count_cmd (run_count step_over (Z.of_nat (String.length c)) keys s)
    else Cmd_ok false s
  else if String.eqb c "select" || String.eqb c "w" then Cmd_ok true (with_status Select s)
  else if String.eqb c "asm" || String.eqb c "assemble" then of_option (assembler p1 p2 s)
  else if String.eqb c "exit" then Cmd_ok true (with_status Exit s)
  else if String.eqb c "help" then Cmd_ok true s
  else if String.eqb c "reset" then of_option (initialize (files os_file) s)
  else if String.eqb c "clearcount" || String.eqb c "cc" then Cmd_ok true (clear_count s)
  else Cmd_ok false s.

(** ** The loop of [main] *)

(** [cin]: the lines still to be typed, and whether the stream has
    failed (a failed stream stays failed: nothing clears it). *)
Record input := mk_input { pending : list string; failed : bool }.

(** [cin.getline(cmdstr, 50)]: a line of 50 characters or more does not
    fit [char cmdstr[50]] with its NUL and sets [failbit], as does the
    end of the input. *)
Definition getline (i : input) : option string * input :=
  if failed i then (None, i)
  else match pending i with
       | [] => (None, mk_input [] true)
       | l :: ls => if bool_decide (50 <= String.length l)%nat then (None, mk_input ls true)
                    else (Some l, mk_input ls false)
       end.

Inductive main_result :=
  | Main_exit (s : sim)              (** [break] on [Exit] *)
  | Main_running (s : sim) (i : input) (** the fuel ran out, the loop goes on *)
  | Main_undefined.

(** One pass of [while(true)]: the [n]-th command runs with the keys
    [keys n] and the fuel [rf] for [run()].  The select mode loop only
    moves the display cursor until ESC, which sets the status back to
    [Normal]; after ESC interrupted a program one more line is read and
    dropped. *)
Fixpoint main_loop (fuel rf : nat) (keys : nat -> nat -> option Z) (n : nat) (i : input) (s : sim)
    : main_result :=
  match fuel with
  | O => Main_running s i
  | S f =>
      match getline i with
      | (None, i') => main_loop f rf keys (S n) i' s
      | (Some l, i') =>
          match cmd rf (keys n) l s with
          | Cmd_undefined => Main_undefined
          | Cmd_out_of_fuel s' => Main_running s' i'
          | Cmd_ok false s' => main_loop f rf keys (S n) i' s'
          | Cmd_ok true s' =>
              match sim_status s' with
              | Exit => Main_exit s'
              | Select => main_loop f rf keys (S n) i' (with_status Normal s')
              | User_Interrupt => main_loop f rf keys (S n) (getline i').2 s'
              | _ => main_loop f rf keys (S n) i' s'
              end
          end
      end
  end.

End Interpreter.

(** ** Lemmas *)

Lemma hd_value_word v w : hd_value v = Some w -> is_word w.
Proof. unfold hd_value. case_match; [intros Hv%(inj Some); subst; apply wrap16_is_word | done]. Qed.

Lemma hx_value_word v w : hx_value v = Some w -> is_word w.
Proof.
  unfold hx_value. case_match eqn:E; [|done]. intros Hv%(inj Some); subst.
  apply andb_true_iff in E as [E1 E2]. apply Z.leb_le in E1, E2. unfold is_word, word_modulus. lia.
Qed.

Lemma convert_word r store w :
  (forall v x, store v = Some x -> is_word x) -> convert r store = Some (Returned w) -> is_word w.
Proof.
  intros Hs. destruct r as [v| |]; simpl; try done.
  destruct (store v) eqn:E; simpl; [|done]. intros Hv%(inj Some). injection Hv as <-. eauto.
Qed.

(** What [to_word] returns is a word. *)
Lemma to_word_word str w : to_word str = Some (Returned w) -> is_word w.
Proof. unfold to_word. repeat case_match; apply convert_word; eauto using hd_value_word, hx_value_word. Qed.

Lemma caught_value_word str r w : to_word str = Some r -> caught_value r = Some w -> is_word w.
Proof. destruct r; simpl; [intros E Hv%(inj Some); subst; eauto using to_word_word | done]. Qed.

Lemma wf_set_value t v s s' : wf s -> set_value t v s = Some s' -> wf s'.
Proof.
  intros Hs. unfold set_value.
  destruct (to_word v) as [r|] eqn:Ev; simpl; [|done].
  destruct (caught_value r) as [w|] eqn:Ec; simpl;
    [pose proof (caught_value_word v r w Ev Ec) as Hw|];
    repeat case_match; simpl; intros Hset;
    try (destruct (hx_value _) as [m|] eqn:Em; simpl in Hset); simplify_eq; try done.
  - apply wf_with_reg; [done | | done]. unfold is_reg.
    match goal with Hb : (_ && _) = true |- _ => apply andb_true_iff in Hb as [H1 H2] end.
    apply Z.leb_le in H1, H2. lia.
  - apply wf_with_mem; eauto using hx_value_word.
  - by apply wf_with_PC.
Qed.

(** The state a command leaves, or the state a [run] that ran out of
    fuel has reached, is well formed. *)
Definition cmd_wf (r : cmd_result) : Prop :=
  match r with Cmd_ok _ s | Cmd_out_of_fuel s => wf s | Cmd_undefined => True end.

Lemma of_option_wf r : (forall s', r = Some s' -> wf s') -> cmd_wf (of_option r).
Proof. destruct r; simpl; auto. Qed.

Lemma with_word_wf p k s : wf s -> (forall v, is_word v -> cmd_wf (k v)) -> cmd_wf (with_word p k s).
Proof. intros Hs Hk. unfold with_word. destruct (to_word p) as [[v|]|] eqn:E; simpl; eauto using to_word_word. Qed.

Lemma final_state_wf fuel keys s t :
  wf s -> final_state (run_loop step_over fuel keys 0 (with_status Normal s)) = Some t -> wf t.
Proof.
  intros Hs. apply (run_loop_invariant step_over wf).
  - intros key u u' Hu Hstep. exact (stepper_wf key u u' Hu Hstep).
  - by apply wf_with_status.
Qed.

Lemma run_cmd_wf fuel keys s : wf s -> cmd_wf (run_cmd (run step_over fuel keys s)).
Proof.
  intros Hs. unfold run. destruct (run_loop _ _ _ _ _) as [t|t|] eqn:E; simpl; try done;
    apply (final_state_wf fuel keys s t Hs); by rewrite E.
Qed.

Lemma run_count_cmd_wf i keys s : wf s -> cmd_wf (run_count_cmd (run_count step_over i keys s)).
Proof.
  intros Hs. unfold run_count. destruct (run_loop _ _ _ _ _) as [t|t|] eqn:E; simpl; try done;
    apply (final_state_wf (Z.to_nat i) keys s t Hs); by rewrite E.
Qed.

Lemma wf_load_bin_state file s s' : wf s -> fst <$> load_bin file s = Some s' -> wf s'.
Proof.
  intros Hs. destruct (load_bin file s) as [[t m]|] eqn:E; simpl; [|done].
  intros Hv%(inj Some). subst. by eapply wf_load_bin.
Qed.

Section Invariant.
Context (files : string -> option string) (assembler : string -> string -> sim -> option sim).
Hypothesis assembler_wf : forall p1 p2 s s', wf s -> assembler p1 p2 s = Some s' -> wf s'.

(** One step of the proof that a command keeps [wf]. *)
Ltac cmd_wf_step :=
  lazymatch goal with
  | |- cmd_wf (with_word _ _ _) => apply with_word_wf; [done | intros ? ?]
  | |- cmd_wf (of_option _) => apply of_option_wf; intros ? ?
  | |- cmd_wf (run_cmd _) => apply run_cmd_wf; done
  | |- cmd_wf (run_count_cmd _) => apply run_count_cmd_wf; done
  | |- cmd_wf (Cmd_ok _ _) => cbn [cmd_wf]
  end.

Lemma wf_cmd fuel keys line s : wf s -> cmd_wf (cmd files assembler fuel keys line s).
Proof.
  intros Hs. unfold cmd. repeat case_match; repeat cmd_wf_step;
    match goal with
    | H : set_value _ _ _ = Some _ |- _ => exact (wf_set_value _ _ _ _ Hs H)
    | H : initialize _ _ = Some _ |- _ => exact (wf_initialize _ _ _ Hs H)
    | H : step_over _ _ = Some _ |- _ => exact (wf_step_over _ _ _ Hs H)
    | H : fst <$> load_bin _ _ = Some _ |- _ => exact (wf_load_bin_state _ _ _ Hs H)
    | H : assembler _ _ _ = Some _ |- _ => exact (assembler_wf _ _ _ _ Hs H)
    | |- _ => auto with lc3
    end.
Qed.

(** What the loop of [main] has reached is well formed. *)
Definition main_wf (r : main_result) : Prop :=
  match r with Main_exit s | Main_running s _ => wf s | Main_undefined => True end.

(** C18: every state the loop of [main] reaches, whatever the
    commands typed, the files loaded and the keys pressed, is well
    formed: its registers and memory hold 16-bit words (for any
    assembler that keeps [wf]). *)
Theorem main_loop_keeps_wf fuel rf keys n i s :
  wf s -> main_wf (main_loop files assembler fuel rf keys n i s).
Proof.
  revert n i s. induction fuel as [|f IH]; intros n i s Hs; cbn [main_loop]; [done|].
  destruct (getline i) as [[l|] i']; [|by apply IH].
  pose proof (wf_cmd rf (keys n) l s Hs) as Hc.
  destruct (cmd _ _ _ _ _ _) as [[|] s'| s'|]; cbn [cmd_wf main_wf] in *; try done; [|by apply IH].
  destruct (sim_status s'); try apply IH; auto with lc3.
Qed.

End Invariant.

(** ** The hexadecimal text of a word *)

(** The four digits [str_fulhex] prints. *)
Definition hex4 (w : Z) : string :=
  String (hex_digit (w / 4096)) (String (hex_digit (w / 256 mod 16))
    (String (hex_digit (w / 16 mod 16)) (String (hex_digit (w mod 16)) EmptyString))).

(** What the scanner needs to know of a printed hexadecimal digit. *)
Lemma hex_digit_scan d :
  0 <= d < 16 ->
  hex_digit_val (hex_digit d) = Some d /\ is_space (hex_digit d) = false /\
  Ascii.eqb (hex_digit d) "-" = false /\ Ascii.eqb (hex_digit d) "+" = false /\
  Ascii.eqb (hex_digit d) "x" = false /\ Ascii.eqb (hex_digit d) "X" = false /\
  (forall r, zero_spaces (String (hex_digit d) r) = String (hex_digit d) r).
Proof.
  intros Hd. rewrite <- (Z2Nat.id d) by lia.
  assert (Hn : (Z.to_nat d < 16)%nat) by lia. revert Hn. generalize (Z.to_nat d) as n. intros n Hn.
  do 16 (destruct n as [|n]; [split_and!; reflexivity|]). lia.
Qed.

(** The padding of [%4hx] turned into zeros, for one to four digits. *)
Lemma zero_pad_1 x :
  zero_spaces (pad_left 4 (String x EmptyString)) = String "0" (String "0" (String "0" (zero_spaces (String x EmptyString)))).
Proof. reflexivity. Qed.

Lemma zero_pad_2 x y :
  zero_spaces (pad_left 4 (String x (String y EmptyString))) =
  String "0" (String "0" (zero_spaces (String x (String y EmptyString)))).
Proof. reflexivity. Qed.

Lemma zero_pad_3 x y z :
  zero_spaces (pad_left 4 (String x (String y (String z EmptyString)))) =
  String "0" (zero_spaces (String x (String y (String z EmptyString)))).
Proof. reflexivity. Qed.

Lemma zero_pad_4 x y z u :
  pad_left 4 (String x (String y (String z (String u EmptyString)))) = String x (String y (String z (String u EmptyString))).
Proof. reflexivity. Qed.

(** [str_fulhex] prints all four digits, the leading zeros included. *)
Lemma str_fulhex_hex4 w : is_word w -> str_fulhex w = String "x" (hex4 w).
Proof.
  intros Hw. unfold str_fulhex, fmt_hx, hex4. rewrite wrap16_id by done.
  assert (E : w = 16 * (16 * (16 * (w / 4096) + w / 256 mod 16) + w / 16 mod 16) + w mod 16) by zlia.
  assert (Ha : 0 <= w / 4096 < 16) by zlia.
  assert (Hb : 0 <= w / 256 mod 16 < 16) by zlia.
  assert (Hc : 0 <= w / 16 mod 16 < 16) by zlia.
  assert (Hd : 0 <= w mod 16 < 16) by zlia.
  revert E Ha Hb Hc Hd. generalize (w / 4096) (w / 256 mod 16) (w / 16 mod 16) (w mod 16).
  intros a b c d -> Ha Hb Hc Hd.
  destruct (hex_digit_scan d Hd) as (_ & _ & _ & _ & _ & _ & Zd).
  destruct (hex_digit_scan c Hc) as (_ & _ & _ & _ & _ & _ & Zc).
  destruct (hex_digit_scan b Hb) as (_ & _ & _ & _ & _ & _ & Zb).
  destruct (hex_digit_scan a Ha) as (_ & _ & _ & _ & _ & _ & Za).
  cbn [hex_go].
  repeat match goal with
  | |- context [(16 * ?x + ?y) mod 16] => replace ((16 * x + y) mod 16) with y by zlia
  | |- context [(16 * ?x + ?y) / 16] => replace ((16 * x + y) / 16) with x by zlia
  end.
  destruct (Z.eqb_spec (16 * (16 * a + b) + c) 0).
  { assert (a = 0 /\ b = 0 /\ c = 0) as (-> & -> & ->) by lia. rewrite zero_pad_1, Zd. reflexivity. }
  destruct (Z.eqb_spec (16 * a + b) 0).
  { assert (a = 0 /\ b = 0) as (-> & ->) by lia. rewrite zero_pad_2, Zc. reflexivity. }
  destruct (Z.eqb_spec a 0).
  { subst a. rewrite zero_pad_3, Zb. reflexivity. }
  replace (a mod 16) with a by zlia. replace (a / 16 =? 0) with true by zlia.
  rewrite zero_pad_4, Za. reflexivity.
Qed.

Lemma skip_ws_cons c r : is_space c = false -> skip_ws (String c r) = String c r.
Proof. intros H. cbn [skip_ws]. by rewrite H. Qed.

Lemma scan_sign_cons c r :
  Ascii.eqb c "-" = false -> Ascii.eqb c "+" = false -> scan_sign (String c r) = (false, String c r).
Proof. intros H1 H2. cbn [scan_sign]. by rewrite H1, H2. Qed.

Lemma skip_0x_cons c c' r :
  Ascii.eqb c' "x" = false -> Ascii.eqb c' "X" = false -> skip_0x (String c (String c' r)) = String c (String c' r).
Proof. intros H1 H2. cbn [skip_0x]. by rewrite H1, H2, andb_false_r. Qed.

Lemma scan_digits_cons dig base c r acc n d :
  dig c = Some d -> scan_digits dig base (String c r) acc n = scan_digits dig base r (base * acc + d) (S n).
Proof. intros H. cbn [scan_digits]. by rewrite H. Qed.

(** The scanner reads the four digits back. *)
Lemma scan_x_hex4 w : is_word w -> scan_x (hex4 w) = Scanned w.
Proof.
  intros Hw. unfold hex4.
  assert (E : w = 16 * (16 * (16 * (w / 4096) + w / 256 mod 16) + w / 16 mod 16) + w mod 16) by zlia.
  assert (Ha : 0 <= w / 4096 < 16) by zlia.
  assert (Hb : 0 <= w / 256 mod 16 < 16) by zlia.
  assert (Hc : 0 <= w / 16 mod 16 < 16) by zlia.
  assert (Hd : 0 <= w mod 16 < 16) by zlia.
  revert E Ha Hb Hc Hd. generalize (w / 4096) (w / 256 mod 16) (w / 16 mod 16) (w mod 16).
  intros a b c d -> Ha Hb Hc Hd.
  destruct (hex_digit_scan a Ha) as (Va & Sa & Ma & Pa & _).
  destruct (hex_digit_scan b Hb) as (Vb & _ & _ & _ & Xb & XXb & _).
  destruct (hex_digit_scan c Hc) as (Vc & _).
  destruct (hex_digit_scan d Hd) as (Vd & _).
  unfold scan_x. rewrite skip_ws_cons, scan_sign_cons, skip_0x_cons by done.
  rewrite (scan_digits_cons _ _ _ _ _ _ a), (scan_digits_cons _ _ _ _ _ _ b),
    (scan_digits_cons _ _ _ _ _ _ c), (scan_digits_cons _ _ _ _ _ _ d) by done.
  cbn. reflexivity.
Qed.

(** [cmd] on a line, once the words of the line are known. *)
Lemma cmd_step_over files assembler fuel keys s :
  cmd files assembler fuel keys "n" s = of_option (step_over (keys O) s) /\
  cmd files assembler fuel keys "stepover" s = of_option (step_over (keys O) s).
Proof. split; reflexivity. Qed.

(** The register names [R0] ... [R7], one case each. *)
Ltac reg_cases r :=
  let H := fresh in
  assert (H : r = 0 \/ r = 1 \/ r = 2 \/ r = 3 \/ r = 4 \/ r = 5 \/ r = 6 \/ r = 7) by lia;
  repeat destruct H as [->|H]; [..| subst r].

(** ** Properties *)

(** (spec 5, values) a word printed by [str_fulhex], the
    [x%4hx] form the memory view shows, reads back to itself with
    [to_word]: what the display prints can be typed back as an
    argument. *)
Theorem to_word_str_fulhex w : is_word w -> to_word (str_fulhex w) = Some (Returned w).
Proof.
  intros Hw. rewrite str_fulhex_hex4 by done. unfold to_word. cbn [first_char drop1 Ascii.eqb].
  rewrite scan_x_hex4 by done. cbn [convert]. unfold hx_value.
  rewrite (proj2 (Z.leb_le 0 w)), (proj2 (Z.leb_le w 65535)) by zlia. reflexivity.
Qed.

Lemma to_word_str_fulhex_witness : is_word 0x0a3f /\ to_word (str_fulhex 0x0a3f) = Some (Returned 0x0a3f).
Proof. split; [unfold is_word, word_modulus; lia | apply to_word_str_fulhex; unfold is_word, word_modulus; lia]. Defined.

(** [set_value] writes a recognised value into the register
    [R0]-[R7], the memory word named by its [x]-form, or the PC, and
    changes nothing else. *)
Theorem set_value_targets v w r a s :
  to_word v = Some (Returned w) -> 0 <= r < 8 -> is_word a ->
  set_value ("R" +:+ pretty r) v s = Some (with_reg r w s) /\
  set_value (str_fulhex a) v s = Some (with_mem a w s) /\
  set_value "PC" v s = Some (with_PC w s).
Proof.
  intros Hv Hr Ha. split_and!.
  - unfold set_value. rewrite Hv. cbn [mbind option_bind caught_value].
    reg_cases r; reflexivity.
  - unfold set_value. rewrite Hv, str_fulhex_hex4 by done. cbn [mbind option_bind caught_value].
    cbn [first_char drop1 Ascii.eqb String.length Nat.eqb]. rewrite scan_x_hex4 by done. unfold hx_value.
    rewrite (proj2 (Z.leb_le 0 a)), (proj2 (Z.leb_le a 65535)) by zlia. reflexivity.
  - unfold set_value. rewrite Hv. reflexivity.
Qed.

Lemma set_value_targets_witness :
  to_word "#-2" = Some (Returned 0xfffe) /\ 0 <= 3 < 8 /\ is_word 0x3000 /\
  set_value ("R" +:+ pretty 3) "#-2" demo_sim = Some (with_reg 3 0xfffe demo_sim) /\
  set_value (str_fulhex 0x3000) "#-2" demo_sim = Some (with_mem 0x3000 0xfffe demo_sim) /\
  set_value "PC" "#-2" demo_sim = Some (with_PC 0xfffe demo_sim).
Proof.
  assert (Hv : to_word "#-2" = Some (Returned 0xfffe)) by reflexivity.
  assert (Hr : 0 <= 3 < 8) by lia. assert (Ha : is_word 0x3000) by (unfold is_word, word_modulus; lia).
  exact (conj Hv (conj Hr (conj Ha (set_value_targets _ _ _ _ _ Hv Hr Ha)))).
Defined.

(** C20: when the value cannot be read ([to_word] throws
    98), [set_value] prints ["Cannot recognize"] and goes on to store
    the uninitialised [vv] into a register, memory word or the PC:
    undefined behaviour. *)
Theorem set_value_unrecognized_undefined t v s :
  to_word v = Some (Thrown 98) ->
  (t = "PC" \/ (exists r, 0 <= r < 8 /\ t = "R" +:+ pretty r) \/ (exists a, is_word a /\ t = str_fulhex a)) ->
  set_value t v s = None.
Proof.
  intros Hv Ht. unfold set_value. rewrite Hv. cbn [mbind option_bind caught_value].
  destruct Ht as [->|[(r & Hr & ->)|(a & Ha & ->)]]; [reflexivity | reg_cases r; reflexivity |].
  rewrite str_fulhex_hex4 by done.
  cbn [first_char drop1 Ascii.eqb String.length Nat.eqb]. rewrite scan_x_hex4 by done. unfold hx_value.
  rewrite (proj2 (Z.leb_le 0 a)), (proj2 (Z.leb_le a 65535)) by zlia. reflexivity.
Qed.

Lemma set_value_unrecognized_undefined_witness :
  to_word "zz" = Some (Thrown 98) /\ set_value "R0" "zz" demo_sim = None.
Proof.
  assert (Hv : to_word "zz" = Some (Thrown 98)) by reflexivity.
  split; [exact Hv|].
  apply (set_value_unrecognized_undefined "R0" "zz" demo_sim Hv). right; left. exists 0. split; [lia | reflexivity].
Defined.

(** the command [n] ([step_over()]) and the command [stepover]
    do what [run(1)] does: [run(1)] resets the status, steps once and
    stops, and [step_over] resets the status itself. *)
Theorem step_command_is_run_one files assembler fuel keys s :
  cmd files assembler fuel keys "n" s = run_count_cmd (run_count step_over 1 keys s) /\
  cmd files assembler fuel keys "stepover" s = run_count_cmd (run_count step_over 1 keys s).
Proof.
  destruct (cmd_step_over files assembler fuel keys s) as [-> ->].
  unfold run_count. change (Z.to_nat 1) with 1%nat. cbn [run_loop].
  rewrite step_over_any_status.
  destruct (step_over (keys O) s) as [t|]; [|split; reflexivity].
  cbn [of_option]. case_bool_decide; split; reflexivity.
Qed.

Lemma main_loop_keeps_wf_witness :
  wf demo_sim /\
  main_wf (main_loop (fun _ => None) (fun _ _ t => Some t) 3 10 (fun _ _ => None) O
             (mk_input ["sv R3 x10"; "n"; "exit"] false) demo_sim).
Proof.
  assert (Hw : wf demo_sim) by (apply wfb_spec; vm_compute; reflexivity).
  split; [exact Hw|].
  exact (main_loop_keeps_wf (fun _ => None) (fun _ _ t => Some t) (fun _ _ _ _ H E => match E with eq_refl => H end) 3 10 _ O _ demo_sim Hw).
Defined.

(** A failed [cin] stays failed: the loop reads nothing more. *)
Lemma main_loop_failed files assembler fuel rf keys n ls s :
  main_loop files assembler fuel rf keys n (mk_input ls true) s = Main_running s (mk_input ls true).
Proof. revert n. induction fuel as [|f IH]; intros n; [done|]. cbn [main_loop getline failed]. apply IH. Qed.

(** C19: ([main.cpp] line 26) a command line of 50 characters
    or more does not fit [cmdstr] and sets the failbit of [cin], which
    nothing clears: the loop of [main] spins on [continue], no later
    line is read, the machine never changes again and the program never
    reaches [exit]. *)
Theorem long_line_hangs files assembler fuel rf keys n l ls s :
  (50 <= String.length l)%nat ->
  main_loop files assembler (S fuel) rf keys n (mk_input (l :: ls) false) s = Main_running s (mk_input ls true).
Proof.
  intros Hl. cbn [main_loop getline failed pending]. rewrite bool_decide_eq_true_2 by done.
  apply main_loop_failed.
Qed.

Lemma long_line_hangs_witness :
  (50 <= String.length "sv R0 #1                                          ")%nat /\
  main_loop (fun _ => None) (fun _ _ t => Some t) 5 10 (fun _ _ => None) O
    (mk_input ["sv R0 #1                                          "; "exit"] false) demo_sim =
  Main_running demo_sim (mk_input ["exit"] true).
Proof.
  assert (Hl : (50 <= String.length "sv R0 #1                                          ")%nat) by (cbn; lia).
  exact (conj Hl (long_line_hangs _ _ 4 10 _ O _ _ demo_sim Hl)).
Defined.
