(* ===== verification/Isa.v ===== *)
(** * The instruction set of the specification, and its refinement by
    [process_instr] (spec 3 and 4.1)

    [isa_exec] is the opcode semantics of spec 4.1 written over an
    abstract machine [arch]: registers and memory are total functions,
    every sum wraps modulo 2^16 (spec 3), fields are read with shifts
    and immediates are sign-extended before use, and the device side
    effects of loads and stores are those of spec 4.3.  Nothing in it
    is taken from [Instr]: it is the contract the instruction members
    of [sim.h] and the [switch] of [process_instr] implement.

    [refines s a] relates a simulator state to the abstract machine it
    represents; [process_instr_refines] shows that one executed
    instruction keeps the relation, step for step with [isa_exec]: the
    concrete gmaps, [int] indices, masks and setters compute what the
    specification says.  Where [process_instr] has undefined behaviour
    ([None]: [LDI]/[STI]/[STR] out of the memory array) there is no
    concrete state to relate. *)

From S2P Require Import Prelude Bits Machine Instr.

Open Scope Z_scope.
Open Scope lc3_scope.

(** ** The abstract machine *)

Record arch := mk_arch {
  A_reg : Z -> Z;
  A_pc : Z;
  A_psr : Z;
  A_mem : Z -> Z;
  A_usp : Z;
  A_ssp : Z
}.

Definition upd (f : Z -> Z) (k v : Z) : Z -> Z := fun x => if x =? k then v else f x.

Definition set_reg (r v : Z) (a : arch) : arch :=
  mk_arch (upd (A_reg a) r v) (A_pc a) (A_psr a) (A_mem a) (A_usp a) (A_ssp a).
Definition set_pc (v : Z) (a : arch) : arch :=
  mk_arch (A_reg a) v (A_psr a) (A_mem a) (A_usp a) (A_ssp a).
Definition set_psr (v : Z) (a : arch) : arch :=
  mk_arch (A_reg a) (A_pc a) v (A_mem a) (A_usp a) (A_ssp a).
Definition set_mem (x v : Z) (a : arch) : arch :=
  mk_arch (A_reg a) (A_pc a) (A_psr a) (upd (A_mem a) x v) (A_usp a) (A_ssp a).
Definition set_ssp (v : Z) (a : arch) : arch :=
  mk_arch (A_reg a) (A_pc a) (A_psr a) (A_mem a) (A_usp a) v.

(** The [n]-bit field of an instruction starting at bit [lo]. *)
Definition field (i lo n : Z) : Z := Z.shiftr i lo mod 2 ^ n.

(** An [n]-bit immediate, sign-extended and taken modulo 2^16. *)
Definition imm (i n : Z) : Z := wrap16 (sext_field n (field i 0 n)).

(** Condition codes: clear the three low bits, set exactly one. *)
Definition cc_of (x : Z) : Z := if Z.testbit x 15 then 4 else if x =? 0 then 2 else 1.

Definition set_cc (x : Z) (a : arch) : arch := set_psr (A_psr a - A_psr a mod 8 + cc_of x) a.

Definition write_dr (dr v : Z) (a : arch) : arch := set_cc v (set_reg dr v a).

(** Device side effects (spec 4.3). *)
Definition kbd_read (ea : Z) (a : arch) : arch :=
  if ea =? KBDR_ then set_mem KBSR_ (Z.land (A_mem a KBSR_) 0x7fff) a else a.

Definition dsp_write (ea : Z) (a : arch) : arch :=
  if ea =? DDR_ then set_mem DSR_ (Z.land (A_mem a DSR_) 0x7fff) a else a.

Definition load (dr ea : Z) (a : arch) : arch :=
  let a1 := kbd_read ea a in write_dr dr (A_mem a1 ea) a1.

Definition store (sr ea : Z) (a : arch) : arch :=
  let a1 := dsp_write ea a in set_mem ea (A_reg a1 sr) a1.

(** [R7] gets the incremented PC, then the PC jumps. *)
Definition link (a : arch) : arch := set_reg 7 (A_pc a) a.

Inductive isa_result := Exec (a : arch) | Privilege_violation.

(** ** One instruction (spec 4.1, "Opcode semantics") *)

Definition isa_exec (i : Z) (a : arch) : isa_result :=
  let dr := field i 9 3 in
  let sr1 := field i 6 3 in
  let src2 := if Z.testbit i 5 then imm i 5 else A_reg a (field i 0 3) in
  let pc_ea (n : Z) := A_pc a +w imm i n in
  match field i 12 4 with
  | 0 => Exec (if Z.land dr (A_psr a mod 8) =? 0 then a else set_pc (pc_ea 9) a)
  | 1 => Exec (write_dr dr (A_reg a sr1 +w src2) a)
  | 2 => Exec (load dr (pc_ea 9) a)
  | 3 => Exec (store dr (pc_ea 9) a)
  | 4 => Exec (if Z.testbit i 11 then set_pc (pc_ea 11) (link a)
               else let a1 := link a in set_pc (A_reg a1 sr1) a1)
  | 5 => Exec (write_dr dr (Z.land (A_reg a sr1) src2) a)
  | 6 => Exec (load dr (A_reg a sr1 +w imm i 6) a)
  | 7 => Exec (store dr (A_reg a sr1 +w imm i 6) a)
  | 8 =>
      if Z.testbit (A_psr a) 15 then Privilege_violation
      else
        let sp := A_reg a 6 in
        let psr' := A_mem a (sp +w 1) in
        let a1 := set_psr psr' (set_pc (A_mem a sp) a) in
        Exec (if Z.testbit psr' 15 then set_reg 6 (A_usp a) (set_ssp (sp +w 2) a1)
              else set_reg 6 (sp +w 2) a1)
  | 9 => Exec (write_dr dr (65535 - A_reg a sr1) a)
  | 10 => Exec (load dr (A_mem a (pc_ea 9)) a)
  | 11 => Exec (store dr (A_mem a (pc_ea 9)) a)
  | 12 => Exec (set_pc (A_reg a 7) a)
  | 14 => Exec (write_dr dr (pc_ea 9) a)
  | 15 => let a1 := link a in Exec (set_pc (A_mem a1 (field i 0 8)) a1)
  | _ => Exec a
  end.

(** ** The refinement relation *)

Record refines (s : sim) (a : arch) : Prop := {
  ref_reg : forall r, is_reg r -> reg s r = A_reg a r;
  ref_pc : PC s = A_pc a;
  ref_psr : PSR s = A_psr a;
  ref_mem : forall x, is_word x -> mem_read s x = A_mem a x;
  ref_usp : Saved_USP s = A_usp a;
  ref_ssp : Saved_SSP s = A_ssp a
}.

(** ** Fields of an instruction word *)

Lemma slice_shiftr_field i lo hi : 0 <= lo <= hi -> hi <= 16 -> 0 <= i -> slice i lo hi = field i lo (hi - lo).
Proof.
  intros Hlo Hhi Hi. rewrite slice_eq by lia. unfold field. rewrite Z.shiftr_div_pow2 by lia.
  rewrite <- !Z.shiftr_div_pow2 by lia. apply Z.bits_inj'. intros k Hk.
  rewrite Z.shiftr_spec by lia.
  destruct (Z.lt_ge_cases k (hi - lo)).
  - rewrite !Z.mod_pow2_bits_low by lia. by rewrite Z.shiftr_spec by lia.
  - rewrite !Z.mod_pow2_bits_high by lia. done.
Qed.

Lemma sign_extend_imm i n : 1 <= n <= 16 -> 0 <= i -> sign_extend (slice i 0 n) n = imm i n.
Proof.
  intros Hn Hi. unfold imm. rewrite slice_shiftr_field, Z.sub_0_r by lia. apply sign_extend_spec; [lia|].
  unfold field. apply Z.mod_pos_bound. apply Z.pow_pos_nonneg; lia.
Qed.

Lemma opcode_field i : is_word i -> Z.shiftr i 12 = field i 12 4.
Proof.
  intros Hi. unfold field. rewrite Z.mod_small; [done|]. rewrite Z.shiftr_div_pow2 by lia.
  unfold is_word, word_modulus in Hi. change (2 ^ 12) with 4096. change (2 ^ 4) with 16.
  split; [apply Z.div_pos | apply Z.div_lt_upper_bound]; lia.
Qed.

Lemma land_32_testbit i : (Z.land 32 i =? 0) = negb (Z.testbit i 5).
Proof.
  rewrite Z.land_comm. change 32 with (2 ^ 5).
  destruct (Z.testbit i 5) eqn:E; simpl.
  - apply Z.eqb_neq. intros H. apply land_pow2_eq0 in H; [congruence | lia].
  - apply Z.eqb_eq, land_pow2_eq0; [lia | done].
Qed.

(** The branch mask only sees the three condition bits. *)
Lemma land_cc nzp psr : 0 <= nzp < 8 -> Z.land nzp psr = Z.land nzp (psr mod 8).
Proof.
  intros H. apply Z.bits_inj'. intros k Hk. rewrite !Z.land_spec.
  change 8 with (2 ^ 3). destruct (Z.lt_ge_cases k 3).
  - by rewrite Z.mod_pow2_bits_low by lia.
  - rewrite <- (Z.mod_small nzp (2 ^ 3)) by (change (2 ^ 3) with 8; lia).
    rewrite Z.mod_pow2_bits_high by lia. done.
Qed.

(** An [int] index that [mem] accepts is the wrapped sum. *)
Lemma is_wordb_wrap16 x : is_wordb x = true -> x = wrap16 x.
Proof. intros H. apply is_wordb_spec in H. symmetry. by apply wrap16_id. Qed.

(** ** Each setter of [sim] against its abstract counterpart *)

Section Setters.
Context (s : sim) (a : arch) (R : refines s a).

Lemma refines_with_reg r v : is_reg r -> refines (with_reg r v s) (set_reg r v a).
Proof.
  intros Hr. destruct R. split; simpl; sim_simpl; try done.
  intros r' Hr'. rewrite reg_with_reg. unfold upd. case_decide; subst.
  - by rewrite Z.eqb_refl.
  - rewrite (proj2 (Z.eqb_neq r' r)) by congruence. auto.
Qed.

Lemma refines_with_mem x v : refines (with_mem x v s) (set_mem x v a).
Proof.
  destruct R. split; simpl; sim_simpl; try done.
  intros y Hy. rewrite mem_read_with_mem. unfold upd. case_decide; subst.
  - by rewrite Z.eqb_refl.
  - rewrite (proj2 (Z.eqb_neq y x)) by congruence. auto.
Qed.

Lemma refines_with_PC v : refines (with_PC v s) (set_pc v a).
Proof. destruct R. split; simpl; sim_simpl; done. Qed.

Lemma refines_with_PSR v : refines (with_PSR v s) (set_psr v a).
Proof. destruct R. split; simpl; sim_simpl; done. Qed.

Lemma refines_with_SSP v : refines (with_SSP v s) (set_ssp v a).
Proof. destruct R. split; simpl; sim_simpl; done. Qed.

Lemma refines_with_status st : refines (with_status st s) a.
Proof. destruct R. split; simpl; sim_simpl; done. Qed.

Lemma refines_kbd_read_hook t : refines (kbd_read_hook t s) (kbd_read t a).
Proof.
  unfold kbd_read_hook, kbd_read. case_match; [|done].
  rewrite (ref_mem _ _ R KBSR_) by (unfold is_word, word_modulus, KBSR_; lia). apply refines_with_mem.
Qed.

Lemma refines_dsp_write_hook t : refines (dsp_write_hook t s) (dsp_write t a).
Proof.
  unfold dsp_write_hook, dsp_write. case_match; [|done].
  rewrite (ref_mem _ _ R DSR_) by (unfold is_word, word_modulus, DSR_; lia). apply refines_with_mem.
Qed.

Lemma refines_setcc v : is_word (PSR s) -> is_word v -> refines (setcc v s) (set_cc v a).
Proof.
  intros Hp Hv. unfold setcc, set_cc. rewrite setcc_psr_eq, bit_testbit by (done || lia).
  rewrite <- (ref_psr _ _ R). unfold cc_of.
  replace (8 * (PSR s / 8)) with (PSR s - PSR s mod 8) by (rewrite Z.mod_eq by lia; lia).
  apply refines_with_PSR.
Qed.

End Setters.

Lemma field_range i lo n : 0 <= n -> 0 <= field i lo n < 2 ^ n.
Proof. intros Hn. unfold field. apply Z.mod_pos_bound. apply Z.pow_pos_nonneg; lia. Qed.

Lemma field_reg i lo : is_reg (field i lo 3).
Proof. unfold is_reg. pose proof (field_range i lo 3). change (2 ^ 3) with 8 in *. lia. Qed.

#[local] Hint Resolve field_reg reg_is_word mem_read_is_word wrap16_is_word : lc3.

(** ** Loads, stores and the destination register *)

Lemma refines_set_dr s a dr v :
  wf s -> refines s a -> is_reg dr -> is_word v -> refines (set_dr dr v s) (write_dr dr v a).
Proof.
  intros Hs R Hdr Hv. unfold set_dr, write_dr.
  apply refines_setcc; [by apply refines_with_reg | sim_simpl; by apply wf_PSR | done].
Qed.

Lemma refines_load s a dr ea :
  wf s -> refines s a -> is_reg dr -> is_word ea ->
  refines (set_dr dr (mem_read (kbd_read_hook ea s) ea) (kbd_read_hook ea s)) (load dr ea a).
Proof.
  intros Hs R Hdr Hea. pose proof (refines_kbd_read_hook s a R ea) as R1. unfold load.
  rewrite <- (ref_mem _ _ R1 ea Hea). apply refines_set_dr; auto with lc3.
Qed.

Lemma refines_store s a sr ea :
  refines s a -> is_reg sr ->
  refines (with_mem ea (reg (dsp_write_hook ea s) sr) (dsp_write_hook ea s)) (store sr ea a).
Proof.
  intros R Hsr. pose proof (refines_dsp_write_hook s a R ea) as R1. unfold store.
  rewrite (ref_reg _ _ R1 sr Hsr). by apply refines_with_mem.
Qed.

Lemma refines_link s a : refines s a -> refines (with_reg 7 (PC s) s) (link a).
Proof. intros R. unfold link. rewrite (ref_pc _ _ R). apply refines_with_reg; [done | unfold is_reg; lia]. Qed.

(** The instruction fields, as [process_instr] reads them. *)
Ltac fields i :=
  rewrite ?(sign_extend_imm i 5), ?(sign_extend_imm i 6), ?(sign_extend_imm i 9), ?(sign_extend_imm i 11)
    by lia;
  rewrite ?(slice_shiftr_field i 9 12), ?(slice_shiftr_field i 6 9), ?(slice_shiftr_field i 0 3), ?(slice_shiftr_field i 0 8) by lia;
  change (12 - 9) with 3; change (9 - 6) with 3; change (3 - 0) with 3; change (8 - 0) with 8.

(** The indirect and base-relative accesses: an [int] index [mem]
    accepts is the wrapped address of the specification. *)
Lemma refines_LDI s a dr o s' :
  wf s -> refines s a -> is_reg dr -> LDI dr o s = Some s' ->
  refines s' (load dr (A_mem a (A_pc a +w sign_extend o 9)) a).
Proof.
  intros Hs R Hdr. unfold LDI, mem_index. destruct (is_wordb _) eqn:Eb; [|done].
  cbn [mbind option_bind]. intros H%(inj Some). subst s'.
  rewrite (is_wordb_wrap16 _ Eb), <- (ref_pc _ _ R), <- (ref_mem _ _ R) by auto with lc3.
  apply refines_load; auto with lc3.
Qed.

Lemma refines_STI s a sr o s' :
  refines s a -> is_reg sr -> STI sr o s = Some s' ->
  refines s' (store sr (A_mem a (A_pc a +w sign_extend o 9)) a).
Proof.
  intros R Hsr. unfold STI, mem_index. destruct (is_wordb _) eqn:Eb; [|done].
  cbn [mbind option_bind]. intros H%(inj Some). subst s'.
  rewrite (is_wordb_wrap16 _ Eb), <- (ref_pc _ _ R), <- (ref_mem _ _ R) by auto with lc3.
  by apply refines_store.
Qed.

Lemma refines_STR s a sr base o s' :
  refines s a -> is_reg sr -> is_reg base -> STR sr base o s = Some s' ->
  refines s' (store sr (A_reg a base +w sign_extend o 6) a).
Proof.
  intros R Hsr Hb. unfold STR, mem_store. rewrite reg_dsp_write_hook.
  destruct (is_wordb _) eqn:Eb; [|done]. intros H%(inj Some). subst s'.
  rewrite (is_wordb_wrap16 _ Eb), wrap16_wrap16, <- (ref_reg _ _ R) by done. by apply refines_store.
Qed.

(** [RTI] in supervisor mode, from the closed form [RTI_supervisor_spec]. *)
Lemma refines_RTI_supervisor s a :
  wf s -> refines s a -> PSR s < 32768 ->
  let sp := A_reg a 6 in
  let psr' := A_mem a (sp +w 1) in
  let a1 := set_psr psr' (set_pc (A_mem a sp) a) in
  refines (RTI s) (if Z.testbit psr' 15 then set_reg 6 (A_usp a) (set_ssp (sp +w 2) a1)
                   else set_reg 6 (sp +w 2) a1).
Proof.
  intros Hs R Hp. cbv zeta.
  destruct (RTI_supervisor_spec s Hs Hp) as (Hpc & Hpsr & H6 & Hssp & Husp & Hmem & Hr).
  assert (Hsp : reg s 6 = A_reg a 6) by (apply (ref_reg _ _ R); unfold is_reg; lia).
  assert (Hm : forall x, is_word x -> mem_read s x = A_mem a x) by apply (ref_mem _ _ R).
  assert (Hspw : is_word (A_reg a 6)) by (rewrite <- Hsp; auto with lc3).
  rewrite Hsp in *. rewrite Hm in Hpc, Hpsr, H6, Hssp by auto with lc3.
  assert (Hw : is_word (A_mem a (A_reg a 6 +w 1))) by (rewrite <- Hm by auto with lc3; auto with lc3).
  rewrite <- bit_testbit, bit15_word by (done || lia).
  revert H6 Hssp. destruct (32768 <=? _); intros H6 Hssp; split; simpl; try done.
  all: try (intros x Hx; unfold mem_read in Hm |- *; rewrite Hmem; by apply Hm).
  all: try (rewrite Husp; apply (ref_usp _ _ R)).
  all: try (rewrite Hssp; apply (ref_ssp _ _ R)).
  all: intros r Hr'; unfold upd; destruct (Z.eqb_spec r 6) as [->|];
    [rewrite H6; first [done | apply (ref_usp _ _ R)] | rewrite Hr by done; apply (ref_reg _ _ R); done].
Qed.

Lemma wrap16_lnot x : is_word x -> wrap16 (Z.lnot x) = 65535 - x.
Proof. intros Hx. rewrite Z.lnot_eq_pred_opp. zlia. Qed.

Lemma field_8_word i : is_word (field i 0 8).
Proof. pose proof (field_range i 0 8). change (2 ^ 8) with 256 in *. unfold is_word, word_modulus. lia. Qed.

#[local] Hint Resolve field_8_word : lc3.

(** The sixteen opcodes. *)
Lemma opcode_cases i :
  field i 12 4 = 0 \/ field i 12 4 = 1 \/ field i 12 4 = 2 \/ field i 12 4 = 3 \/
  field i 12 4 = 4 \/ field i 12 4 = 5 \/ field i 12 4 = 6 \/ field i 12 4 = 7 \/
  field i 12 4 = 8 \/ field i 12 4 = 9 \/ field i 12 4 = 10 \/ field i 12 4 = 11 \/
  field i 12 4 = 12 \/ field i 12 4 = 13 \/ field i 12 4 = 14 \/ field i 12 4 = 15.
Proof. pose proof (field_range i 12 4 ltac:(lia)) as Hop. change (2 ^ 4) with 16 in Hop. lia. Qed.

(** The abstract machine a simulator state represents. *)
Definition abstract (s : sim) : arch :=
  mk_arch (reg s) (PC s) (PSR s) (mem_read s) (Saved_USP s) (Saved_SSP s).

Lemma refines_abstract s : refines s (abstract s).
Proof. split; done. Qed.

(** Replace the abstract reads by the concrete ones they equal. *)
Ltac concrete R :=
  rewrite <- ?(ref_pc _ _ R), <- ?(ref_psr _ _ R);
  repeat match goal with
  | |- context [A_reg ?a ?r] => rewrite <- (ref_reg _ _ R r) by (auto with lc3 || (unfold is_reg; lia))
  end.

(** C3: (spec 4.1) every instruction [process_instr] executes
    refines the opcode semantics of the specification: from a state
    related to an abstract machine, the state it leaves is related to
    the abstract machine [isa_exec] computes; an [RTI] in user mode
    changes nothing but the status.  In particular the code's masks,
    [int] indices, setters and device hooks agree with the spec on
    every opcode, opcode [1100] being the spec's [RET]. *)
Theorem process_instr_refines i s a s' :
  wf s -> is_word i -> refines s a -> process_instr i s = Some s' ->
  match isa_exec i a with
  | Exec a' => refines s' a'
  | Privilege_violation => refines s' a /\ sim_status s' = Priviledge_Exception
  end.
Proof.
  intros Hs Hi R. assert (Hi0 : 0 <= i) by (unfold is_word in Hi; lia).
  unfold process_instr, isa_exec. rewrite opcode_field by done. fields i.
  pose proof (opcode_cases i) as Hc.
  rewrite land_32_testbit, negb_involutive, !bit_testbit by lia.
  repeat destruct Hc as [Hc|Hc]; rewrite Hc.
  - intros H%(inj Some). subst s'. unfold BR. fields i.
    rewrite (land_cc _ (PSR s)) by (pose proof (field_range i 9 3 ltac:(lia)); change (2 ^ 3) with 8 in *; lia).
    concrete R. destruct (_ =? 0); [done | by apply refines_with_PC].
  - intros H%(inj Some). subst s'. destruct (Z.testbit i 5); [unfold ADDimm | unfold ADD]; fields i;
      concrete R; apply refines_set_dr; auto with lc3.
  - intros H%(inj Some). subst s'. unfold LD. fields i. concrete R. apply refines_load; auto with lc3.
  - intros H%(inj Some). subst s'. unfold ST. fields i. concrete R. apply refines_store; auto with lc3.
  - intros H%(inj Some). subst s'. destruct (Z.testbit i 11); [unfold JSR | unfold JSRR]; fields i.
    + rewrite PC_with_reg. concrete R. apply refines_with_PC, refines_link, R.
    + rewrite (ref_reg _ _ (refines_link s a R)) by auto with lc3. apply refines_with_PC, refines_link, R.
  - intros H%(inj Some). subst s'. destruct (Z.testbit i 5); [unfold ANDimm | unfold AND]; fields i;
      concrete R; apply refines_set_dr; auto with lc3; apply land_is_word; auto with lc3;
      match goal with |- 0 <= ?b => assert (is_word b) by (unfold imm; auto with lc3); zlia end.
  - intros H%(inj Some). subst s'. unfold LDR. fields i. concrete R. apply refines_load; auto with lc3.
  - intros H. apply (refines_STR s a _ _ _ s' R) in H; [|auto with lc3..]. by rewrite sign_extend_imm in H by lia.
  - intros H%(inj Some). subst s'. rewrite <- (ref_psr _ _ R), <- bit_testbit by lia.
    destruct (bit (PSR s) 15) eqn:E.
    + unfold RTI. rewrite E. split; [by apply refines_with_status | done].
    + rewrite bit15_word in E by exact (wf_PSR s Hs). apply Z.leb_gt in E.
      exact (refines_RTI_supervisor s a Hs R E).
  - intros H%(inj Some). subst s'. unfold NOT. fields i. concrete R. rewrite wrap16_lnot by auto with lc3.
    apply refines_set_dr; auto with lc3. pose proof (reg_is_word s (field i 6 3) Hs). zlia.
  - intros H. apply (refines_LDI s a _ _ s' Hs R) in H; [|auto with lc3]. by rewrite sign_extend_imm in H by lia.
  - intros H. apply (refines_STI s a _ _ s' R) in H; [|auto with lc3]. by rewrite sign_extend_imm in H by lia.
  - intros H%(inj Some). subst s'. unfold RET. concrete R. by apply refines_with_PC.
  - intros H%(inj Some). by subst s'.
  - intros H%(inj Some). subst s'. unfold LEA. fields i. concrete R. apply refines_set_dr; auto with lc3.
  - intros H%(inj Some). subst s'. unfold TRAP. fields i.
    rewrite (ref_mem _ _ (refines_link s a R)) by auto with lc3. apply refines_with_PC, refines_link, R.
Qed.

Lemma process_instr_refines_witness :
  let s := sample_sim [0; 5; 0; 0; 0; 0; 0; 0] 0x3000 0x8002 ∅ in
  match process_instr 0x1261 s with
  | Some s' =>
      match isa_exec 0x1261 (abstract s) with
      | Exec a' => refines s' a'
      | Privilege_violation => refines s' (abstract s) /\ sim_status s' = Priviledge_Exception
      end
  | None => False
  end.
Proof.
  intros s. destruct (process_instr 0x1261 s) as [s'|] eqn:E; [|vm_compute in E; discriminate].
  apply (process_instr_refines 0x1261 s (abstract s) s'); [| | apply refines_abstract | exact E].
  - apply wfb_spec. vm_compute. reflexivity.
  - unfold is_word, word_modulus. lia.
Defined.
