(* ===== verification/Asm.v ===== *)
(** * The assembler ([src/lc3_simulator/sim.cpp] lines 911-1349,
    1350-1412)

    [void assembler(std::string filename, std::string ofilename)] reads
    a source file line by line ([f.getline(buf, 256)]), strips comments
    and blanks ([trim_space]), classifies each line with [asm_map]
    (label, mnemonic, operands: [split_first]), assigns addresses, builds
    the symbol table and encodes each instruction ([split], [to_reg],
    [to_word], [check_number]); when no error was counted it writes the
    origin and the words, one [word_to_bin] line each.

    The model keeps what the C++ shares between assemblies: [asm_map] is
    a member of [Simulator], and [asm_map[s]] inserts [s] when it is
    missing, so an assembly can change the next one.  The variables
    declared once at the top of the function ([pcoffset], [imm], [temp],
    [r1]-[r3]) keep their values from one line to the next: they are
    state, [None] until first assigned.  Undefined behaviour (reading
    [s[-1]] in [trim_space], an uninitialised variable, a vector index
    out of range) makes the whole run [None].  The diagnostic text is
    not modelled; the error count [errnum] is. *)

From stdpp Require Import pretty.
From S2P Require Import Prelude Bits Machine Instr Interrupt Device Step Control Disasm Loader Cmd.
From Stdlib Require Import Ascii String.

Open Scope string_scope.
Open Scope Z_scope.
Open Scope lc3_scope.

(** ** String helpers *)

Definition is_blank (c : ascii) : bool := Ascii.eqb c " " || Ascii.eqb c "009".

(** [while(s[l]==' '||s[l]=='\t')l++;] (the NUL at [s[length]] stops
    it). *)
Fixpoint lead_blanks (s : string) : nat :=
  match s with
  | String c r => if is_blank c then S (lead_blanks r) else O
  | EmptyString => O
  end.

(** [while(s[r]==' '||s[r]=='\t')r--;] from [r = length-1], as [k = r+1]:
    at [r = -1] the loop reads [s[-1]], out of the string. *)
Fixpoint trim_right (s : string) (k : nat) : option nat :=
  match k with
  | O => None
  | S k' => if is_blank (char_at s k') then trim_right s k' else Some k
  end.

(** [std::string trim_space(std::string s)]: [None] on a string of
    blanks (the empty string included). *)
Definition trim_space (s : string) : option string :=
  let l := lead_blanks s in
  k ← trim_right s (String.length s);
  Some (substring l (k - l) s).

(** [word to_reg(std::string s)]: 99 when [s] is not [R0]-[R7]. *)
Definition to_reg (s : string) : Z :=
  if (String.length s =? 2)%nat && Ascii.eqb (first_char s) "R" then
    let d := char_code (char_at s 1) - 48 in
    if (0 <=? d) && (d <=? 7) then d else 99
  else 99.

(** [std::vector<std::string> split(std::string str)]: the
    comma-separated fields, each trimmed; [fuel] bounds the number of
    commas. *)
Fixpoint split_go (fuel : nat) (str : string) (n : nat) : option (list string) :=
  match fuel, String.index n "," str with
  | S f, Some nn =>
      t ← trim_space (substring n (nn - n) str);
      ts ← split_go f str (S nn);
      Some (t :: ts)
  | _, _ => t ← trim_space (substring n (String.length str - n) str); Some [t]
  end.

Definition split (str : string) : option (list string) := split_go (String.length str) str 0.

(** [npos] is the largest index: [min] of two [find]s is the first blank
    or tab. *)
Definition first_blank (s : string) : option nat :=
  match String.index 0 "009" s, String.index 0 " " s with
  | Some a, Some b => Some (Nat.min a b)
  | Some a, None | None, Some a => Some a
  | None, None => None
  end.

(** [std::string split_first(std::string& str)]: the first word and
    the rest of the line (the reference argument). *)
Definition split_first (str : string) : option (string * string) :=
  str1 ← trim_space str;
  match first_blank str1 with
  | Some nn =>
      ret ← trim_space (substring 0 nn str1);
      rest ← trim_space (substring (S nn) (String.length str1 - nn - 1) str1);
      Some (ret, rest)
  | None => Some (str1, EmptyString)
  end.

(** ** Reading the source: [f.getline(buf, 256)] *)

(** At most [n] more characters may be stored; the characters stored,
    the rest of the file, [eofbit] and [failbit].  The three stopping
    conditions are tested in the order of the standard: end of file,
    the delimiter (extracted, not stored), [n] characters stored. *)
Fixpoint getline_go (n : nat) (t : string) {struct t} : string * string * bool * bool :=
  match t with
  | EmptyString => (EmptyString, EmptyString, true, false)
  | String c r =>
      if Ascii.eqb c "010" then (EmptyString, r, false, false)
      else match n with
           | O => (EmptyString, t, false, true)
           | S n' => let '(b, r', e, f) := getline_go n' r in (String c b, r', e, f)
           end
  end.

(** Nothing extracted at the end of the file sets [failbit] too. *)
Definition f_getline (t : string) : string * string * bool * bool :=
  match t with
  | EmptyString => (EmptyString, EmptyString, true, true)
  | _ => getline_go 255 t
  end.

(** [while(buf[ln]!='\0'&&buf[ln]!=';') ln++; buf[ln] = '\0';] *)
Fixpoint strip_comment (b : string) : string :=
  match b with
  | String c r => if Ascii.eqb c ";" || Ascii.eqb c "000" then EmptyString else String c (strip_comment r)
  | EmptyString => EmptyString
  end.

(** The reading loop: each line without its comment, trimmed.  After
    a [failbit] that is not the end of the file (a line of 256
    characters or more) the next [getline] stores an empty [buf], which
    [trim_space] cannot handle.  The line numbers kept in [line_c] only
    feed the messages. *)
Fixpoint read_source (fuel : nat) (t : string) : option (list string) :=
  match fuel with
  | O => Some []
  | S f =>
      let '(buf, rest, eof, fail) := f_getline t in
      s ← trim_space (strip_comment buf);
      if eof then Some [s]
      else if fail then (trim_space EmptyString ≫= fun _ => None)
      else ls ← read_source f rest; Some (s :: ls)
  end.

(** ** First pass: labels and mnemonics *)

(** [asm_map[s]]: the code of [s], inserting [s] with code 0 when it is
    missing. *)
Definition asm_lookup (m : gmap string Z) (s : string) : Z * gmap string Z :=
  let c := default 0 (m !! s) in (c, <[s := c]> m).

(** One line: the code of its mnemonic, its operands, its label, the
    errors it counts. *)
Definition classify_line (m : gmap string Z) (line : string) (i : nat)
    : option (Z * string * list (string * nat) * Z * gmap string Z) :=
  '(s, ss) ← split_first line;
  '(s', ss', sym, err) ←
    (if bool_decide (is_Some (m !! s)) then Some (s, ss, [], 0)
     else if String.eqb ss EmptyString then Some ("~SKIP", ss, [(s, i)], 0)
     else '(s2, ss2) ← split_first ss;
          Some (s2, ss2, [(s, i)], if bool_decide (is_Some (m !! s2)) then 0 else 1));
  let '(code, m') := asm_lookup m s' in
  Some (code, ss', sym, err, m').

Fixpoint classify (ls : list string) (i : nat) (m : gmap string Z)
    : option (list (Z * string) * list (string * nat) * Z * gmap string Z) :=
  match ls with
  | [] => Some ([], [], 0, m)
  | line :: ls' =>
      '(code, ps, sym, err, m') ← classify_line m line i;
      '(items, syms, errs, m'') ← classify ls' (S i) m';
      Some ((code, ps) :: items, app sym syms, err + errs, m'')
  end.

(** ** Second pass: addresses *)

(** [try { x = to_word(...); } catch(int ex) { errnum++; }]: the new
    value of [x], and the errors counted. *)
Definition caught (r : thrown Z) (x : option Z) : option Z :=
  match r with Returned v => Some v | Thrown _ => x end.

Definition caught_err (r : thrown Z) : Z :=
  match r with Returned _ => 0 | Thrown _ => 1 end.

(** [s[0]='"'&&s[s.length()-1]=='"']: an assignment, then the test of
    the last character of the assigned string. *)
Definition stringz_ok (s : string) : bool :=
  let s' := String "034" (substring 1 (String.length s - 1) s) in
  Ascii.eqb (char_at s' (String.length s' - 1)) "034".

(** The loop [for(int i = 1; i<instr_n; i++)] from line [i] at address
    [caddr]: the addresses pushed ([addr[i-1]] first), the error count,
    and the index of [.END] ([None]: the pass ends at [goto Abort]). *)
Fixpoint assign_go (items : list (Z * string)) (i : nat) (caddr : Z) (temp : option Z) (err : Z)
    : option (list Z * Z * option nat) :=
  match items with
  | [] => Some ([], err + 1, None)
  | (code, p) :: rest =>
      let next caddr' temp' err' :=
        '(addrs, e, fin) ← assign_go rest (S i) caddr' temp' err';
        Some (caddr :: addrs, e, fin) in
      if code =? 21 then
        r ← to_word p;
        let temp' := caught r temp in let e1 := caught_err r in
        t ← temp';
        next (caddr +w t) temp' (err + e1)
      else if code =? 22 then
        s ← trim_space p;
        if stringz_ok s then next (wrap16 (caddr + Z.of_nat (String.length s) - 2)) temp err
        else next caddr temp (err + 1)
      else if code =? 25 then next caddr temp err
      else if code =? 24 then Some ([caddr], err, Some i)
      else if code =? 23 then Some ([caddr], err + 1, None)
      else next (caddr +w 1) temp err
  end.

(** ** Third pass: the symbol table *)

(** [symmap[syms[i]] = addr[symloc[i]]]; [true] when a label is defined
    twice, where the code jumps to [Abort] before its [errnum++]. *)
Fixpoint resolve (syms : list (string * nat)) (addrs : list Z) (tab : gmap string Z)
    : option (gmap string Z * bool) :=
  match syms with
  | [] => Some (tab, false)
  | (l, loc) :: rest =>
      if bool_decide (is_Some (tab !! l)) then Some (tab, true)
      else a ← addrs !! loc; resolve rest addrs (<[l := a]> tab)
  end.

(** ** Fourth pass: encoding *)

(** What one line does to the function's state: the words it pushes on
    [bin], the errors it counts, the new [pcoffset] and [imm], and
    whether it jumps to [Abort]. *)
Record line_out := mk_line_out {
  lo_words : list Z;
  lo_err : Z;
  lo_pcoffset : option Z;
  lo_imm : option Z;
  lo_abort : bool
}.

(** [symmap.find(p)!=symmap.end() ? symmap[p]-addr[i]-1 : to_word(p)],
    assigned to a word. *)
Definition operand (tab : gmap string Z) (addr_i : option Z) (p : string) : option (thrown Z) :=
  match tab !! p with
  | Some v => a ← addr_i; Some (Returned (wrap16 (v - a - 1)))
  | None => to_word p
  end.

Definition count (b : bool) : Z := if b then 1 else 0.

(** [bin.push_back(params[i][j])]: a [char] (signed on the x86 targets
    of the project) converted to a word. *)
Definition char_word (c : ascii) : Z :=
  let n := Z.of_nat (nat_of_ascii c) in wrap16 (if 128 <=? n then n - 256 else n).

(** A line that ends with [break]. *)
Definition out (ws : list Z) (e : Z) (pcoffset imm : option Z) : option line_out :=
  Some (mk_line_out ws e pcoffset imm false).

(** The [switch(instr[i])] of the encoding loop, case by case. *)
Definition encode_line (tab : gmap string Z) (addr_i : option Z) (code : Z) (p : string)
    (pcoffset imm : option Z) : option line_out :=
  if (30 <=? code) && (code <=? 37) then
    r ← operand tab addr_i p;
    let pc' := caught r pcoffset in let e1 := caught_err r in
    x ← pc';
    if check_number x 9 then out [wrap16 (Z.shiftl (code - 30) 9 + slice x 0 9)] e1 pc' imm
    else out [] (e1 + 1) pc' imm
  else if (code =? 1) || (code =? 5) then
    ps ← split p;
    let e1 := count (negb (List.length ps =? 3)%nat) in
    p0 ← ps !! 0%nat; p1 ← ps !! 1%nat; p2 ← ps !! 2%nat;
    let r1 := to_reg p0 in let r2 := to_reg p1 in let r3 := to_reg p2 in
    if (r1 <=? 7) && (r2 <=? 7) then
      if r3 <=? 7 then
        out [wrap16 (Z.shiftl code 12 + Z.shiftl r1 9 + Z.shiftl r2 6 + r3)] e1 pcoffset imm
      else
        r ← to_word p2;
        let imm' := caught r imm in let e2 := caught_err r in
        x ← imm';
        if check_number x 5 then
          out [wrap16 (Z.shiftl code 12 + Z.shiftl r1 9 + Z.shiftl r2 6 + Z.shiftl 1 5 + slice x 0 5)]
            (e1 + e2) pcoffset imm'
        else out [] (e1 + e2) pcoffset imm'
    else out [] (e1 + 1) pcoffset imm
  else if (code =? 2) || (code =? 3) || (code =? 14) then
    ps ← split p;
    let e1 := count (negb (List.length ps =? 2)%nat) in
    p0 ← ps !! 0%nat;
    let r1 := to_reg p0 in
    let e2 := count (7 <? r1) in
    p1 ← ps !! 1%nat;
    r ← operand tab addr_i p1;
    let pc' := caught r pcoffset in let e3 := caught_err r in
    x ← pc';
    if check_number x 9 then
      out [wrap16 (Z.shiftl code 12 + Z.shiftl r1 9 + slice x 0 9)] (e1 + e2 + e3) pc' imm
    else out [] (e1 + e2 + e3 + 1) pc' imm
  else if (code =? 6) || (code =? 7) || (code =? 10) || (code =? 11) then
    ps ← split p;
    let e1 := count (negb (List.length ps =? 3)%nat) in
    p0 ← ps !! 0%nat; p1 ← ps !! 1%nat;
    let r1 := to_reg p0 in let r2 := to_reg p1 in
    let e2 := count ((7 <? r1) || (7 <? r2)) in
    p2 ← ps !! 2%nat;
    r ← operand tab addr_i p2;
    let pc' := caught r pcoffset in let e3 := caught_err r in
    x ← pc';
    if check_number x 6 then
      out [wrap16 (Z.shiftl code 12 + Z.shiftl r1 9 + Z.shiftl r2 6 + slice x 0 6)] (e1 + e2 + e3) pc' imm
    else out [] (e1 + e2 + e3 + 1) pc' imm
  else if code =? 9 then
    ps ← split p;
    if negb (List.length ps =? 2)%nat then Some (mk_line_out [] 1 pcoffset imm true)
    else
      p0 ← ps !! 0%nat; p1 ← ps !! 1%nat;
      let r1 := to_reg p0 in let r2 := to_reg p1 in
      if (7 <? r1) || (7 <? r2) then Some (mk_line_out [] 1 pcoffset imm true)
      else out [wrap16 (Z.shiftl code 12 + Z.shiftl r1 9 + Z.shiftl r2 6 + (Z.shiftl 1 6 - 1))] 0 pcoffset imm
  else if code =? 8 then out [wrap16 (Z.shiftl code 12)] 0 pcoffset imm
  else if code =? 12 then out [wrap16 (Z.shiftl code 12 + Z.shiftl 7 6)] 0 pcoffset imm
  else if code =? 15 then
    ps ← split p;
    let e1 := count (negb (List.length ps =? 1)%nat) in
    p0 ← ps !! 0%nat;
    r ← to_word p0;
    let imm' := caught r imm in let e2 := caught_err r in
    x ← imm';
    out [wrap16 (Z.shiftl code 12 + slice x 0 8)] (e1 + e2) pcoffset imm'
  else if code =? 20 then
    r ← to_word p;
    let imm' := caught r imm in let e1 := caught_err r in
    x ← imm';
    out [x] e1 pcoffset imm'
  else if code =? 21 then
    r ← to_word p;
    let imm' := caught r imm in let e1 := caught_err r in
    x ← imm';
    out (repeat 0 (Z.to_nat x)) e1 pcoffset imm'
  else if code =? 22 then
    out (map char_word (list_ascii_of_string (substring 1 (String.length p - 2) p))) 0 pcoffset imm
  else out [] 0 pcoffset imm.

(** [for(int i = 1; i < instr_n; i++)], from line [i]: the words pushed,
    the errors counted, and whether the loop left by [goto Abort]. *)
Fixpoint encode (tab : gmap string Z) (addrs : list Z) (items : list (Z * string)) (i : nat)
    (pcoffset imm : option Z) : option (list Z * Z * bool) :=
  match items with
  | [] => Some ([], 0, false)
  | (code, p) :: rest =>
      o ← encode_line tab (addrs !! i) code p pcoffset imm;
      if lo_abort o then Some (lo_words o, lo_err o, true)
      else '(ws, e, ab) ← encode tab addrs rest (S i) (lo_pcoffset o) (lo_imm o);
           Some (app (lo_words o) ws, lo_err o + e, ab)
  end.

(** ** The whole assembler *)

(** [asm_map] after the run, [errnum] at [Abort:] and [bin]; the file is
    written when [errnum == 0]. *)
Record asm_out := mk_asm_out { out_map : gmap string Z; out_errnum : Z; out_bin : list Z }.

Definition written (o : asm_out) : option (list Z) :=
  if out_errnum o =? 0 then Some (out_bin o) else None.

Definition assemble (text : string) (m : gmap string Z) : option asm_out :=
  lines ← read_source (S (String.length text)) text;
  '(items, syms, err1, m') ← classify lines 0 m;
  '(code0, p0) ← head items;
  if negb (code0 =? 23) then Some (mk_asm_out m' (err1 + 1) [])
  else
    r ← to_word p0;
    match r with
    | Thrown _ => Some (mk_asm_out m' (err1 + 1) [])
    | Returned caddr =>
        '(addrs, err2, fin) ← assign_go (tail items) 1 caddr None err1;
        match fin with
        | None => Some (mk_asm_out m' err2 [caddr])
        | Some e =>
            match resolve syms addrs ∅ with
            | None => None
            | Some (_, true) => Some (mk_asm_out m' err2 [caddr])
            | Some (tab, false) =>
                '(ws, err3, _) ← encode tab addrs (take (e - 1) (tail items)) 1 None None;
                Some (mk_asm_out m' (err2 + err3) (caddr :: ws))
            end
        end
    end.

(** [void assembler(std::string filename, std::string ofilename)] as
    the [asm] command runs it: [files] gives the text of a file that
    opens; only [asm_map] of the simulator changes. *)
Definition assembler (files : string -> option string) (filename ofilename : string) (s : sim) : option sim :=
  match files filename with
  | None => Some s
  | Some text => o ← assemble text (asm_map s); Some (with_asm_map (out_map o) s)
  end.

(** ** Auxiliary definitions of the proofs *)

(** A variable of type [word]: a word once assigned. *)
Definition oword (x : option Z) : Prop := match x with Some v => is_word v | None => True end.

(** The state a line leaves: the words it pushes, [pcoffset] and
    [imm], its error count. *)
Definition line_ok (o : line_out) : Prop :=
  Forall is_word (lo_words o) /\ oword (lo_pcoffset o) /\ oword (lo_imm o) /\ 0 <= lo_err o.

(** The text ends with a newline. *)
Fixpoint ends_nl (t : string) : bool :=
  match t with
  | EmptyString => false
  | String c EmptyString => Ascii.eqb c "010"
  | String _ r => ends_nl r
  end.

(** The end of line of the source files. *)
Definition eol : string := String "010" EmptyString.

(** A file with a typing error: [X FOO] is the label [X] and the
    unknown mnemonic [FOO]. *)
Definition typo_source : string := ".ORIG x3000" +:+ eol +:+ "X FOO" +:+ eol +:+ ".END".

(** A program that uses the instructions the assembler encodes. *)
Definition demo_source : string :=
  ".ORIG x3000" +:+ eol +:+ "LOOP ADD R1, R1, #-1" +:+ eol +:+ "BRp LOOP" +:+ eol +:+ "LD R2, DATA" +:+ eol +:+
  "TRAP x25" +:+ eol +:+ "DATA .FILL x1234" +:+ eol +:+ ".END".

(** ** Lemmas: every word the assembler pushes is a word *)

Create HintDb asm discriminated.

Lemma to_word_returned p r v : to_word p = Some r -> r = Returned v -> is_word v.
Proof. intros Hp ->. by apply to_word_word with p. Qed.

Lemma operand_returned tab ai p r v : operand tab ai p = Some r -> r = Returned v -> is_word v.
Proof.
  unfold operand. intros Hp ->. case_match; [|by eapply to_word_returned].
  destruct ai; simplify_eq/=. apply wrap16_is_word.
Qed.

Lemma caught_oword r x : (forall v, r = Returned v -> is_word v) -> oword x -> oword (caught r x).
Proof. destruct r; simpl; auto. Qed.

Lemma caught_err_nonneg r : 0 <= caught_err r.
Proof. destruct r; simpl; lia. Qed.

Lemma count_nonneg b : 0 <= count b.
Proof. destruct b; simpl; lia. Qed.

Lemma oword_Some x v : oword x -> x = Some v -> is_word v.
Proof. by intros ? ->. Qed.

#[local] Hint Resolve caught_err_nonneg count_nonneg wrap16_is_word : asm.

Lemma Forall_word_char_words s : Forall is_word (map char_word (list_ascii_of_string s)).
Proof. induction (list_ascii_of_string s); constructor; auto. apply wrap16_is_word. Qed.

Lemma Forall_word_zeros n : Forall is_word (repeat 0 n).
Proof. induction n; constructor; auto. unfold is_word, word_modulus. lia. Qed.

(** Facts on the error counts of a goal, for [lia]. *)
Ltac err_facts :=
  repeat match goal with
  | |- context [count ?b] => lazymatch goal with _ : 0 <= count b |- _ => fail | _ => pose proof (count_nonneg b) end
  | |- context [caught_err ?r] =>
      lazymatch goal with _ : 0 <= caught_err r |- _ => fail | _ => pose proof (caught_err_nonneg r) end
  end.

Lemma encode_line_ok tab ai code p pc imm o :
  oword pc -> oword imm -> encode_line tab ai code p pc imm = Some o -> line_ok o.
Proof.
  intros Hpc Him H. unfold encode_line, out in H. unfold line_ok.
  repeat (simplify_option_eq || case_match);
    repeat match goal with
    | H : operand _ _ _ = Some ?r |- _ =>
        pose proof (caught_oword r _ (fun v => operand_returned _ _ _ _ v H) Hpc); clear H
    | H : to_word _ = Some ?r |- _ =>
        pose proof (caught_oword r _ (fun v => to_word_returned _ _ v H) Him); clear H
    end;
    repeat match goal with
    | H : context [caught ?r ?x] |- _ => let c := fresh "c" in set (c := caught r x) in *; clearbody c
    end;
    repeat (match goal with H : _ ≫= _ = Some _ |- _ => apply bind_Some in H as (? & -> & H) end
            || case_match);
    simplify_eq/=; err_facts;
    split_and!; eauto using Forall_word_char_words, Forall_word_zeros with asm; try lia;
    repeat constructor; eauto using oword_Some with asm.
Qed.

Lemma encode_ok tab addrs items i pc imm ws e ab :
  oword pc -> oword imm -> encode tab addrs items i pc imm = Some (ws, e, ab) -> Forall is_word ws /\ 0 <= e.
Proof.
  revert i pc imm ws e ab. induction items as [|[code p] items IH]; intros i pc imm ws e ab Hpc Him H;
    simplify_eq/=; [split; [constructor | lia]|].
  apply bind_Some in H as (o & Ho & H).
  destruct (encode_line_ok _ _ _ _ _ _ _ Hpc Him Ho) as (Hw & Hpc' & Him' & He).
  case_match; simplify_eq; [done|].
  apply bind_Some in H as ([[ws' e'] ab'] & Hr & ?); simplify_eq.
  destruct (IH _ _ _ _ _ _ Hpc' Him' Hr). split; [by apply Forall_app | lia].
Qed.

Lemma classify_err ls i m items syms err m' :
  classify ls i m = Some (items, syms, err, m') -> 0 <= err.
Proof.
  revert i m items syms err. induction ls as [|line ls IH]; intros i m items syms err H; simplify_eq/=; [lia|].
  apply bind_Some in H as ([[[[code ps] sym] e1] m1] & Hl & H).
  apply bind_Some in H as ([[[items' syms'] e2] m2] & Hr & ?); simplify_eq.
  unfold classify_line in Hl. specialize (IH _ _ _ _ _ Hr).
  repeat (simplify_option_eq || case_match); lia.
Qed.

Lemma written_errors o : out_errnum o <> 0 -> written o = None.
Proof. unfold written. intros. destruct (Z.eqb_spec (out_errnum o) 0); [lia | done]. Qed.

(** What [assemble] leaves in [bin] when it writes the file: the first
    source line is [.ORIG p0], the first word is the value of [p0], and
    the words after it are what the encoding loop pushed (none when the
    run left at the duplicate-label [Abort]). *)
Lemma assemble_written text m o bin :
  assemble text m = Some o -> written o = Some bin ->
  exists lines items syms err m' p0 org ws,
    read_source (S (String.length text)) text = Some lines /\
    classify lines 0 m = Some ((23, p0) :: items, syms, err, m') /\
    to_word p0 = Some (Returned org) /\ bin = org :: ws /\ is_word org /\ Forall is_word ws /\
    (ws = [] \/ exists tab addrs e err3 ab, encode tab addrs (take (e - 1) items) 1 None None = Some (ws, err3, ab)).
Proof.
  unfold assemble. intros H Hw.
  apply bind_Some in H as (lines & Hl & H).
  apply bind_Some in H as ([[[items syms] err1] m'] & Hc & H).
  pose proof (classify_err _ _ _ _ _ _ _ Hc).
  apply bind_Some in H as ([code0 p0] & Hh & H).
  case_match; [simplify_eq; rewrite written_errors in Hw by (simpl; lia); done|].
  apply bind_Some in H as (r & Hr & H).
  destruct r as [caddr|]; [|simplify_eq; rewrite written_errors in Hw by (simpl; lia); done].
  pose proof (to_word_word _ _ Hr).
  destruct items as [|[c0 q0] items]; simplify_eq/=.
  match goal with Hn : negb _ = false |- _ => apply negb_false_iff, Z.eqb_eq in Hn as -> end.
  apply bind_Some in H as ([[addrs err2] fin] & _ & H).
  unfold written in Hw.
  destruct fin as [e|]; [|simplify_eq/=; case_match; simplify_eq; do 8 eexists; split_and!; eauto].
  destruct (resolve syms addrs ∅) as [[tab []]|]; simplify_eq/=;
    [case_match; simplify_eq; do 8 eexists; split_and!; eauto|].
  apply bind_Some in H as ([[ws err3] ab] & He & ?); simplify_eq/=. case_match; simplify_eq.
  destruct (encode_ok _ _ _ _ None None _ _ _ I I He).
  do 8 eexists; split_and!; eauto 10.
Qed.

(** The loader reads an image printed by [word_to_bin]. *)
Lemma load_bin_image_lines org ws s :
  is_word org -> Forall is_word ws ->
  load_bin (Some (image_lines (org :: ws))) s =
  Some (if Z.of_nat (List.length ws) + org >? 0xFE00 then (s, Load_illegal_space) else (write_words org ws s, Load_done)).
Proof.
  intros Ho Hws. unfold load_bin. rewrite fgets_all_image. cbn [map].
  rewrite bin_to_word_line, mapM_bin_to_word_lines by done. by case_match.
Qed.

(** ** Lemmas on the reading loop *)

Lemma ends_nl_cons c t : t <> EmptyString -> ends_nl (String c t) = ends_nl t.
Proof. by destruct t. Qed.

Lemma ends_nl_app u : ends_nl (u +:+ String "010" EmptyString) = true.
Proof.
  induction u as [|c u IH]; [done|]. by destruct u.
Qed.

(** [getline] extracts at least one character unless it stops at the
    end of the file or on [failbit]. *)
Lemma getline_go_consumes n t :
  let '(b, r, e, f) := getline_go n t in
  (String.length r <= String.length t)%nat /\ (e = false -> f = false -> (String.length r < String.length t)%nat).
Proof.
  revert n. induction t as [|c t IH]; intros n; simpl; [split; [lia | done]|].
  destruct (Ascii.eqb c "010"); [simpl; split; [lia | intros; lia]|].
  destruct n as [|n]; [simpl; split; [lia | done]|].
  specialize (IH n). destruct (getline_go n t) as [[[b r] e] f]. simpl. destruct IH as [IH1 IH2].
  split; [lia | intros He Hf; specialize (IH2 He Hf); lia].
Qed.

Lemma f_getline_consumes t b r e f :
  f_getline t = (b, r, e, f) -> e = false -> f = false -> (String.length r < String.length t)%nat.
Proof.
  destruct t as [|c t']; [by intros [= <- <- <- <-]|]. unfold f_getline. intros E.
  pose proof (getline_go_consumes 255 (String c t')) as Hc. rewrite E in Hc. tauto.
Qed.

(** On a text that ends with a newline, [getline] does not reach the
    end of the file, and what it leaves still ends with a newline, or
    is empty. *)
Lemma getline_go_nl n t :
  ends_nl t = true ->
  let '(b, r, e, f) := getline_go n t in
  e = false /\ (f = true \/ r = EmptyString \/ (ends_nl r = true /\ (String.length r < String.length t)%nat)).
Proof.
  revert n. induction t as [|c t IH]; intros n Ht; [done|]. simpl.
  assert (Hne : t <> EmptyString -> ends_nl t = true) by (intros; by rewrite <- (ends_nl_cons c)).
  destruct (Ascii.eqb c "010") eqn:Ec.
  - split; [done|]. destruct t; [auto|]. right; right. split; [by apply Hne | simpl; lia].
  - destruct t as [|c' t]; [simpl in Ht; congruence|].
    destruct n as [|n]; [auto|].
    specialize (IH n (Hne ltac:(done))). destruct (getline_go n (String c' t)) as [[[b r] e] f].
    destruct IH as (-> & IH). split; [done|]. simpl in *. intuition lia.
Qed.

Lemma read_source_nl f t : ends_nl t = true -> (String.length t < f)%nat -> read_source f t = None.
Proof.
  revert t. induction f as [|f IH]; intros t Ht Hf; [lia|].
  destruct t as [|c t']; [done|]. cbn [read_source f_getline].
  pose proof (getline_go_nl 255 (String c t') Ht) as Hg.
  destruct (getline_go 255 (String c t')) as [[[b r] e] fl]. destruct Hg as (-> & Hg).
  destruct (trim_space (strip_comment b)); [simpl|done].
  destruct fl; [done|]. destruct Hg as [? | [-> | [Hr Hl]]]; [done | |].
  - destruct f as [|f]; [simpl in Hf; lia | done].
  - rewrite IH; [done | done | simpl in *; lia].
Qed.

(** ** Lemmas on strings *)

Lemma list_ascii_of_string_length s : List.length (list_ascii_of_string s) = String.length s.
Proof. induction s; simpl; auto. Qed.

Lemma substring_length n m s : (n + m <= String.length s)%nat -> String.length (substring n m s) = m.
Proof.
  revert n m. induction s as [|c s IH]; intros n m H; simpl in *.
  - destruct n, m; simpl in *; lia.
  - destruct n as [|n]; [destruct m as [|m]; simpl; [done | rewrite IH; lia] | apply IH; lia].
Qed.

Lemma in_substring c n m s : In c (list_ascii_of_string (substring n m s)) -> In c (list_ascii_of_string s).
Proof.
  revert n m. induction s as [|c' s IH]; intros n m H; simpl in *.
  - by destruct n, m.
  - destruct n as [|n]; [destruct m as [|m]; simpl in H; [done|] | by right; eapply IH].
    destruct H as [->|H]; [by left | right; eapply IH; done].
Qed.

(** A character other than NUL is never the word 0. *)
Lemma char_word_nonzero c : c <> "000"%char -> char_word c <> 0.
Proof.
  intros Hc. unfold char_word.
  assert (Hn : nat_of_ascii c <> 0%nat) by (intros E; apply Hc; rewrite <- (ascii_nat_embedding c), E; done).
  pose proof (nat_ascii_bounded c). destruct (Z.leb_spec 128 (Z.of_nat (nat_of_ascii c))); zlia.
Qed.

(** ** Lemmas on the address pass *)

(** A pass that reached [.END] starts its addresses with the current
    one. *)
Lemma assign_go_head items i caddr temp err addrs e n :
  assign_go items i caddr temp err = Some (addrs, e, Some n) -> addrs !! 0%nat = Some caddr.
Proof.
  destruct items as [|[code p] items]; cbn [assign_go]; [by intros [=]|].
  intros H. repeat (case_match || (apply bind_Some in H as (? & ? & H))); simplify_eq/=; try done.
Qed.

(** One round of the address loop that goes on to [.END]: [.END]
    itself, or the current address followed by the addresses of the
    rest, starting one word on for a one-word line and at the same
    address for a [~SKIP] line. *)
Lemma assign_go_cons c p items i caddr temp err addrs e n :
  assign_go ((c, p) :: items) i caddr temp err = Some (addrs, e, Some n) ->
  (c = 24 /\ addrs = [caddr]) \/
  exists caddr' temp' err' l, addrs = caddr :: l /\ assign_go items (S i) caddr' temp' err' = Some (l, e, Some n) /\
    (c <> 21 -> c <> 22 -> caddr' = if c =? 25 then caddr else caddr +w 1).
Proof.
  cbn [assign_go]. intros H.
  destruct (Z.eqb_spec c 21) as [->|H21]; [|destruct (Z.eqb_spec c 22) as [->|H22];
    [|destruct (Z.eqb_spec c 25) as [->|H25]; [|destruct (Z.eqb_spec c 24) as [->|H24];
    [|destruct (Z.eqb_spec c 23) as [->|H23]]]]].
  all: cbv zeta in H.
  all: repeat match goal with
       | H : _ ≫= _ = Some _ |- _ => apply bind_Some in H as (? & ? & H)
       | x : (_ * _ * _)%type |- _ => destruct x as [[? ?] ?]
       | H : (if ?b then _ else _) = Some _ |- _ => destruct b
       end.
  all: simplify_eq/=; first [by left | right; do 4 eexists; split_and!; [reflexivity | eassumption |]].
  all: intros ? ?; first [congruence | done].
Qed.

(** Line [S j] (item [j]) starts one word after line [j] for a one-word
    line, and at the same address for a label-only ([~SKIP]) line. *)
Lemma assign_go_next items i caddr temp err addrs e n j c p :
  assign_go items i caddr temp err = Some (addrs, e, Some n) -> items !! j = Some (c, p) ->
  (S j < List.length addrs)%nat -> c <> 21 -> c <> 22 ->
  addrs !! S j = (fun a => if c =? 25 then a else a +w 1) <$> addrs !! j.
Proof.
  revert i caddr temp err addrs j. induction items as [|[c' p'] items IH];
    intros i caddr temp err addrs j H Hj Hl H21 H22; [done|].
  destruct (assign_go_cons _ _ _ _ _ _ _ _ _ _ H) as [[_ ->]|(caddr' & temp' & err' & l & -> & Hr & Hc)];
    [simpl in Hl; lia|].
  destruct j as [|j]; simpl in Hj |- *.
  - injection Hj as -> ->. erewrite assign_go_head by eassumption. simpl. by rewrite Hc.
  - eapply IH; [eassumption | done | simpl in Hl; lia | done | done].
Qed.

(** ** Lemmas on the symbol table *)

(** [resolve] never changes an entry the table already has. *)
Lemma resolve_keeps syms addrs tab tab' b k :
  resolve syms addrs tab = Some (tab', b) -> is_Some (tab !! k) -> tab' !! k = tab !! k.
Proof.
  revert tab. induction syms as [|[l loc] syms IH]; intros tab H Hk; simplify_eq/=; [done|].
  case_bool_decide; simplify_eq; [done|].
  apply bind_Some in H as (a & _ & H).
  rewrite (IH _ H); [|by apply lookup_insert_is_Some'; right].
  rewrite lookup_insert_ne; [done|]. intros ->. done.
Qed.

(** When [resolve] finds no duplicate, every label gets the address of
    its [symloc]. *)
Lemma resolve_labels syms addrs tab tab' l loc :
  resolve syms addrs tab = Some (tab', false) -> In (l, loc) syms -> tab' !! l = addrs !! loc.
Proof.
  revert tab. induction syms as [|[l' loc'] syms IH]; intros tab H Hin; [done|]. cbn [resolve] in H.
  case_bool_decide; simplify_eq. apply bind_Some in H as (a & Ha & H).
  destruct Hin as [[= <- <-]|Hin]; [|by eapply IH].
  rewrite (resolve_keeps _ _ _ _ _ _ H); [by rewrite lookup_insert_eq | by rewrite lookup_insert_eq; eexists].
Qed.

(** A label list with a repeated name, or a name already in the table,
    makes [resolve] report a duplicate (when every [symloc] is in
    range). *)
Lemma resolve_duplicate syms addrs tab :
  (forall l loc, In (l, loc) syms -> is_Some (addrs !! loc)) ->
  ~ NoDup (map fst syms) \/ (exists l loc, In (l, loc) syms /\ is_Some (tab !! l)) ->
  exists tab', resolve syms addrs tab = Some (tab', true).
Proof.
  revert tab. induction syms as [|[l loc] syms IH]; intros tab Hr Hd.
  - destruct Hd as [Hd|(? & ? & [] & _)]. by destruct Hd; constructor.
  - cbn [resolve]. case_bool_decide as Hl; [by eexists|].
    destruct (Hr l loc (or_introl eq_refl)) as [a Ha]. rewrite Ha. simpl.
    apply IH; [intros; eapply Hr; by right|].
    destruct (in_dec string_dec l (map fst syms)) as [Hin|Hnin].
    + right. apply in_map_iff in Hin as ([l' loc'] & <- & Hin). exists l', loc'.
      split; [done | rewrite lookup_insert_eq; by eexists].
    + destruct Hd as [Hd|(l' & loc' & [[= <- <-]|Hin] & Hs)].
      * left. intros Hn. apply Hd. simpl. constructor; [by rewrite list_elem_of_In | done].
      * done.
      * right. exists l', loc'. split; [done|]. by apply lookup_insert_is_Some'; right.
Qed.

(** ** Properties of the assembler *)

(** (termination) the reading loop of [assembler] stops: every
    round either reaches the end of the file or extracts at least one
    character, so once the fuel exceeds the length of the text more
    fuel reads the same lines; the [S (length text)] that [assemble]
    passes is enough. *)
Theorem read_source_enough_fuel f1 f2 t :
  (String.length t < f1)%nat -> (String.length t < f2)%nat -> read_source f1 t = read_source f2 t.
Proof.
  revert f2 t. induction f1 as [|f1 IH]; intros f2 t H1 H2; [lia|]. destruct f2 as [|f2]; [lia|].
  cbn [read_source]. destruct (f_getline t) as [[[b r] e] fl] eqn:E.
  destruct (trim_space (strip_comment b)); [simpl|done].
  destruct e, fl; try done.
  pose proof (f_getline_consumes _ _ _ _ _ E eq_refl eq_refl). by rewrite (IH f2) by lia.
Qed.

Lemma read_source_enough_fuel_witness :
  (String.length "ADD R1, R1, #1" < 20)%nat /\ (String.length "ADD R1, R1, #1" < 15)%nat /\
  read_source 20 "ADD R1, R1, #1" = read_source 15 "ADD R1, R1, #1".
Proof. split_and!; [simpl; lia | simpl; lia | apply read_source_enough_fuel; simpl; lia]. Defined.

(** C24: (code bug) every source file that ends with a newline makes
    the assembler's behaviour undefined: the last [getline] stores an
    empty line, and [trim_space] reads [s[-1]] on it. *)
Theorem assemble_newline_terminated_undefined text m :
  assemble (text +:+ String "010" EmptyString) m = None.
Proof. unfold assemble. by rewrite read_source_nl by (apply ends_nl_app || lia). Qed.

(** ** Lemmas on the encoding *)

Lemma to_reg_range s : 0 <= to_reg s <= 7 \/ to_reg s = 99.
Proof.
  unfold to_reg. destruct (_ && Ascii.eqb _ _); [|auto].
  destruct (Z.leb_spec 0 (char_code (char_at s 1) - 48)), (Z.leb_spec (char_code (char_at s 1) - 48) 7);
    simpl; lia.
Qed.

Lemma count_zero b : count b = 0 -> b = false.
Proof. by destruct b. Qed.

(** The word [(op<<12)+(a<<9)+(b<<6)+c] the encoder pushes, when its
    fields are in range. *)
Lemma encoded_word op a b c : 0 <= op < 16 -> 0 <= a < 8 -> 0 <= b < 8 -> 0 <= c < 64 ->
  wrap16 (Z.shiftl op 12 + Z.shiftl a 9 + Z.shiftl b 6 + c) = op * 4096 + a * 512 + b * 64 + c.
Proof. intros. rewrite !Z.shiftl_mul_pow2 by lia. simpl. zlia. Qed.

(** The fields [process_instr] reads back from such a word. *)
Lemma fields_decode w op a b c :
  0 <= op < 16 -> 0 <= a < 8 -> 0 <= b < 8 -> 0 <= c < 64 -> w = op * 4096 + a * 512 + b * 64 + c ->
  Z.shiftr w 12 = op /\ slice w 9 12 = a /\ slice w 6 9 = b /\ slice w 0 9 = 64 * b + c /\
  slice w 0 6 = c /\ slice w 0 5 = c mod 32 /\ slice w 0 3 = c mod 8 /\ Z.testbit w 5 = (32 <=? c).
Proof.
  intros Ho Ha Hb Hc ->.
  rewrite Z.shiftr_div_pow2, !slice_eq by lia. rewrite Z.testbit_eqb by lia.
  simpl. split_and!; Z.div_mod_to_equations; lia.
Qed.

Lemma land32_testbit w : (Z.land 32 w =? 0) = negb (Z.testbit w 5).
Proof.
  rewrite Z.land_comm. change 32 with (2 ^ 5).
  destruct (Z.testbit w 5) eqn:E; simpl.
  - apply Z.eqb_neq. rewrite land_pow2_eq0 by lia. congruence.
  - apply Z.eqb_eq, land_pow2_eq0; [lia | done].
Qed.

Lemma shiftl_imm_flag a b c e : wrap16 (a + b + c + Z.shiftl 1 5 + e) = wrap16 (a + b + c + (32 + e)).
Proof. change (Z.shiftl 1 5) with 32. f_equal. lia. Qed.

(** Comparisons of a goal's hypotheses as arithmetic. *)
Ltac bool_facts :=
  repeat match goal with
  | H : (_ && _) = true |- _ => apply andb_true_iff in H as [? ?]
  | H : (_ <=? _) = true |- _ => apply Z.leb_le in H
  | H : (_ <=? _) = false |- _ => apply Z.leb_gt in H
  end.

(** A goal [process_instr (wrap16 ((op<<12)+(a<<9)+(b<<6)+c)) s = ...]:
    compute the word and the fields [process_instr] reads. *)
Ltac decode_word :=
  match goal with
  | |- context [wrap16 (Z.shiftl ?op 12 + Z.shiftl ?a 9 + Z.shiftl ?b 6 + ?c)] =>
      try match a with to_reg ?r => pose proof (to_reg_range r) end;
      try match b with to_reg ?r => pose proof (to_reg_range r) end;
      try match c with to_reg ?r => pose proof (to_reg_range r) end;
      try match c with
          | slice ?x 0 ?n => pose proof (slice_range x 0 n ltac:(lia) ltac:(lia) ltac:(unfold is_word in *; lia))
          | _ + slice ?x 0 ?n => pose proof (slice_range x 0 n ltac:(lia) ltac:(lia) ltac:(unfold is_word in *; lia))
          end;
      rewrite (encoded_word op a b c) by (simpl in *; lia);
      destruct (fields_decode _ op a b c ltac:(lia) ltac:(lia) ltac:(lia) ltac:(simpl in *; lia) eq_refl)
        as (Hop & Ha & Hb & Hoff9 & Hoff6 & Hoff5 & Hoff3 & Hbit5);
      unfold process_instr; rewrite Hop; cbn iota;
      rewrite ?Ha, ?Hb, ?Hoff9, ?Hoff6, ?Hoff5, ?Hoff3, ?land32_testbit, ?bit_testbit, ?Hbit5 by lia
  end.

(** Take apart the [encode_line] of a line that pushed its word. *)
Ltac invert_line H :=
  unfold encode_line, out in H;
  repeat (match goal with H : _ ≫= _ = Some _ |- _ => apply bind_Some in H as (? & ? & H) end || case_match);
  simplify_eq/=.

Lemma list_three {A} (ps : list A) a b c :
  List.length ps = 3%nat -> ps !! 0%nat = Some a -> ps !! 1%nat = Some b -> ps !! 2%nat = Some c -> ps = [a; b; c].
Proof. destruct ps as [|? [|? [|? []]]]; intros; simplify_eq/=; done. Qed.

Lemma caught_no_error r x v : caught_err r = 0 -> caught r x = Some v -> r = Returned v.
Proof. destruct r; simpl; intros; simplify_eq; done. Qed.

Lemma count_le7 r : count (7 <? r) = 0 -> r <= 7.
Proof. intros H. apply count_zero, Z.ltb_ge in H. done. Qed.

Lemma count_len n m : count (negb (n =? m)%nat) = 0 -> n = m.
Proof. intros H. apply count_zero, negb_false_iff, Nat.eqb_eq in H. done. Qed.

(** Split an error count [0] into its summands. *)
Ltac zero_errors H :=
  repeat match type of H with
  | context [count ?b] =>
      lazymatch goal with _ : 0 <= count b |- _ => fail | _ => pose proof (count_nonneg b) end
  | context [caught_err ?r] =>
      lazymatch goal with _ : 0 <= caught_err r |- _ => fail | _ => pose proof (caught_err_nonneg r) end
  end;
  repeat match type of H with
  | context [count ?b] =>
      lazymatch goal with _ : count b = 0 |- _ => fail | _ => assert (count b = 0) by lia end
  | context [caught_err ?r] =>
      lazymatch goal with _ : caught_err r = 0 |- _ => fail | _ => assert (caught_err r = 0) by lia end
  end.

(** C23: (code bug) [LDI] and [STI] are encoded like [LDR] and [STR]:
    [LDI R1, R2, #off] puts the register [R2] in bits 8-6 and [off] in
    bits 5-0, while [process_instr] reads bits 8-0 as a PC-relative
    offset; the word runs as an [LDI] whose offset is
    [64 * R2 + off[5:0]].  The spec gives [LDI DR, label]. *)
Theorem ldi_sti_assembled_with_base_register tab ai code p pc imm o w s :
  code = 10 \/ code = 11 -> encode_line tab ai code p pc imm = Some o -> lo_words o = [w] -> lo_err o = 0 ->
  exists a b c v, split p = Some [a; b; c] /\ lo_pcoffset o = Some v /\ to_reg a <= 7 /\ to_reg b <= 7 /\
    process_instr w s = (if code =? 10 then LDI else STI) (to_reg a) (64 * to_reg b + slice v 0 6) s.
Proof.
  intros Hc Ho Hw He. destruct Hc as [-> | ->]; invert_line Ho; zero_errors He.
  all: match goal with
       | Hl : count (negb _) = 0, Hr : count (_ || _) = 0, Hce : caught_err ?r = 0,
         Hca : caught ?r _ = Some ?v, Hop : operand _ _ _ = Some ?r |- _ =>
           apply count_len in Hl; apply count_zero, orb_false_iff in Hr as [Hr1 Hr2];
           apply Z.ltb_ge in Hr1, Hr2; pose proof (caught_no_error _ _ _ Hce Hca) as ->;
           pose proof (operand_returned _ _ _ _ v Hop eq_refl) as Hv
       end.
  all: match goal with
       | H0 : ?x !! 0%nat = Some ?a, H1 : ?x !! 1%nat = Some ?b, H2 : ?x !! 2%nat = Some ?c,
         Hl : Datatypes.length ?x = 3%nat |- _ => pose proof (list_three x a b c Hl H0 H1 H2) as ->
       end.
  all: do 4 eexists; split_and!; [done | done | done | done |].
  all: decode_word; reflexivity.
Qed.

Lemma ldi_sti_assembled_with_base_register_witness :
  exists a b c v, split "R1, R2, #3" = Some [a; b; c] /\
    lo_pcoffset (mk_line_out [0xA283] 0 (Some 3) None false) = Some v /\ to_reg a <= 7 /\ to_reg b <= 7 /\
    process_instr 0xA283 demo_sim = (if 10 =? 10 then LDI else STI) (to_reg a) (64 * to_reg b + slice v 0 6) demo_sim.
Proof.
  apply (ldi_sti_assembled_with_base_register ∅ None 10 "R1, R2, #3" None None
           (mk_line_out [0xA283] 0 (Some 3) None false));
    [left; reflexivity | vm_compute; reflexivity | reflexivity | reflexivity].
Defined.

(** C22: (roundtrip) an [ADD] or [AND] line the encoder accepts without
    error runs as the instruction written: with three registers it is
    the register form on those registers; with an immediate that fits
    in five bits it is the immediate form with that field. *)
Theorem add_and_assembled_roundtrip tab ai code p pc imm o w s :
  code = 1 \/ code = 5 -> encode_line tab ai code p pc imm = Some o -> lo_words o = [w] -> lo_err o = 0 ->
  exists a b c, split p = Some [a; b; c] /\ to_reg a <= 7 /\ to_reg b <= 7 /\
    ((to_reg c <= 7 /\
      process_instr w s = Some ((if code =? 1 then ADD else AND) (to_reg a) (to_reg b) (to_reg c) s)) \/
     (exists v, to_reg c = 99 /\ to_word c = Some (Returned v) /\ check_number v 5 = true /\
      process_instr w s = Some ((if code =? 1 then ADDimm else ANDimm) (to_reg a) (to_reg b) (slice v 0 5) s))).
Proof.
  intros Hc Ho Hw He. destruct Hc as [-> | ->]; invert_line Ho; zero_errors He; bool_facts.
  all: match goal with Hl : count (negb _) = 0 |- _ => apply count_len in Hl end.
  all: match goal with
       | H0 : ?x !! 0%nat = Some ?a, H1 : ?x !! 1%nat = Some ?b, H2 : ?x !! 2%nat = Some ?c,
         Hl : Datatypes.length ?x = 3%nat |- _ => pose proof (list_three x a b c Hl H0 H1 H2) as ->
       end.
  all: do 3 eexists; split_and!; [done | done | done |].
  all: try (left; split; [done|]; decode_word; rewrite !Z.mod_small by lia;
            replace (32 <=? _) with false by (symmetry; apply Z.leb_gt; lia); reflexivity).
  all: right; match goal with
       | Hca : caught ?r _ = Some ?v, Hce : caught_err ?r = 0, Ht : to_word _ = Some ?r |- _ =>
           pose proof (caught_no_error _ _ _ Hce Hca) as ->; pose proof (to_word_returned _ _ v Ht eq_refl)
       end.
  all: eexists; split_and!; [match goal with |- to_reg ?c = 99 => destruct (to_reg_range c); lia end | done | done |].
  all: rewrite shiftl_imm_flag; decode_word.
  all: replace ((32 + slice _ 0 5) mod 32) with (slice x4 0 5) by (rewrite Z.add_mod, Z.mod_same, Z.add_0_l, !Z.mod_mod, Z.mod_small by lia; Z.div_mod_to_equations; lia).
  all: replace (32 <=? _) with true by (symmetry; apply Z.leb_le; lia); reflexivity.
Qed.

Lemma add_and_assembled_roundtrip_witness :
  exists a b c, split "R1, R2, R3" = Some [a; b; c] /\ to_reg a <= 7 /\ to_reg b <= 7 /\
    ((to_reg c <= 7 /\
      process_instr 0x1283 demo_sim = Some ((if 1 =? 1 then ADD else AND) (to_reg a) (to_reg b) (to_reg c) demo_sim)) \/
     (exists v, to_reg c = 99 /\ to_word c = Some (Returned v) /\ check_number v 5 = true /\
      process_instr 0x1283 demo_sim = Some ((if 1 =? 1 then ADDimm else ANDimm) (to_reg a) (to_reg b) (slice v 0 5) demo_sim))).
Proof.
  apply (add_and_assembled_roundtrip ∅ None 1 "R1, R2, R3" None None (mk_line_out [0x1283] 0 None None false));
    [left; reflexivity | vm_compute; reflexivity | reflexivity | reflexivity].
Defined.

(** C25: (code bug) an [ADD] or [AND] whose immediate does not fit in
    five bits pushes no word and counts no error ([add_overflow_err]
    without [errnum++]): the file is written without the instruction. *)
Theorem add_immediate_overflow_dropped tab ai code p pc imm a b c v :
  code = 1 \/ code = 5 -> split p = Some [a; b; c] -> to_reg a <= 7 -> to_reg b <= 7 -> 7 < to_reg c ->
  to_word c = Some (Returned v) -> check_number v 5 = false ->
  encode_line tab ai code p pc imm = Some (mk_line_out [] 0 pc (Some v) false).
Proof.
  intros Hc Hs Ha Hb Hr Hv Hn.
  assert (Ea : (to_reg a <=? 7) = true) by (apply Z.leb_le; lia).
  assert (Eb : (to_reg b <=? 7) = true) by (apply Z.leb_le; lia).
  assert (Ec : (to_reg c <=? 7) = false) by (apply Z.leb_gt; lia).
  destruct Hc as [-> | ->]; unfold encode_line, out; cbn -[split to_reg to_word check_number];
    rewrite Hs; cbn -[to_reg to_word check_number]; rewrite Ea, Eb, Ec, Hv; simpl; by rewrite Hn.
Qed.

Lemma add_immediate_overflow_dropped_witness :
  encode_line ∅ None 1 "R1, R1, #99" None None = Some (mk_line_out [] 0 None (Some 99) false).
Proof.
  apply (add_immediate_overflow_dropped ∅ None 1 "R1, R1, #99" None None "R1" "R1" "#99" 99);
    [left | vm_compute | vm_compute | vm_compute | vm_compute | vm_compute | vm_compute]; done.
Defined.

(** C26: (code bug) the address pass gives a [JSR] or [JSRR] line one
    word, but the encoder has no case for them: it pushes nothing and
    counts no error, so every later word of the image sits one address
    before the one its labels were computed for. *)
Theorem jsr_reserved_but_not_encoded tab ai code p pc imm items i caddr temp err :
  code = 4 \/ code = 40 ->
  encode_line tab ai code p pc imm = Some (mk_line_out [] 0 pc imm false) /\
  assign_go ((code, p) :: items) i caddr temp err =
    ('(addrs, e, fin) ← assign_go items (S i) (caddr +w 1) temp err; Some (caddr :: addrs, e, fin)).
Proof. intros [-> | ->]; split; reflexivity. Qed.

Lemma jsr_reserved_but_not_encoded_witness :
  encode_line ∅ None 4 "SUB" None None = Some (mk_line_out [] 0 None None false) /\
  assign_go [(4, "SUB")] 1 0x3000 None 0 =
    ('(addrs, e, fin) ← assign_go [] 2 (0x3000 +w 1) None 0; Some (0x3000 :: addrs, e, fin)).
Proof. apply jsr_reserved_but_not_encoded. by left. Defined.

(** ** [asm_map] across runs *)

Lemma asm_lookup_grows m s k :
  (asm_lookup m s).2 !! k = m !! k \/ (m !! k = None /\ (asm_lookup m s).2 !! k = Some 0).
Proof.
  unfold asm_lookup. simpl. destruct (decide (k = s)) as [->|Hne].
  - rewrite lookup_insert_eq. destruct (m !! s); simpl; naive_solver.
  - rewrite lookup_insert_ne by done. auto.
Qed.

Lemma classify_grows ls i m items syms err m' k :
  classify ls i m = Some (items, syms, err, m') -> m' !! k = m !! k \/ (m !! k = None /\ m' !! k = Some 0).
Proof.
  revert i m items syms err. induction ls as [|line ls IH]; intros i m items syms err H; simplify_eq/=; [auto|].
  apply bind_Some in H as ([[[[code ps] sym] e1] m1] & Hl & H).
  apply bind_Some in H as ([[[items' syms'] e2] m2] & Hr & ?); simplify_eq.
  assert (Hm1 : m1 !! k = m !! k \/ (m !! k = None /\ m1 !! k = Some 0)).
  { unfold classify_line in Hl.
    repeat (match goal with H : _ ≫= _ = Some _ |- _ => apply bind_Some in H as (? & ? & H) end || case_match);
      simplify_eq;
      match goal with H : asm_lookup ?m ?s = (_, ?m1) |- _ =>
        replace m1 with (asm_lookup m s).2 by (by rewrite H); apply asm_lookup_grows end. }
  destruct (IH _ _ _ _ _ Hr) as [E|[E1 E2]]; rewrite ?E, ?E2; destruct Hm1 as [F|[F1 F2]]; rewrite ?F, ?F1, ?F2 in *; auto.
Qed.

(** [assemble] leaves in [out_map] the table of its first pass. *)
(** After the first pass, the first or the second word of each line is
    in the table: a known first word is its mnemonic, otherwise the
    first word is a label and [asm_map[s]] enters the second one. *)
Lemma classify_entries ls i m items syms err m' line l ss s2 ss2 :
  classify ls i m = Some (items, syms, err, m') -> In line ls ->
  split_first line = Some (l, ss) -> ss <> EmptyString -> split_first ss = Some (s2, ss2) ->
  is_Some (m' !! l) \/ m' !! s2 = Some (default 0 (m !! s2)).
Proof.
  revert i m items syms err. induction ls as [|line' ls IH]; intros i m items syms err H Hin Hl Hss Hs2; [done|].
  cbn [classify] in H.
  apply bind_Some in H as ([[[[code ps] sym] e1] m1] & Hc & H).
  apply bind_Some in H as ([[[items' syms'] e2] m2] & Hr & ?); simplify_eq.
  assert (Hm1 : forall k, m1 !! k = m !! k \/ (m !! k = None /\ m1 !! k = Some 0)).
  { intros k. by eapply (classify_grows [line'] i m _ _ _ m1 k); cbn [classify]; rewrite Hc. }
  assert (Hm2 : forall k, is_Some (m1 !! k) -> m' !! k = m1 !! k).
  { intros k Hk. destruct (classify_grows _ _ _ _ _ _ _ k Hr) as [E|[E _]]; [done | by rewrite E in Hk; destruct Hk]. }
  destruct Hin as [<-|Hin].
  - unfold classify_line in Hc. rewrite Hl in Hc. simpl in Hc.
    case_bool_decide as Hk.
    + left. assert (Hs : is_Some (m1 !! l)) by (destruct (Hm1 l) as [->|[E _]]; [done | by rewrite E in Hk; destruct Hk]).
      by rewrite Hm2.
    + destruct (String.eqb_spec ss EmptyString) as [|_]; [done|]. rewrite Hs2 in Hc.
      unfold asm_lookup in Hc. simpl in Hc. injection Hc as <- <- <- <- <-.
      right. rewrite Hm2; rewrite lookup_insert_eq; [done | by eexists].
  - destruct (IH _ _ _ _ _ Hr Hin Hl Hss Hs2) as [?|E]; [by left | right].
    rewrite E. by destruct (Hm1 s2) as [->|[-> ->]].
Qed.

(** [assemble] leaves in [out_map] the table of its first pass. *)
Lemma assemble_out_map text m o :
  assemble text m = Some o -> exists lines items syms err,
    read_source (S (String.length text)) text = Some lines /\
    classify lines 0 m = Some (items, syms, err, out_map o).
Proof.
  unfold assemble. intros H.
  apply bind_Some in H as (lines & Hl & H).
  apply bind_Some in H as ([[[items syms] err1] m'] & Hc & H).
  exists lines, items, syms, err1. split; [done|].
  apply bind_Some in H as ([code0 p0] & _ & H).
  repeat (match goal with H : _ ≫= _ = Some _ |- _ => apply bind_Some in H as (? & ? & H) end || case_match);
    simplify_eq/=; done.
Qed.

(** C27: (invariant) what an assembly does to [asm_map], the member
    table that [initialize] refills but never clears: every entry it had
    keeps its code, the only names it gains map to 0, and every line of
    the source leaves its first word (a known mnemonic) or its second
    word (the mnemonic after a label) in the table, [asm_map[s]]
    inserting it when it is unknown. *)
Theorem assemble_asm_map_grows text m o lines :
  assemble text m = Some o -> read_source (S (String.length text)) text = Some lines ->
  (forall k, out_map o !! k = m !! k \/ (m !! k = None /\ out_map o !! k = Some 0)) /\
  (forall line l ss s2 ss2, In line lines -> split_first line = Some (l, ss) -> ss <> EmptyString ->
     split_first ss = Some (s2, ss2) -> is_Some (out_map o !! l) \/ out_map o !! s2 = Some (default 0 (m !! s2))).
Proof.
  intros H Hl. destruct (assemble_out_map _ _ _ H) as (lines' & ? & ? & ? & Hl' & Hc).
  rewrite Hl in Hl'. injection Hl' as <-. split.
  - intros k. by eapply classify_grows.
  - intros. by eapply classify_entries.
Qed.

Lemma assemble_asm_map_grows_witness :
  exists o, assemble typo_source (fill_asm_map ∅) = Some o /\
    read_source (S (String.length typo_source)) typo_source = Some [".ORIG x3000"; "X FOO"; ".END"] /\
    (forall k, out_map o !! k = fill_asm_map ∅ !! k \/ (fill_asm_map ∅ !! k = None /\ out_map o !! k = Some 0)) /\
    (forall line l ss s2 ss2, In line [".ORIG x3000"; "X FOO"; ".END"] -> split_first line = Some (l, ss) ->
       ss <> EmptyString -> split_first ss = Some (s2, ss2) ->
       is_Some (out_map o !! l) \/ out_map o !! s2 = Some (default 0 (fill_asm_map ∅ !! s2))).
Proof.
  destruct (assemble typo_source (fill_asm_map ∅)) as [o|] eqn:E; [|vm_compute in E; discriminate].
  assert (Hl : read_source (S (String.length typo_source)) typo_source = Some [".ORIG x3000"; "X FOO"; ".END"])
    by (vm_compute; reflexivity).
  exists o. split_and!; [done | done | |]; apply (assemble_asm_map_grows _ _ o _ E Hl).
Defined.

(** C28: (code bug) a name that [asm_map] maps to 0 (what an assembly
    leaves behind for an unknown mnemonic, as shown above) turns every later line
    that starts with it into an instruction of code 0: no label is
    recorded and no error is counted, the address pass gives it one
    word, and the encoder has no case for it and pushes nothing.  A
    correct file that uses the name as a label silently loses the
    instruction on that line. *)
Theorem zero_code_name_swallows_line m line i l rest tab ai pc imm items caddr temp err :
  split_first line = Some (l, rest) -> m !! l = Some 0 ->
  classify_line m line i = Some (0, rest, [], 0, m) /\
  encode_line tab ai 0 rest pc imm = Some (mk_line_out [] 0 pc imm false) /\
  assign_go ((0, rest) :: items) (S i) caddr temp err =
    ('(addrs, e, fin) ← assign_go items (S (S i)) (caddr +w 1) temp err; Some (caddr :: addrs, e, fin)).
Proof.
  intros Hl Hm. split_and!; [|reflexivity|reflexivity].
  unfold classify_line. rewrite Hl. simpl. rewrite bool_decide_true by (rewrite Hm; by eexists).
  simpl. rewrite Hm. simpl. by rewrite insert_id.
Qed.

Lemma zero_code_name_swallows_line_witness :
  classify_line (<["FOO" := 0]> (fill_asm_map ∅)) "FOO ADD R1, R1, #1" 1 =
    Some (0, "ADD R1, R1, #1", [], 0, <["FOO" := 0]> (fill_asm_map ∅)) /\
  encode_line ∅ None 0 "ADD R1, R1, #1" None None = Some (mk_line_out [] 0 None None false) /\
  assign_go [(0, "ADD R1, R1, #1")] 2 0x3000 None 0 =
    ('(addrs, e, fin) ← assign_go [] 3 (0x3000 +w 1) None 0; Some (0x3000 :: addrs, e, fin)).
Proof.
  apply (zero_code_name_swallows_line _ _ 1 "FOO" "ADD R1, R1, #1");
    [vm_compute; reflexivity | by rewrite lookup_insert_eq].
Defined.

(** C29: (code bug) for every source whose first pass reached [.END]
    with its labels before it, a label defined twice makes the
    assembler jump to [Abort] before the [errnum++] that follows: the
    run ends with the error count of the address pass and [bin] holding
    the origin alone, so a source with no other error writes an image
    of just the origin.  Spec 4.4 makes a duplicate definition a hard
    error with no output. *)
Theorem duplicate_label_not_counted text m lines items syms err1 m' p0 caddr addrs err2 e :
  read_source (S (String.length text)) text = Some lines ->
  classify lines 0 m = Some ((23, p0) :: items, syms, err1, m') ->
  to_word p0 = Some (Returned caddr) ->
  assign_go items 1 caddr None err1 = Some (addrs, err2, Some e) ->
  (forall l loc, In (l, loc) syms -> is_Some (addrs !! loc)) ->
  ~ NoDup (map fst syms) ->
  assemble text m = Some (mk_asm_out m' err2 [caddr]).
Proof.
  intros Hl Hc Hp Ha Hr Hd. unfold assemble. rewrite Hl. simpl. rewrite Hc. simpl. rewrite Hp. simpl.
  rewrite Ha. simpl.
  destruct (resolve_duplicate syms addrs ∅ Hr (or_introl Hd)) as [tab ->]. done.
Qed.

(** A source with one label defined on two lines. *)
Definition dup_source : string :=
  ".ORIG x3000" +:+ eol +:+ "A ADD R1, R1, #1" +:+ eol +:+ "A ADD R1, R1, #1" +:+ eol +:+ ".END".

Lemma duplicate_label_not_counted_witness :
  exists m', assemble dup_source (fill_asm_map ∅) = Some (mk_asm_out m' 0 [0x3000]).
Proof.
  assert (E1 : read_source (S (String.length dup_source)) dup_source =
               Some [".ORIG x3000"; "A ADD R1, R1, #1"; "A ADD R1, R1, #1"; ".END"]) by (vm_compute; reflexivity).
  destruct (classify [".ORIG x3000"; "A ADD R1, R1, #1"; "A ADD R1, R1, #1"; ".END"] 0 (fill_asm_map ∅))
    as [[[[items syms] err1] m']|] eqn:E2; [|vm_compute in E2; discriminate].
  pose proof E2 as E3. vm_compute in E3. injection E3 as <- <- <- _.
  exists m'. eapply duplicate_label_not_counted; [exact E1 | exact E2 | reflexivity | reflexivity | |].
  - intros l loc Hin. simpl in Hin. destruct Hin as [[= <- <-]|[[= <- <-]|[]]]; by eexists.
  - intros Hn. apply NoDup_cons in Hn as [Hn _]. apply Hn. left.
Defined.

(** C30: (spec divergence) the PC offset the encoder computes for a
    branch to a label.  Spec 4.4 asks for [target - (address+1)], where
    [address] is the branch line's address and [target] the label's
    line's address.  The code records [addr[symloc]], the address of the
    line after the label's line, and subtracts [addr[i]+1], the address
    after the branch plus one.  The two shifts cancel when the label's
    line is one word.  For a label on a line of its own ([~SKIP]) the
    offset is one less than the spec's. *)
Theorem branch_label_offset items caddr err addrs e n syms tab j k l c p cb q aj ak :
  assign_go items 1 caddr None err = Some (addrs, e, Some n) ->
  resolve syms addrs ∅ = Some (tab, false) -> In (l, S j) syms ->
  items !! j = Some (c, p) -> c <> 21 -> c <> 22 -> (S j < List.length addrs)%nat -> addrs !! j = Some aj ->
  items !! k = Some (cb, q) -> 30 <= cb <= 37 -> (S k < List.length addrs)%nat -> addrs !! k = Some ak ->
  operand tab (addrs !! S k) l = Some (Returned (wrap16 (aj - (ak + 1) - (if c =? 25 then 1 else 0)))).
Proof.
  intros Ha Hr Hin Hj H21 H22 Hlj Haj Hk Hcb Hlk Hak.
  rewrite (assign_go_next _ _ _ _ _ _ _ _ _ _ _ Ha Hk Hlk ltac:(lia) ltac:(lia)), Hak.
  replace (cb =? 25) with false by (symmetry; apply Z.eqb_neq; lia). simpl.
  unfold operand. rewrite (resolve_labels _ _ _ _ _ _ Hr Hin).
  rewrite (assign_go_next _ _ _ _ _ _ _ _ _ _ _ Ha Hj Hlj H21 H22), Haj. simpl.
  do 2 f_equal. destruct (c =? 25); zlia.
Qed.

Lemma branch_label_offset_witness :
  operand (<["LOOP" := 0x3000]> ∅) ([0x3000; 0x3000; 0x3001; 0x3002] !! 3%nat) "LOOP" =
    Some (Returned (wrap16 (0x3000 - (0x3001 + 1) - (if 25 =? 25 then 1 else 0)))).
Proof.
  apply (branch_label_offset [(25, ""); (1, "R1, R1, #-1"); (31, "LOOP"); (24, "")] 0x3000 0 _ 0 4
           [("LOOP", 1%nat)] _ 0 2 "LOOP" 25 "" 31 "LOOP");
    solve [reflexivity | simpl; lia | left; reflexivity].
Defined.

(** (spec 6) the minimal program of the spec, origin [x3000],
    [ADD R0,R0,#1] and [.END], assembles to exactly the origin and
    [0001 000 000 1 00001], as long as the file does not end with a
    newline. *)
Theorem minimal_program_assembles :
  (o ← assemble (".ORIG x3000" +:+ eol +:+ "ADD R0,R0,#1" +:+ eol +:+ ".END") (fill_asm_map ∅);
   Some (out_errnum o, written o)) = Some (0, Some [0x3000; 0x1021]).
Proof. vm_compute. reflexivity. Qed.

(** C31: (spec divergence) for every [.STRINGZ] operand the address
    pass accepts (a trimmed operand that passes the quote test, with no
    NUL character), the encoder pushes one word per character between
    the first and the last character, and none of them is 0.  The
    address pass reserves the same count.  Spec 4.4 has the directive
    expand to the characters plus an implicit terminator. *)
Theorem stringz_not_terminated tab ai p pc imm items i caddr temp err :
  trim_space p = Some p -> stringz_ok p = true -> (2 <= String.length p)%nat ->
  (forall c, In c (list_ascii_of_string p) -> c <> "000"%char) ->
  exists ws, encode_line tab ai 22 p pc imm = Some (mk_line_out ws 0 pc imm false) /\
    List.length ws = (String.length p - 2)%nat /\ Forall (fun w => w <> 0) ws /\
    assign_go ((22, p) :: items) i caddr temp err =
      ('(addrs, e, fin) ← assign_go items (S i) (wrap16 (caddr + Z.of_nat (String.length p) - 2)) temp err;
       Some (caddr :: addrs, e, fin)).
Proof.
  intros Ht Hok Hlen Hnul. eexists. split_and!; [reflexivity | | |].
  - rewrite length_map, list_ascii_of_string_length, substring_length; lia.
  - apply List.Forall_forall. intros w Hw. apply in_map_iff in Hw as (c & <- & Hc).
    apply char_word_nonzero, Hnul. by eapply in_substring.
  - cbn [assign_go]. rewrite Ht. simpl. by rewrite Hok.
Qed.

Lemma stringz_not_terminated_witness :
  exists ws, encode_line ∅ None 22 (String "034" (String "h" (String "i" (String "034" EmptyString)))) None None =
      Some (mk_line_out ws 0 None None false) /\
    List.length ws = (String.length (String "034" (String "h" (String "i" (String "034" EmptyString)))) - 2)%nat /\
    Forall (fun w => w <> 0) ws /\
    assign_go [(22, String "034" (String "h" (String "i" (String "034" EmptyString))))] 1 0x3000 None 0 =
      ('(addrs, e, fin) ← assign_go [] 2
          (wrap16 (0x3000 + Z.of_nat (String.length (String "034" (String "h" (String "i" (String "034" EmptyString))))) - 2))
          None 0;
       Some (0x3000 :: addrs, e, fin)).
Proof.
  apply stringz_not_terminated; [vm_compute; reflexivity | vm_compute; reflexivity | simpl; lia |].
  intros c Hc. simpl in Hc. intuition (subst; discriminate).
Defined.

(** C21: (roundtrip) what the assembler writes, the loader reads back:
    the file holds the origin and words, one [word_to_bin] line each,
    and [load_bin] of it places the words from the origin on (or
    rejects the whole image as Illegal memory space). *)
Theorem assembled_image_loads text m o bin s :
  assemble text m = Some o -> written o = Some bin ->
  exists lines items syms err m' p0 org ws,
    read_source (S (String.length text)) text = Some lines /\
    classify lines 0 m = Some ((23, p0) :: items, syms, err, m') /\
    to_word p0 = Some (Returned org) /\ bin = org :: ws /\
    (ws = [] \/ exists tab addrs e err3 ab, encode tab addrs (take (e - 1) items) 1 None None = Some (ws, err3, ab)) /\
    load_bin (Some (image_lines bin)) s =
    Some (if Z.of_nat (List.length ws) + org >? 0xFE00 then (s, Load_illegal_space) else (write_words org ws s, Load_done)).
Proof.
  intros H Hw.
  destruct (assemble_written _ _ _ _ H Hw) as (lines & items & syms & err & m' & p0 & org & ws & Hl & Hc & Hp & -> & Ho & Hws & Hws').
  exists lines, items, syms, err, m', p0, org, ws. split_and!; try done. by apply load_bin_image_lines.
Qed.

Lemma assembled_image_loads_witness :
  exists o, assemble demo_source (fill_asm_map ∅) = Some o /\
    written o = Some [0x3000; 0x127F; 0x03FE; 0x2401; 0xF025; 0x1234] /\
    exists lines items syms err m' p0 org ws,
      read_source (S (String.length demo_source)) demo_source = Some lines /\
      classify lines 0 (fill_asm_map ∅) = Some ((23, p0) :: items, syms, err, m') /\
      to_word p0 = Some (Returned org) /\ [0x3000; 0x127F; 0x03FE; 0x2401; 0xF025; 0x1234] = org :: ws /\
      (ws = [] \/ exists tab addrs e err3 ab,
         encode tab addrs (take (e - 1) items) 1 None None = Some (ws, err3, ab)) /\
      load_bin (Some (image_lines [0x3000; 0x127F; 0x03FE; 0x2401; 0xF025; 0x1234])) demo_sim =
      Some (if Z.of_nat (List.length ws) + org >? 0xFE00 then (demo_sim, Load_illegal_space)
            else (write_words org ws demo_sim, Load_done)).
Proof.
  destruct (assemble demo_source (fill_asm_map ∅)) as [o|] eqn:E; [|vm_compute in E; discriminate].
  assert (Hw : written o = Some [0x3000; 0x127F; 0x03FE; 0x2401; 0xF025; 0x1234])
    by (vm_compute in E; injection E as <-; vm_compute; reflexivity).
  exists o. split_and!; [done | done | exact (assembled_image_loads _ _ o _ demo_sim E Hw)].
Defined.

(** The [asm] command keeps the machine well formed: it only changes
    [asm_map]. *)
Lemma assembler_wf files p1 p2 s s' : wf s -> assembler files p1 p2 s = Some s' -> wf s'.
Proof.
  unfold assembler. intros Hs H. case_match; simplify_option_eq; [by apply wf_with_asm_map | done].
Qed.
